(** * Discriminator pre-training script: orchestration model

    A shallow embedding of [pretrain_discriminator.py]: the start-up
    checkpoint loads, the epoch loop with its checkpoint saves, the
    per-batch sampling / label mixing / metering, and the periodic
    reporting.  The neural networks, the optimiser, the loss, the data
    loader, the wall clock and the random permutation are collaborators
    of the script; they enter through the [Models] interface and the
    [env] record of observations. *)

From Stdlib Require Import QArith.
From stdpp Require Import gmap strings list fin_maps pretty.

Local Open Scope string_scope.
Local Open Scope Z_scope.
Local Open Scope list_scope.

(** ** Python exceptions the script can raise *)

Inductive exn : Type :=
| FileNotFoundError (p : string)   (* open() or torch.load of a path that cannot be opened *)
| UnpicklingError (p : string)     (* torch.load of a file holding no pickle *)
| KeyError (k : string)            (* checkpoint[k] on a missing key *)
| StateDictError (k : string)      (* load_state_dict given another model's state *)
| AttributeErrorNone               (* encoder.eval() with encoder = None *)
| TypeErrorNone                    (* encoder(imgs) with encoder = None *)
| EmptyTensorError                 (* torch.max of a tensor with no element *)
| IndexError                       (* tensor index out of range *)
| ZeroDivisionError                (* batch_id % 0 *)
| SaveError (p : string).          (* torch.save into a directory that does not exist *)

Inductive result (A : Type) : Type :=
| Ok (a : A)
| Raise (e : exn).
Arguments Ok {A} a.
Arguments Raise {A} e.

(** ** Scalars written to the log and the CSV record

    Python floats are idealised as rationals; integers are [Z]. *)

Inductive cell : Type :=
| CInt (n : Z)
| CNum (q : Q).

(** ** AverageMeter *)

Module AverageMeter.

(** Modelled from the spec: [AverageMeter] lives in [utils.py], which is
    missing.  The spec describes a running metric as the pair (current
    value, cumulative average over all updates seen so far); the sum and
    the count are what maintaining that average takes. *)
Record t : Type := mk { val : Q; avg : Q; sum : Q; count : Z }.

(** Modelled from the spec: the state of a freshly created meter
    ([AverageMeter()] in [utils.py], missing), before any update. *)
Definition init : t := {| val := 0; avg := 0; sum := 0; count := 0 |}.

(** Modelled from the spec: [AverageMeter.update] ([utils.py], missing):
    record the last-seen value and the mean over all updates so far. *)
Definition update (m : t) (v : Q) : t :=
  let s := (sum m + v)%Q in
  let c := count m + 1 in
  {| val := v; avg := (s / inject_Z c)%Q; sum := s; count := c |}.

(** The meter state after feeding [vs] in order to [m]. *)
Definition feed (m : t) (vs : list Q) : t := fold_left update vs m.

End AverageMeter.

(** The mean of a list of values, summed left to right from 0. *)
Definition total (vs : list Q) : Q := fold_left Qplus vs 0%Q.
Definition mean (vs : list Q) : Q :=
  (total vs / inject_Z (Z.of_nat (length vs)))%Q.

(** ** Command-line arguments ([argparse] namespace)

    Only the options the orchestration reads are kept; batch size,
    learning rate and the layer dimensions go to the collaborators. *)

Record Args : Type := {
  epochs : Z;
  print_freq : Z;
  sampling_method : string;
  cnn_architecture : string;
  max_len : Z;
  storage : string;
  dataset : string;
  gen_checkpoint_filename : string;
  dis_checkpoint_filename : string;
  use_image_features : bool;
  save_model : bool;
  save_stats : bool;
}.

(** ** Paths *)

Definition gen_checkpoint_path (args : Args) : string :=
  storage args +:+ "/ckpts/" +:+ dataset args +:+ "/gen/"
    +:+ gen_checkpoint_filename args.

Definition dis_checkpoint_path (args : Args) : string :=
  storage args +:+ "/ckpts/" +:+ dataset args +:+ "/dis/"
    +:+ dis_checkpoint_filename args.

(** [args.storage + '/ckpts/' + args.dataset +
     '/dis/{}_{}_{}_{}.pth'.format('pretrain_dis', e, sampling_method, cnn_architecture)] *)
Definition save_path (args : Args) (e : nat) : string :=
  storage args +:+ "/ckpts/" +:+ dataset args +:+
    ("/dis/" +:+ "pretrain_dis" +:+ "_" +:+ pretty e +:+ "_"
       +:+ sampling_method args +:+ "_" +:+ cnn_architecture args +:+ ".pth").

(** The file name part of [save_path], below [ckpts/<dataset>/dis/]. *)
Definition saved_filename (args : Args) (e : nat) : string :=
  "pretrain_dis" +:+ "_" +:+ pretty e +:+ "_"
    +:+ sampling_method args +:+ "_" +:+ cnn_architecture args +:+ ".pth".

(** [args.storage + '/stats/' + args.dataset +
     '/dis/{}_{}_{}.csv'.format('pretrain_dis', sampling_method, cnn_architecture)] *)
Definition stats_path (args : Args) : string :=
  storage args +:+ "/stats/" +:+ dataset args +:+
    ("/dis/" +:+ "pretrain_dis" +:+ "_" +:+ sampling_method args +:+ "_"
       +:+ cnn_architecture args +:+ ".csv").

(** ** Tensors

    A caption tensor is a list of rows of token indices, a length vector
    a list of integers, a label vector a list of scalars.  An image batch
    is a list of image representations (raw pixels or features). *)

Definition caption := list Z.

(** [torch.max(t).item()] on a vector; it raises on a vector with no element. *)
Definition tensor_max (t : list Z) : option Z :=
  match t with
  | [] => None
  | x :: r => Some (fold_left Z.max r x)
  end.

(** [caps[:, 0]]: the first token of every row. *)
Definition column0 (caps : list caption) : option (list Z) :=
  mapM head caps.

(** [caps.shape[1]] *)
Definition width (caps : list caption) : nat :=
  match caps with
  | [] => O
  | r :: _ => length r
  end.

(** [t[indices]]: the rows of [t] at the positions [indices], in that
    order; an index past the end raises. *)
Definition gather {A : Type} (t : list A) (indices : list nat) : option (list A) :=
  mapM (fun i => t !! i) indices.

(** The arguments of one [generator.sample] call. *)
Record sample_call (I : Type) : Type := {
  cap_len : Z;
  col_shape : nat;
  img_feats : list I;
  input_word : list Z;
  hidden_state : option unit;
  call_sampling_method : string;
}.
Arguments cap_len {I} _.
Arguments col_shape {I} _.
Arguments img_feats {I} _.
Arguments input_word {I} _.
Arguments hidden_state {I} _.
Arguments call_sampling_method {I} _.

(** ** The collaborators

    What [models.py], [utils.py], [torch] and the data set provide.  The
    script only calls them; the claims are about how it calls them. *)

Class Models : Type := {
  Image : Type;
  Encoder : Type;
  GenState : Type;
  DisState : Type;
  OptState : Type;
  (* Generator(...), GRUDiscriminator(...), optim.Adam(...), Encoder(...) *)
  generator_init : nat -> GenState;
  discriminator_init : nat -> DisState;
  adam_init : DisState -> OptState;
  encoder_new : string -> Encoder;
  encoder_forward : Encoder -> list Image -> list Image;
  (* generator.sample; the hidden states it also returns are dropped by [train] *)
  generator_sample : GenState -> sample_call Image -> list caption;
  (* pad_generated_captions: padded captions and their lengths *)
  pad_generated_captions : list caption -> gmap string Z -> list caption * list Z;
  (* discriminator(imgs, caps, lens) *)
  discriminator_forward : DisState -> list Image -> list caption -> list Z -> list Q;
  (* nn.BCELoss()(preds, targets).item() *)
  bce_loss : list Q -> list Q -> Q;
  (* binary_accuracy(preds, targets).item() *)
  binary_accuracy : list Q -> list Q -> Q;
  (* zero_grad(); loss.backward(); dis_optimizer.step() on one mixed batch *)
  adam_step : DisState -> OptState ->
              list Image -> list caption -> list Z -> list Q -> DisState * OptState;
}.

(** One element of the train loader: images, captions, caption lengths
    (the length column already squeezed to a vector). *)
Record batch `{Models} : Type := {
  b_imgs : list Image;
  b_caps : list caption;
  b_cap_lens : list Z;
}.

(** What a run observes from outside: the vocabulary file, the batches
    the loader yields in each epoch, the permutation [torch.randperm]
    draws, the time measured for each batch, and whether the directory a
    path lies in exists (the script creates no directory, so this does
    not change during a run). *)
Record env `{Models} : Type := {
  vocabulary : option (gmap string Z);
  batches_of : nat -> list batch;
  randperm_of : nat -> nat -> nat -> list nat;
  elapsed_of : nat -> nat -> Q;
  dir_exists : string -> bool;
}.

Section Effects.
Context `{MD : Models}.

(** *** Files and the trace of a run *)

(** A value stored under a key of a checkpoint dictionary. *)
Inductive obj : Type :=
| OGen (g : GenState)
| ODis (d : DisState)
| OOpt (o : OptState).

(** A file: what [torch.save] pickled into it, if anything, and the
    rows appended to it afterwards. *)
Record file : Type := {
  pickled : option (gmap string obj);
  appended : list (list cell);
}.

Inductive event : Type :=
| EvLoad (p : string)                          (* torch.load(p) *)
| EvSample (c : sample_call Image)             (* generator.sample(...) *)
| EvUpdate (loss accuracy : Q)                 (* losses.update(..); acc.update(..) *)
| EvInfo (fields : list cell)                  (* the per-batch logging.info *)
| EvRow (p : string) (row : list cell)         (* csv writerow to p *)
| EvSave (p : string) (d : gmap string obj)    (* torch.save(d, p) *)
| EvEpoch (e : nat).                           (* 'Completed epoch: e' *)

(** *** State, exception and trace monad

    A computation starts from a file system and ends with a value or
    an exception, the file system it leaves, and the events it
    produced, in order.  An exception keeps the files written and the
    events produced before it. *)

Record run (A : Type) : Type := {
  res : result A;
  fs : gmap string file;
  trace : list event;
}.
Arguments res {A} _.
Arguments fs {A} _.
Arguments trace {A} _.

Definition M (A : Type) : Type := gmap string file -> run A.

Definition ret {A} (a : A) : M A :=
  fun s => {| res := Ok a; fs := s; trace := [] |}.
Definition raise {A} (e : exn) : M A :=
  fun s => {| res := Raise e; fs := s; trace := [] |}.
Definition bind {A B} (m : M A) (k : A -> M B) : M B :=
  fun s =>
    let r := m s in
    match res r with
    | Ok a =>
        let r' := k a (fs r) in
        {| res := res r'; fs := fs r'; trace := trace r ++ trace r' |}
    | Raise e => {| res := Raise e; fs := fs r; trace := trace r |}
    end.

(** A run whose events come after the events [tr]. *)
Definition after {A} (tr : list event) (r : run A) : run A :=
  {| res := res r; fs := fs r; trace := tr ++ trace r |}.

Definition emit (ev : event) : M unit :=
  fun s => {| res := Ok tt; fs := s; trace := [ev] |}.

Definition or_raise {A} (o : option A) (e : exn) : M A :=
  match o with
  | Some a => ret a
  | None => raise e
  end.

End Effects.

Arguments res {MD A} _.
Arguments fs {MD A} _.
Arguments trace {MD A} _.

Notation "'let*' x ':=' m 'in' k" := (bind m (fun x => k))
  (at level 10, x pattern, m at level 100, k at level 200, only parsing).
Notation "m ';;' k" := (bind m (fun _ => k))
  (at level 100, k at level 200, right associativity, only parsing).

Section Script.
Context `{MD : Models}.

(** *** File operations *)

(** [path.isfile(p)] *)
Definition isfile (p : string) : M bool :=
  fun s => {| res := Ok (bool_decide (is_Some (s !! p))); fs := s; trace := [] |}.

(** [torch.load(p)]: the dictionary pickled in the file. *)
Definition torch_load (p : string) : M (gmap string obj) :=
  fun s =>
    {| res := match s !! p with
              | None => Raise (FileNotFoundError p)
              | Some f =>
                  match pickled f with
                  | None => Raise (UnpicklingError p)
                  | Some d => Ok d
                  end
              end;
       fs := s;
       trace := [EvLoad p] |}.

(** A file can be opened for writing at [p] when there is a file at [p]
    already or the directory [p] lies in exists. *)
Definition can_write (ev : env) (s : gmap string file) (p : string) : bool :=
  bool_decide (is_Some (s !! p)) || dir_exists ev p.

(** [torch.save(d, p)]: the file at [p] is created or replaced; it
    raises, and writes nothing, when the file cannot be opened (a
    [RuntimeError] or a [FileNotFoundError], by the version of torch:
    [SaveError] here). *)
Definition torch_save (ev : env) (d : gmap string obj) (p : string) : M unit :=
  fun s =>
    if can_write ev s p
    then {| res := Ok tt;
            fs := <[p := {| pickled := Some d; appended := [] |}]> s;
            trace := [EvSave p d] |}
    else {| res := Raise (SaveError p); fs := s; trace := [] |}.

(** [with open(p, 'a+') as file: csv.writer(file).writerow(row)]: the
    [open] raises [FileNotFoundError] when the directory is missing. *)
Definition append_row (ev : env) (p : string) (row : list cell) : M unit :=
  fun s =>
    if can_write ev s p
    then
      let f := match s !! p with
               | None => {| pickled := None; appended := [row] |}
               | Some f => {| pickled := pickled f; appended := appended f ++ [row] |}
               end in
      {| res := Ok tt; fs := <[p := f]> s; trace := [EvRow p row] |}
    else {| res := Raise (FileNotFoundError p); fs := s; trace := [] |}.

(** [checkpoint[k]] *)
Definition getitem (d : gmap string obj) (k : string) : M obj :=
  or_raise (d !! k) (KeyError k).

(** [generator.load_state_dict(o)] *)
Definition generator_load_state_dict (o : obj) : M GenState :=
  match o with
  | OGen g => ret g
  | _ => raise (StateDictError "generator")
  end.

(** [discriminator.load_state_dict(o)] *)
Definition discriminator_load_state_dict (o : obj) : M DisState :=
  match o with
  | ODis d => ret d
  | _ => raise (StateDictError "discriminator")
  end.

(** [dis_optimizer.load_state_dict(o)] *)
Definition optimizer_load_state_dict (o : obj) : M OptState :=
  match o with
  | OOpt s => ret s
  | _ => raise (StateDictError "optimizer")
  end.

(** *** Start-up: restoring the generator and the discriminator
    ([main], the two [if path.isfile(...)] blocks) *)

Definition load_generator (args : Args) (generator : GenState) : M GenState :=
  let* present := isfile (gen_checkpoint_path args) in
  if (present : bool) then
    let* checkpoint := torch_load (gen_checkpoint_path args) in
    let* o := getitem checkpoint "gen_state_dict" in
    generator_load_state_dict o
  else ret generator.

Definition load_discriminator (args : Args) (discriminator : DisState)
    (dis_optimizer : OptState) : M (DisState * OptState) :=
  let* present := isfile (dis_checkpoint_path args) in
  if (present : bool) then
    let* checkpoint := torch_load (dis_checkpoint_path args) in
    let* od := getitem checkpoint "dis_state_dict" in
    let* d := discriminator_load_state_dict od in
    let* oo := getitem checkpoint "dis_optimizer_state_dict" in
    let* o := optimizer_load_state_dict oo in
    ret (d, o)
  else ret (discriminator, dis_optimizer).

(** The dictionary [main] passes to [torch.save] at the end of an epoch. *)
Definition checkpoint_dict (discriminator : DisState) (dis_optimizer : OptState)
    : gmap string obj :=
  <["dis_state_dict" := ODis discriminator]>
    (<["optimizer_state_dict" := OOpt dis_optimizer]> ∅).

Definition save_checkpoint (ev : env) (args : Args) (e : nat)
    (discriminator : DisState) (dis_optimizer : OptState) : M unit :=
  torch_save ev (checkpoint_dict discriminator dis_optimizer) (save_path args e).

(** *** Batch Sampler ([sample_from_start]) *)

(** The keyword arguments of the [generator.sample] call, evaluated in
    the order they are written. *)
Definition sample_args (imgs : list Image) (caps : list caption)
    (cap_lens : list Z) (args : Args) : M (sample_call Image) :=
  let* longest := or_raise (tensor_max cap_lens) EmptyTensorError in
  let* first_words := or_raise (column0 caps) IndexError in
  ret {| cap_len := Z.max longest (max_len args) - 1;
         col_shape := width caps;
         img_feats := imgs;
         input_word := first_words;
         hidden_state := None;
         call_sampling_method := sampling_method args |}.

Definition sample_from_start (imgs : list Image) (caps : list caption)
    (cap_lens : list Z) (generator : GenState) (word_index : gmap string Z)
    (args : Args) : M (list caption * list Z) :=
  let* call := sample_args imgs caps cap_lens args in
  emit (EvSample call);;
  let fake_caps := generator_sample generator call in
  ret (pad_generated_captions fake_caps word_index).

(** *** Label Mixer ([train], from [torch.randperm] to [targets[indices]]) *)

Record mixed : Type := {
  m_imgs : list Image;
  m_inputs : list caption;
  m_input_lens : list Z;
  m_targets : list Q;
}.

(** [torch.cat((ones, zeros))] with [ones], [zeros] of size [caps.shape[0]] *)
Definition targets_of (caps : list caption) : list Q :=
  repeat 1%Q (length caps) ++ repeat 0%Q (length caps).

(** The four concatenations, before the permutation is applied. *)
Definition concat_batches (imgs : list Image) (caps : list caption)
    (cap_lens : list Z) (fake_caps : list caption) (fake_cap_lens : list Z)
    : mixed :=
  {| m_imgs := imgs ++ imgs;
     m_inputs := caps ++ fake_caps;
     m_input_lens := cap_lens ++ fake_cap_lens;
     m_targets := targets_of caps |}.

(** [imgs[indices], inputs[indices], input_lens[indices], targets[indices]] *)
Definition permute (indices : list nat) (m : mixed) : option mixed :=
  gi ← gather (m_imgs m) indices;
  gc ← gather (m_inputs m) indices;
  gl ← gather (m_input_lens m) indices;
  gt ← gather (m_targets m) indices;
  Some {| m_imgs := gi; m_inputs := gc; m_input_lens := gl; m_targets := gt |}.

(** *** Metrics Recorder: the periodic report
    ([train], the [if batch_id % args.print_freq == 0] block) *)

Definition info_fields (epoch batch_id : nat) (elapsed : Q)
    (losses acc : AverageMeter.t) : list cell :=
  [CInt (Z.of_nat epoch); CInt (Z.of_nat batch_id); CNum elapsed;
   CNum (AverageMeter.avg losses); CNum (AverageMeter.val losses);
   CNum (AverageMeter.avg acc); CNum (AverageMeter.val acc)].

Definition stats_row (epoch batch_id : nat)
    (losses acc : AverageMeter.t) : list cell :=
  [CInt (Z.of_nat epoch); CInt (Z.of_nat batch_id);
   CNum (AverageMeter.avg losses); CNum (AverageMeter.val losses);
   CNum (AverageMeter.val acc); CNum (AverageMeter.avg acc)].

Definition report (ev : env) (epoch batch_id : nat) (elapsed : Q)
    (losses acc : AverageMeter.t) (args : Args) : M unit :=
  if (print_freq args =? 0)%Z then raise ZeroDivisionError
  else if (Z.of_nat batch_id mod print_freq args =? 0)%Z then
    emit (EvInfo (info_fields epoch batch_id elapsed losses acc));;
    if save_stats args
    then append_row ev (stats_path args) (stats_row epoch batch_id losses acc)
    else ret tt
  else ret tt.

(** *** One epoch ([train]) *)

(** What the loop body carries from one batch to the next: the
    discriminator and its optimiser (mutated in place by the script) and
    the two meters. *)
Record loop_state : Type := {
  discriminator : DisState;
  dis_optimizer : OptState;
  losses : AverageMeter.t;
  acc : AverageMeter.t;
}.

(** The body of [for batch_id, (imgs, caps, cap_lens) in enumerate(train_loader)]. *)
Definition train_batch (ev : env) (epoch : nat) (encoder : option Encoder)
    (generator : GenState) (word_index : gmap string Z) (args : Args)
    (batch_id : nat) (b : batch) (st : loop_state) : M loop_state :=
  let* imgs :=
    (if negb (use_image_features args)
     then match encoder with
          | None => raise TypeErrorNone
          | Some enc => ret (encoder_forward enc (b_imgs b))
          end
     else ret (b_imgs b)) in
  let* fake := sample_from_start imgs (b_caps b) (b_cap_lens b)
                 generator word_index args in
  let indices := randperm_of ev epoch batch_id (length (b_caps b) * 2)%nat in
  let pre := concat_batches imgs (b_caps b) (b_cap_lens b) fake.1 fake.2 in
  let* mx := or_raise (permute indices pre) IndexError in
  let preds := discriminator_forward (discriminator st)
                 (m_imgs mx) (m_inputs mx) (m_input_lens mx) in
  let loss := bce_loss preds (m_targets mx) in
  let upd := adam_step (discriminator st) (dis_optimizer st)
               (m_imgs mx) (m_inputs mx) (m_input_lens mx) (m_targets mx) in
  let losses' := AverageMeter.update (losses st) loss in
  let accuracy := binary_accuracy preds (m_targets mx) in
  let acc' := AverageMeter.update (acc st) accuracy in
  emit (EvUpdate loss accuracy);;
  report ev epoch batch_id (elapsed_of ev epoch batch_id) losses' acc' args;;
  ret {| discriminator := upd.1; dis_optimizer := upd.2;
         losses := losses'; acc := acc' |}.

Fixpoint train_loop (ev : env) (epoch : nat) (encoder : option Encoder)
    (generator : GenState) (word_index : gmap string Z) (args : Args)
    (batch_id : nat) (bs : list batch) (st : loop_state) : M loop_state :=
  match bs with
  | [] => ret st
  | b :: rest =>
      let* st' := train_batch ev epoch encoder generator word_index args
                    batch_id b st in
      train_loop ev epoch encoder generator word_index args (S batch_id) rest st'
  end.

(** [train]: fresh meters, the encoder put in evaluation mode when it is
    used, then the loop over the batches of this epoch
    ([discriminator.train()] and [generator.eval()] only set mode flags
    inside the collaborators and leave no trace here).  The value
    returned is the state the script leaves in the objects it mutated. *)
Definition train (ev : env) (epoch : nat) (encoder : option Encoder)
    (generator : GenState) (d : DisState) (o : OptState)
    (word_index : gmap string Z) (args : Args) : M loop_state :=
  let losses0 := AverageMeter.init in
  let acc0 := AverageMeter.init in
  (if negb (use_image_features args)
   then match encoder with
        | None => raise AttributeErrorNone
        | Some _ => ret tt
        end
   else ret tt);;
  train_loop ev epoch encoder generator word_index args 0%nat (batches_of ev epoch)
    {| discriminator := d; dis_optimizer := o; losses := losses0; acc := acc0 |}.

(** *** The whole run ([main]) *)

(** The body of [for e in range(args.epochs)]. *)
Definition run_epoch (ev : env) (encoder : option Encoder) (generator : GenState)
    (word_index : gmap string Z) (args : Args) (e : nat)
    (dis : DisState * OptState) : M (DisState * OptState) :=
  let* st := train ev e encoder generator dis.1 dis.2 word_index args in
  (if save_model args
   then save_checkpoint ev args e (discriminator st) (dis_optimizer st)
   else ret tt);;
  emit (EvEpoch e);;
  ret (discriminator st, dis_optimizer st).

Fixpoint epoch_loop (ev : env) (encoder : option Encoder) (generator : GenState)
    (word_index : gmap string Z) (args : Args) (es : list nat)
    (dis : DisState * OptState) : M (DisState * OptState) :=
  match es with
  | [] => ret dis
  | e :: rest =>
      let* dis' := run_epoch ev encoder generator word_index args e dis in
      epoch_loop ev encoder generator word_index args rest dis'
  end.

(** [range(n)] *)
Definition range (n : Z) : list nat := seq 0 (Z.to_nat n).

(** The encoder [main] hands to [train]: [None] unless raw images are used. *)
Definition build_encoder (args : Args) : option Encoder :=
  if use_image_features args then None
  else Some (encoder_new (cnn_architecture args)).

(** The models as [main] has them when the epoch loop starts. *)
Definition startup (ev : env) (args : Args)
    : M (gmap string Z * GenState * (DisState * OptState)) :=
  let* word_index := or_raise (vocabulary ev)
      (FileNotFoundError (storage args +:+ "/processed_data/" +:+ dataset args
                            +:+ "/word_index.json")) in
  let vocab_size := size word_index in
  let generator := generator_init vocab_size in
  let discriminator := discriminator_init vocab_size in
  let dis_optimizer := adam_init discriminator in
  let* generator := load_generator args generator in
  let* dis := load_discriminator args discriminator dis_optimizer in
  ret (word_index, generator, dis).

Definition main (ev : env) (args : Args) : M (DisState * OptState) :=
  let* su := startup ev args in
  let encoder := build_encoder args in
  epoch_loop ev encoder su.1.2 su.1.1 args (range (epochs args)) su.2.

End Script.

(** ** A small concrete set of collaborators

    Used to run the script on explicit inputs.  The discriminator state
    is a step counter; the loss of a step is the counter before the step,
    the accuracy an eighth of it; the generator continues every first
    word with the fixed tokens 7, 7. *)

Module Toy.

#[export] Instance models : Models := {|
  Image := Z;
  Encoder := string;
  GenState := Z;
  DisState := Z;
  OptState := Z;
  generator_init := fun _ => 0;
  discriminator_init := fun _ => 1;
  adam_init := fun _ => 0;
  encoder_new := fun arch => arch;
  encoder_forward := fun _ imgs => imgs;
  generator_sample := fun _ call => map (fun w => [w; 7; 7]) (input_word call);
  pad_generated_captions := fun caps _ => (caps, map (fun c => Z.of_nat (length c)) caps);
  discriminator_forward := fun d _ caps _ => map (fun _ => inject_Z d) caps;
  bce_loss := fun preds _ => hd 0%Q preds;
  binary_accuracy := fun preds _ => (hd 0%Q preds * (1 # 8))%Q;
  adam_step := fun d o _ _ _ _ => (d + 1, o + 1);
|}.

Definition args0 : Args := {|
  epochs := 2;
  print_freq := 1;
  sampling_method := "multinomial";
  cnn_architecture := "resnet152";
  max_len := 20;
  storage := ".";
  dataset := "flickr8k";
  gen_checkpoint_filename := "mle_gen_resnet152_5.pth";
  dis_checkpoint_filename := "";
  use_image_features := true;
  save_model := true;
  save_stats := true;
|}.

(** Two real captions of length 3, images 10 and 11. *)
Definition batch0 : batch :=
  {| b_imgs := [10; 11]; b_caps := [[1; 4; 2]; [1; 5; 2]]; b_cap_lens := [3; 3] |}.

(** One batch per epoch, the permutation reversing the positions. *)
Definition env0 : env := {|
  vocabulary := Some ∅;
  batches_of := fun _ => [batch0];
  randperm_of := fun _ _ n => rev (seq 0 n);
  elapsed_of := fun _ _ => (1 # 4)%Q;
  dir_exists := fun _ => true;
|}.

(** The same with two batches per epoch. *)
Definition env1 : env := {|
  vocabulary := Some ∅;
  batches_of := fun _ => [batch0; batch0];
  randperm_of := fun _ _ n => rev (seq 0 n);
  elapsed_of := fun _ _ => (1 # 4)%Q;
  dir_exists := fun _ => true;
|}.

End Toy.

(** ** Observations on batches, traces and runs *)

(** The arguments of a later run that names [name] as the discriminator
    checkpoint to restore. *)
Definition with_dis_checkpoint (args : Args) (name : string) : Args :=
  {| epochs := epochs args;
     print_freq := print_freq args;
     sampling_method := sampling_method args;
     cnn_architecture := cnn_architecture args;
     max_len := max_len args;
     storage := storage args;
     dataset := dataset args;
     gen_checkpoint_filename := gen_checkpoint_filename args;
     dis_checkpoint_filename := name;
     use_image_features := use_image_features args;
     save_model := save_model args;
     save_stats := save_stats args |}.

(** How often the label [x] occurs in a label vector. *)
Definition count_label (x : Q) (labels : list Q) : nat :=
  length (List.filter (fun y => Qeq_bool y x) labels).

(** The exceptions the start-up can end with. *)
Definition startup_exn (x : exn) : Prop :=
  match x with
  | FileNotFoundError _ | UnpicklingError _ | KeyError _ | StateDictError _ => True
  | _ => False
  end.

(** [torch.randperm n] returns a permutation of [0 .. n-1]. *)
Definition randperm_ok `{Models} (ev : env) : Prop :=
  forall e b n, Permutation (randperm_of ev e b n) (seq 0 n).

Section Observations.
Context `{MD : Models}.

(** The real batch and the fake batch have one entry per example. *)
Definition same_batch_size (imgs : list Image) (caps : list caption)
    (cap_lens : list Z) (fake_caps : list caption) (fake_cap_lens : list Z)
    : Prop :=
  length imgs = length caps /\ length cap_lens = length caps /\
  length fake_caps = length caps /\ length fake_cap_lens = length caps.

(** The fields in the order the specification gives them: current then
    running loss, current then running accuracy. *)
Definition fields_current_then_running (epoch batch_id : nat) (elapsed : Q)
    (losses acc : AverageMeter.t) : list cell :=
  [CInt (Z.of_nat epoch); CInt (Z.of_nat batch_id); CNum elapsed;
   CNum (AverageMeter.val losses); CNum (AverageMeter.avg losses);
   CNum (AverageMeter.val acc); CNum (AverageMeter.avg acc)].

Definition saves (tr : list event) : list string :=
  omap (fun ev => match ev with EvSave p _ => Some p | _ => None end) tr.

Definition loads (tr : list event) : list string :=
  omap (fun ev => match ev with EvLoad p => Some p | _ => None end) tr.

Definition rows (tr : list event) : list (list cell) :=
  omap (fun ev => match ev with EvRow _ r => Some r | _ => None end) tr.

Definition epochs_done (tr : list event) : list nat :=
  omap (fun ev => match ev with EvEpoch e => Some e | _ => None end) tr.

Definition updates_loss (tr : list event) : list Q :=
  omap (fun ev => match ev with EvUpdate l _ => Some l | _ => None end) tr.

Definition updates_acc (tr : list event) : list Q :=
  omap (fun ev => match ev with EvUpdate _ a => Some a | _ => None end) tr.

(** The events since the last completed epoch. *)
Definition current_epoch (tr : list event) : list event :=
  fold_left (fun cur ev => match ev with
                           | EvEpoch _ => []
                           | _ => cur ++ [ev]
                           end) tr [].

(** The events of the loop body of [train]. *)
Definition batch_event (ev : event) : Prop :=
  match ev with
  | EvSample _ | EvUpdate _ _ | EvInfo _ | EvRow _ _ => True
  | _ => False
  end.

(** The checkpoint dictionary stored at [p], if any. *)
Definition checkpoint_at (s : gmap string file) (p : string)
    : option (gmap string obj) :=
  s !! p ≫= pickled.

Definition same_checkpoints (s s' : gmap string file) : Prop :=
  forall p, checkpoint_at s' p = checkpoint_at s p.

(** The exceptions the loop body of [train] can end with. *)
Definition batch_exn (args : Args) (encoder : option Encoder) (e : exn) : Prop :=
  (e = TypeErrorNone /\ use_image_features args = false /\ encoder = None) \/
  e = EmptyTensorError \/ e = IndexError \/
  (e = ZeroDivisionError /\ print_freq args = 0) \/
  (e = FileNotFoundError (stats_path args) /\ save_stats args = true).

(** The exceptions one turn of the epoch loop can end with: those of
    [train], and that of [torch.save] when the checkpoint cannot be
    written. *)
Definition epoch_exn (args : Args) (encoder : option Encoder) (x : exn) : Prop :=
  (x = AttributeErrorNone /\ use_image_features args = false /\
   encoder = None) \/
  batch_exn args encoder x \/
  (save_model args = true /\ exists e : nat, x = SaveError (save_path args e)).

(** [P pre ev] for every event [ev] of [tr], [pre] being the events
    before it: those of [before], then those of [tr] up to [ev]. *)
Fixpoint each_after (P : list event -> event -> Prop)
    (before tr : list event) : Prop :=
  match tr with
  | [] => True
  | ev :: rest => P before ev /\ each_after P (before ++ [ev]) rest
  end.

(** The claim of C7 as stated: every save goes to a path where no file
    was before the run and that no earlier save of the run wrote. *)
Definition writes_new_files (s0 : gmap string file) (tr : list event) : Prop :=
  forall pre p d post,
    tr = pre ++ EvSave p d :: post -> s0 !! p = None /\ p ∉ saves pre.

(** What the script does: a log line reports the means of the losses
    and accuracies metered since the last completed epoch. *)
Definition reports_epoch_mean (pre : list event) (ev : event) : Prop :=
  match ev with
  | EvInfo fields =>
      fields !! 3%nat = Some (CNum (mean (updates_loss (current_epoch pre)))) /\
      fields !! 5%nat = Some (CNum (mean (updates_acc (current_epoch pre))))
  | _ => True
  end.

(** C2 as stated: the running loss of every log line is the mean of all
    the losses metered since the process started. *)
Definition reports_mean_since_start (tr : list event) : Prop :=
  forall pre fields post q,
    tr = pre ++ EvInfo fields :: post ->
    fields !! 3%nat = Some (CNum q) ->
    (q == mean (updates_loss pre))%Q.

(** The meters hold what was metered since the last completed epoch. *)
Definition meters_match (pre : list event) (st : loop_state) : Prop :=
  losses st = AverageMeter.feed AverageMeter.init
                (updates_loss (current_epoch pre)) /\
  acc st = AverageMeter.feed AverageMeter.init
             (updates_acc (current_epoch pre)).

(** Nothing was metered since the last completed epoch. *)
Definition nothing_metered (pre : list event) : Prop :=
  updates_loss (current_epoch pre) = [] /\
  updates_acc (current_epoch pre) = [].

(** A batch as the loader yields it: at least one example, no empty
    caption row, one image and one length per caption. *)
Definition batch_ok (b : batch) : Prop :=
  b_cap_lens b ≠ [] /\ Forall (fun row => row ≠ []) (b_caps b) /\
  length (b_imgs b) = length (b_caps b) /\
  length (b_cap_lens b) = length (b_caps b).

(** The encoder keeps the batch size, and the sampler returns one padded
    caption and one length per input word. *)
Definition collaborators_ok : Prop :=
  (forall enc imgs, length (encoder_forward enc imgs) = length imgs) /\
  (forall g (call : sample_call Image) wi,
     length (pad_generated_captions (generator_sample g call) wi).1
       = length (input_word call) /\
     length (pad_generated_captions (generator_sample g call) wi).2
       = length (input_word call)).

(** The directories the run writes into are there: that of the metrics
    file if stats saving is on, that of the checkpoints (one directory
    for every epoch) if checkpoint saving is on. *)
Definition directories_exist (ev : env) (args : Args) : Prop :=
  (save_stats args = true -> dir_exists ev (stats_path args) = true) /\
  (save_model args = true ->
   forall e : nat, dir_exists ev (save_path args e) = true).

(** What the epoch loop needs in order not to raise. *)
Definition loop_conditions (ev : env) (args : Args) : Prop :=
  print_freq args ≠ 0 /\ (forall e, Forall batch_ok (batches_of ev e)) /\
  randperm_ok ev /\ directories_exist ev args /\ collaborators_ok.

End Observations.

(** ** Two runs on explicit inputs *)

Module RunInputs.
Import Toy.

(** The run of two epochs with one batch each, from no file at all. *)
Definition first_run : run (DisState * OptState) := main env0 args0 ∅.

(** A later run of the same configuration, two batches per epoch, on the
  files the first run left. *)
Definition second_run : run (DisState * OptState) := main env1 args0 (fs first_run).

(** The sampled captions for [batch0]. *)
Definition fake0 : list caption := [[1; 7; 7]; [1; 7; 7]].

(** The inputs of [env0] on a storage that has neither the [stats] nor
  the [ckpts] directory tree. *)
Definition env_no_dirs : env := {|
vocabulary := Some ∅;
batches_of := fun _ => [batch0];
randperm_of := fun _ _ n => rev (seq 0 n);
elapsed_of := fun _ _ => (1 # 4)%Q;
dir_exists := fun _ => false;
|}.

(** The run of [first_run] on that storage. *)
Definition run_no_dirs : run (DisState * OptState) := main env_no_dirs args0 ∅.

End RunInputs.

(** ** Further observations *)

Section MoreObservations.
Context `{MD : Models}.

(** The examples of a mixed batch, one tuple per position. *)
Definition examples (m : mixed) : list (Image * caption * Z * Q) :=
  zip (zip (zip (m_imgs m) (m_inputs m)) (m_input_lens m)) (m_targets m).

(** The batch indices of the log lines of a trace (their second field). *)
Definition logged_batches (tr : list event) : list Z :=
  omap (fun ev => match ev with
                  | EvInfo (_ :: CInt b :: _) => Some b
                  | _ => None
                  end) tr.

(** The generator calls of a trace. *)
Definition samples (tr : list event) : list (sample_call Image) :=
  omap (fun ev => match ev with EvSample c => Some c | _ => None end) tr.

(** The rows appended so far to the file at [p]. *)
Definition rows_at (s : gmap string file) (p : string) : list (list cell) :=
  from_option appended [] (s !! p).

(** The paths the metric rows of a trace were written to. *)
Definition row_paths (tr : list event) : list string :=
  omap (fun ev => match ev with EvRow p _ => Some p | _ => None end) tr.

(** The batch indices at which [train] reports: the multiples of the
    print frequency among [0 .. n-1]. *)
Definition print_intervals (print_freq : Z) (n : nat) : list Z :=
  List.filter (fun b => b mod print_freq =? 0) (Z.of_nat <$> seq 0 n).

(** The log lines of a trace. *)
Definition infos (tr : list event) : list (list cell) :=
  omap (fun ev => match ev with EvInfo f => Some f | _ => None end) tr.

(** The checkpoint dictionaries a trace saved, with their paths. *)
Definition saved_dicts (tr : list event) : list (string * gmap string obj) :=
  omap (fun ev => match ev with EvSave p d => Some (p, d) | _ => None end) tr.

(** What a generator call of this script always looks like: the
    configured sampling method, no initial hidden state, one input word
    per image and a target length of at least max-length - 1. *)
Definition call_as_configured (args : Args) (c : sample_call Image) : Prop :=
  call_sampling_method c = sampling_method args /\
  hidden_state c = None /\
  max_len args - 1 <= cap_len c.

(** The batch the loop body of [train] hands to the discriminator for
    batch [batch_id] of [epoch]: the images encoded unless they are
    features already, the captions sampled for them, real and sampled
    halves concatenated and permuted; [None] where the body raises
    before the forward pass. *)
Definition mixed_batch (ev : env) (epoch : nat) (encoder : option Encoder)
    (generator : GenState) (word_index : gmap string Z) (args : Args)
    (batch_id : nat) (b : batch) : option mixed :=
  imgs ← (if use_image_features args then Some (b_imgs b)
          else (fun enc => encoder_forward enc (b_imgs b)) <$> encoder);
  longest ← tensor_max (b_cap_lens b);
  first_words ← column0 (b_caps b);
  let call := {| cap_len := Z.max longest (max_len args) - 1;
                 col_shape := width (b_caps b);
                 img_feats := imgs;
                 input_word := first_words;
                 hidden_state := None;
                 call_sampling_method := sampling_method args |} in
  let fake := pad_generated_captions (generator_sample generator call)
                word_index in
  permute (randperm_of ev epoch batch_id (length (b_caps b) * 2))
    (concat_batches imgs (b_caps b) (b_cap_lens b) fake.1 fake.2).

(** [loss.backward(); dis_optimizer.step()] on a mixed batch. *)
Definition optimizer_step (dis : DisState * OptState) (mx : mixed)
    : DisState * OptState :=
  adam_step dis.1 dis.2 (m_imgs mx) (m_inputs mx) (m_input_lens mx)
    (m_targets mx).

(** The loss and the accuracy of the discriminator [d] on a mixed batch,
    as the loop body meters them (before the optimiser step). *)
Definition metered_on (d : DisState) (mx : mixed) : Q * Q :=
  let preds := discriminator_forward d (m_imgs mx) (m_inputs mx)
                 (m_input_lens mx) in
  (bce_loss preds (m_targets mx), binary_accuracy preds (m_targets mx)).

(** The discriminator and its optimiser after one optimiser step on
    each of the batches [bs] of [epoch], numbered from [batch_id]. *)
Fixpoint steps (ev : env) (epoch : nat) (encoder : option Encoder)
    (generator : GenState) (word_index : gmap string Z) (args : Args)
    (batch_id : nat) (bs : list batch) (dis : DisState * OptState)
    : option (DisState * OptState) :=
  match bs with
  | [] => Some dis
  | b :: rest =>
      mx ← mixed_batch ev epoch encoder generator word_index args batch_id b;
      steps ev epoch encoder generator word_index args (S batch_id) rest
        (optimizer_step dis mx)
  end.

(** The losses and accuracies metered along these steps. *)
Fixpoint metered (ev : env) (epoch : nat) (encoder : option Encoder)
    (generator : GenState) (word_index : gmap string Z) (args : Args)
    (batch_id : nat) (bs : list batch) (dis : DisState * OptState)
    : list (Q * Q) :=
  match bs with
  | [] => []
  | b :: rest =>
      match mixed_batch ev epoch encoder generator word_index args batch_id b with
      | None => []
      | Some mx =>
          metered_on dis.1 mx ::
          metered ev epoch encoder generator word_index args (S batch_id) rest
            (optimizer_step dis mx)
      end
  end.

(** The discriminator and its optimiser after the steps of the epochs
    [es], each on the batches the loader yields in that epoch. *)
Fixpoint epoch_steps (ev : env) (encoder : option Encoder)
    (generator : GenState) (word_index : gmap string Z) (args : Args)
    (es : list nat) (dis : DisState * OptState)
    : option (DisState * OptState) :=
  match es with
  | [] => Some dis
  | e :: rest =>
      dis' ← steps ev e encoder generator word_index args 0 (batches_of ev e) dis;
      epoch_steps ev encoder generator word_index args rest dis'
  end.

(** The number of print intervals of a run: those of every epoch. *)
Definition run_print_intervals (ev : env) (args : Args) : nat :=
  sum_list ((fun e => length (print_intervals (print_freq args)
                                (length (batches_of ev e))))
              <$> range (epochs args)).

(** What a piece of the run may do to the metrics record: every row it
    writes goes to [stats_path], the rows already in that file stay and
    the new ones follow them in order; with stats saving off it writes no
    row and leaves the file as it is. *)
Definition stats_step (args : Args) (s : gmap string file) (tr : list event)
    (s' : gmap string file) : Prop :=
  Forall (fun p => p = stats_path args) (row_paths tr) /\
  rows_at s' (stats_path args) = rows_at s (stats_path args) ++ rows tr /\
  (save_stats args = false ->
   rows tr = [] /\ s' !! stats_path args = s !! stats_path args).

End MoreObservations.

(** ** Further explicit inputs *)

Module ExtraInputs.
Import Toy.

(** No vocabulary file. *)
Definition env_no_vocabulary : env := {|
vocabulary := None;
batches_of := fun _ => [batch0];
randperm_of := fun _ _ n => rev (seq 0 n);
elapsed_of := fun _ _ => (1 # 4)%Q;
dir_exists := fun _ => true;
|}.

(** A loader that yields no batch. *)
Definition env_empty : env := {|
vocabulary := Some ∅;
batches_of := fun _ => [];
randperm_of := fun _ _ n => rev (seq 0 n);
elapsed_of := fun _ _ => (1 # 4)%Q;
dir_exists := fun _ => true;
|}.

(** A loader that yields no batch, on a storage without directories. *)
Definition env_empty_no_dirs : env := {|
vocabulary := Some ∅;
batches_of := fun _ => [];
randperm_of := fun _ _ n => rev (seq 0 n);
elapsed_of := fun _ _ => (1 # 4)%Q;
dir_exists := fun _ => false;
|}.

(** [args0] with a print frequency of 0. *)
Definition args_print_freq_0 : Args := {|
epochs := 2;
print_freq := 0;
sampling_method := "multinomial";
cnn_architecture := "resnet152";
max_len := 20;
storage := ".";
dataset := "flickr8k";
gen_checkpoint_filename := "mle_gen_resnet152_5.pth";
dis_checkpoint_filename := "";
use_image_features := true;
save_model := true;
save_stats := true;
|}.

(** A generator checkpoint holding the state 5. *)
Definition gen_checkpoint_file : file :=
{| pickled := Some (<["gen_state_dict" := OGen (MD := models) 5]> ∅);
   appended := [] |}.

(** A discriminator checkpoint under the two keys the start-up reads. *)
Definition dis_checkpoint_file : file :=
{| pickled := Some (<["dis_state_dict" := ODis (MD := models) 7]>
                      (<["dis_optimizer_state_dict" := OOpt (MD := models) 8]> ∅));
   appended := [] |}.

(** The arguments of a run that resumes the discriminator from [dis.pth]. *)
Definition args_resume : Args := with_dis_checkpoint args0 "dis.pth".

(** The files of a run that finds both checkpoints. *)
Definition files_with_checkpoints : gmap string file :=
<[gen_checkpoint_path args_resume := gen_checkpoint_file]>
  (<[dis_checkpoint_path args_resume := dis_checkpoint_file]> ∅).

(** The loop state after the two batches of an epoch of [env1]. *)
Definition state_after_two : @loop_state models :=
{| discriminator := 3; dis_optimizer := 2;
   losses := AverageMeter.feed AverageMeter.init [1; 2]%Q;
   acc := AverageMeter.feed AverageMeter.init [1 # 8; 2 # 8]%Q |}.

End ExtraInputs.

(** ** Equations of the monad and of the file operations *)

Section Laws.
Context `{MD : Models}.

Lemma after_nil {A} (r : run A) : after [] r = r.
Proof. by destruct r. Qed.

Lemma bind_unfold {A B} (m : M A) (k : A -> M B) s :
  bind m k s =
  match res (m s) with
  | Ok a => after (trace (m s)) (k a (fs (m s)))
  | Raise e => {| res := Raise e; fs := fs (m s); trace := trace (m s) |}
  end.
Proof. reflexivity. Qed.

Lemma bind_ret {A B} (a : A) (k : A -> M B) s : bind (ret a) k s = k a s.
Proof. rewrite bind_unfold. simpl. apply after_nil. Qed.

Lemma bind_raise {A B} (e : exn) (k : A -> M B) :
  bind (raise e) k = raise e.
Proof. reflexivity. Qed.

Lemma bind_assoc {A B C} (m : M A) (k : A -> M B) (h : B -> M C) s :
  bind (bind m k) h s = bind m (fun a => bind (k a) h) s.
Proof.
  rewrite !bind_unfold. destruct (res (m s)) as [a|e]; simpl; [|done].
  rewrite !bind_unfold. destruct (res (k a (fs (m s)))); simpl; [|done].
  unfold after. simpl. by rewrite app_assoc.
Qed.

Lemma bind_emit {B} (ev : event) (k : unit -> M B) s :
  bind (emit ev) k s = after [ev] (k tt s).
Proof. reflexivity. Qed.

Lemma bind_or_raise_Some {A B} (o : option A) (a : A) e (k : A -> M B) s :
  o = Some a -> bind (or_raise o e) k s = k a s.
Proof. intros ->. apply bind_ret. Qed.

Lemma bind_or_raise_None {A B} (o : option A) e (k : A -> M B) :
  o = None -> bind (or_raise o e) k = raise e.
Proof. by intros ->. Qed.

Lemma bind_isfile {B} (p : string) (k : bool -> M B) s :
  bind (isfile p) k s = k (bool_decide (is_Some (s !! p))) s.
Proof. rewrite bind_unfold. simpl. apply after_nil. Qed.

Lemma bind_torch_load {B} (p : string) (k : gmap string obj -> M B) s f d :
  s !! p = Some f -> pickled f = Some d ->
  bind (torch_load p) k s = after [EvLoad p] (k d s).
Proof.
  intros Hf Hd. rewrite bind_unfold. unfold torch_load. simpl.
  by rewrite Hf, Hd.
Qed.

Lemma bind_getitem_Some {B} (d : gmap string obj) key o (k : obj -> M B) s :
  d !! key = Some o -> bind (getitem d key) k s = k o s.
Proof. intros H. unfold getitem. by apply bind_or_raise_Some. Qed.

Lemma bind_getitem_None {B} (d : gmap string obj) key (k : obj -> M B) :
  d !! key = None -> bind (getitem d key) k = raise (KeyError key).
Proof. intros H. unfold getitem. by apply bind_or_raise_None. Qed.

Lemma res_after {A} tr (r : run A) : res (after tr r) = res r.
Proof. reflexivity. Qed.
Lemma fs_after {A} tr (r : run A) : fs (after tr r) = fs r.
Proof. reflexivity. Qed.
Lemma trace_after {A} tr (r : run A) : trace (after tr r) = tr ++ trace r.
Proof. reflexivity. Qed.

(** The three components of a sequenced computation. *)
Lemma res_bind {A B} (m : M A) (k : A -> M B) s :
  res (bind m k s) =
  match res (m s) with
  | Ok a => res (k a (fs (m s)))
  | Raise e => Raise e
  end.
Proof. rewrite bind_unfold. by destruct (res (m s)). Qed.

Lemma trace_bind {A B} (m : M A) (k : A -> M B) s :
  trace (bind m k s) =
  trace (m s) ++ match res (m s) with
                 | Ok a => trace (k a (fs (m s)))
                 | Raise e => []
                 end.
Proof.
  rewrite bind_unfold. destruct (res (m s)); simpl; [done|].
  by rewrite app_nil_r.
Qed.

Lemma fs_bind {A B} (m : M A) (k : A -> M B) s :
  fs (bind m k s) =
  match res (m s) with
  | Ok a => fs (k a (fs (m s)))
  | Raise e => fs (m s)
  end.
Proof. rewrite bind_unfold. by destruct (res (m s)). Qed.

End Laws.

(** ** Observations on traces and batches *)

(** ** Indexing by a list of positions *)

Section Gather.
Context {A : Type}.
Implicit Types (t g : list A) (indices : list nat).

Lemma gather_length t indices g :
  gather t indices = Some g -> length g = length indices.
Proof.
  unfold gather. intros H. apply mapM_Some_1 in H.
  symmetry. eapply Forall2_length, H.
Qed.

Lemma gather_lookup t indices g i j :
  gather t indices = Some g -> indices !! i = Some j ->
  g !! i = t !! j /\ is_Some (t !! j).
Proof.
  unfold gather. intros H Hi.
  apply mapM_Some_1 in H.
  destruct (Forall2_lookup_l _ _ _ _ _ H Hi) as (x & Hx & Htj).
  rewrite Hx, Htj. eauto.
Qed.

Lemma gather_identity t : gather t (seq 0 (length t)) = Some t.
Proof.
  unfold gather. apply mapM_Some_2.
  apply Forall2_same_length_lookup_2.
  - by rewrite length_seq.
  - intros i j x Hj Hx. apply lookup_seq in Hj as [-> _]. done.
Qed.

Lemma gather_Permutation t indices indices' g :
  Permutation indices indices' -> gather t indices = Some g ->
  exists g', gather t indices' = Some g' /\ Permutation g g'.
Proof.
  unfold gather. intros HP. revert g.
  induction HP as [|x l l' HP IH|x y l|l l' l'' HP1 IH1 HP2 IH2]; intros g Hg.
  - exists g. split; [done|]. simpl in Hg. by inversion Hg.
  - rewrite mapM_Some in Hg. inversion Hg as [|? a ? k Hx Hl]; subst.
    apply mapM_Some in Hl. destruct (IH _ Hl) as (k' & Hk' & HPk).
    exists (a :: k'). split.
    + apply mapM_Some. constructor; [done|]. by apply mapM_Some.
    + by constructor.
  - rewrite mapM_Some in Hg.
    inversion Hg as [|? a ? k Hy Hl]; subst.
    inversion Hl as [|? b ? k' Hx Hl']; subst.
    exists (b :: a :: k'). split.
    + apply mapM_Some. by repeat constructor.
    + apply perm_swap.
  - destruct (IH1 _ Hg) as (g1 & Hg1 & HPg1).
    destruct (IH2 _ Hg1) as (g2 & Hg2 & HPg2).
    exists g2. split; [done|]. by etrans.
Qed.

(** A permutation of all positions reads every entry exactly once. *)
Lemma gather_randperm t indices :
  Permutation indices (seq 0 (length t)) ->
  exists g, gather t indices = Some g /\ Permutation g t.
Proof.
  intros HP.
  destruct (gather_Permutation t _ indices t (Permutation_sym HP)
              (gather_identity t)) as (g & Hg & HPg).
  exists g. split; [done|]. by symmetry.
Qed.

End Gather.

Lemma count_label_Permutation x l l' :
  Permutation l l' -> count_label x l = count_label x l'.
Proof.
  unfold count_label. intros HP.
  induction HP; simpl; try done.
  - destruct (Qeq_bool x0 x); simpl; congruence.
  - destruct (Qeq_bool x0 x), (Qeq_bool y x); simpl; congruence.
  - congruence.
Qed.

Lemma count_label_app x l l' :
  count_label x (l ++ l') = (count_label x l + count_label x l')%nat.
Proof. unfold count_label. by rewrite List.filter_app, length_app. Qed.

Lemma count_label_repeat x y n :
  count_label x (repeat y n) = if Qeq_bool y x then n else O.
Proof.
  unfold count_label. induction n as [|n IH]; simpl.
  - by destruct (Qeq_bool y x).
  - destruct (Qeq_bool y x); simpl; congruence.
Qed.

(** ** Label Mixer *)

Section LabelMixer.
Context `{MD : Models}.
Implicit Types (imgs : list Image) (caps fake_caps : list caption)
  (cap_lens fake_cap_lens : list Z) (indices : list nat).

Lemma targets_of_length caps : length (targets_of caps) = (length caps * 2)%nat.
Proof. unfold targets_of. rewrite length_app, !repeat_length. lia. Qed.

Lemma concat_batches_lengths imgs caps cap_lens fake_caps fake_cap_lens :
  same_batch_size imgs caps cap_lens fake_caps fake_cap_lens ->
  let pre := concat_batches imgs caps cap_lens fake_caps fake_cap_lens in
  length (m_imgs pre) = (length caps * 2)%nat /\
  length (m_inputs pre) = (length caps * 2)%nat /\
  length (m_input_lens pre) = (length caps * 2)%nat /\
  length (m_targets pre) = (length caps * 2)%nat.
Proof.
  intros (Hi & Hl & Hf & Hfl). simpl.
  rewrite !length_app, targets_of_length. lia.
Qed.

Lemma permute_Some indices (pre mx : mixed) :
  permute indices pre = Some mx <->
  gather (m_imgs pre) indices = Some (m_imgs mx) /\
  gather (m_inputs pre) indices = Some (m_inputs mx) /\
  gather (m_input_lens pre) indices = Some (m_input_lens mx) /\
  gather (m_targets pre) indices = Some (m_targets mx).
Proof.
  unfold permute. split.
  - intros H.
    destruct (gather (m_imgs pre) indices) as [gi|]; [|done].
    destruct (gather (m_inputs pre) indices) as [gc|]; [|done].
    destruct (gather (m_input_lens pre) indices) as [gl|]; [|done].
    destruct (gather (m_targets pre) indices) as [gt|]; [|done].
    simpl in H. by inversion H.
  - intros (-> & -> & -> & ->). simpl. by destruct mx.
Qed.

(** With a permutation of all [2N] positions no index is out of range. *)
Lemma permute_randperm imgs caps cap_lens fake_caps fake_cap_lens indices :
  same_batch_size imgs caps cap_lens fake_caps fake_cap_lens ->
  Permutation indices (seq 0 (length caps * 2)) ->
  exists mx,
    permute indices (concat_batches imgs caps cap_lens fake_caps fake_cap_lens)
      = Some mx /\
    Permutation (m_targets mx) (targets_of caps).
Proof.
  intros Hsz HP.
  destruct (concat_batches_lengths _ _ _ _ _ Hsz) as (Li & Lc & Ll & Lt).
  set (pre := concat_batches imgs caps cap_lens fake_caps fake_cap_lens) in *.
  destruct (gather_randperm (m_imgs pre) indices) as (gi & Hgi & _);
    [by rewrite Li|].
  destruct (gather_randperm (m_inputs pre) indices) as (gc & Hgc & _);
    [by rewrite Lc|].
  destruct (gather_randperm (m_input_lens pre) indices) as (gl & Hgl & _);
    [by rewrite Ll|].
  destruct (gather_randperm (m_targets pre) indices) as (gt & Hgt & HPt);
    [by rewrite Lt|].
  exists {| m_imgs := gi; m_inputs := gc; m_input_lens := gl; m_targets := gt |}.
  split; [by apply permute_Some|done].
Qed.

Lemma lookup_repeat_lt {A} (x : A) (n i : nat) :
  (i < n)%nat -> repeat x n !! i = Some x.
Proof.
  revert i. induction n as [|n IH]; intros [|i] Hi; simpl; try lia; [done|].
  apply IH. lia.
Qed.

(** The label the concatenated batch holds at position [j]: 1 in the
    real half, 0 in the fake half. *)
Lemma targets_of_lookup caps (j : nat) :
  (j < length caps * 2)%nat ->
  targets_of caps !! j = Some (if (j <? length caps)%nat then 1%Q else 0%Q).
Proof.
  intros Hj. unfold targets_of.
  destruct (Nat.ltb_spec j (length caps)) as [Hlt|Hge].
  - rewrite lookup_app_l by (by rewrite repeat_length).
    by apply lookup_repeat_lt.
  - rewrite lookup_app_r by (by rewrite repeat_length).
    rewrite repeat_length. apply lookup_repeat_lt. lia.
Qed.

(** C4.  For a real batch of N examples and its N sampled captions, the
    concatenated batch holds the N real captions followed by the N
    sampled ones (with their lengths, and the images twice), the label
    vector built before the permutation is N ones followed by N zeros,
    so that position [i] of the real half carries the real caption [i]
    with label 1 and position [N + i] the sampled caption [i] with label
    0; the mixed batch has 2N entries, and whatever permutation of the 2N
    positions is drawn, the permuted labels are still N ones and N zeros:
    the output position that reads position [j] holds label 1 and a real
    caption when [j < N], label 0 and a sampled caption otherwise. *)
Theorem label_mixer_counts imgs caps cap_lens fake_caps fake_cap_lens indices :
  same_batch_size imgs caps cap_lens fake_caps fake_cap_lens ->
  Permutation indices (seq 0 (length caps * 2)) ->
  let N := length caps in
  let pre := concat_batches imgs caps cap_lens fake_caps fake_cap_lens in
  m_inputs pre = caps ++ fake_caps /\
  m_input_lens pre = cap_lens ++ fake_cap_lens /\
  m_imgs pre = imgs ++ imgs /\
  m_targets pre = repeat 1%Q N ++ repeat 0%Q N /\
  (forall i, (i < N)%nat ->
     m_inputs pre !! i = caps !! i /\ m_targets pre !! i = Some 1%Q /\
     m_inputs pre !! (N + i)%nat = fake_caps !! i /\
     m_targets pre !! (N + i)%nat = Some 0%Q) /\
  length (m_inputs pre) = (2 * N)%nat /\
  length (m_targets pre) = (2 * N)%nat /\
  exists mx,
    permute indices pre = Some mx /\
    length (m_inputs mx) = (2 * N)%nat /\
    length (m_targets mx) = (2 * N)%nat /\
    Permutation (m_targets mx) (repeat 1%Q N ++ repeat 0%Q N) /\
    count_label 1 (m_targets mx) = N /\
    count_label 0 (m_targets mx) = N /\
    (forall i j, indices !! i = Some j ->
       m_targets mx !! i = Some (if (j <? N)%nat then 1%Q else 0%Q) /\
       m_inputs mx !! i
         = (if (j <? N)%nat then caps !! j else fake_caps !! (j - N)%nat)).
Proof.
  intros Hsz HP N pre.
  destruct (concat_batches_lengths _ _ _ _ _ Hsz) as (_ & Lc & _ & Lt).
  fold pre in Lc, Lt. fold N in Lc, Lt.
  split; [done|]. split; [done|]. split; [done|]. split; [done|].
  split.
  { intros i Hi. simpl. fold N.
    rewrite lookup_app_l by (fold N; lia).
    rewrite lookup_app_r by (fold N; lia).
    rewrite (targets_of_lookup caps i) by (fold N; lia).
    rewrite (targets_of_lookup caps (N + i)) by (fold N; lia). fold N.
    replace (N + i - N)%nat with i by lia.
    destruct (Nat.ltb_spec i N); [|lia].
    destruct (Nat.ltb_spec (N + i) N); [lia|]. done. }
  split; [lia|]. split; [lia|].
  destruct (permute_randperm _ _ _ _ _ _ Hsz HP) as (mx & Hmx & HPt).
  fold pre in Hmx. exists mx. split; [done|].
  pose proof Hmx as Hg. apply permute_Some in Hg as (_ & Hgc & _ & Hgt).
  pose proof (gather_length _ _ _ Hgc) as Hlc.
  pose proof (gather_length _ _ _ Hgt) as Hlt.
  assert (length indices = (2 * N)%nat) as Hlen.
  { rewrite (Permutation_length HP), length_seq. unfold N. lia. }
  split; [lia|]. split; [lia|]. split; [done|].
  rewrite !(count_label_Permutation _ _ _ HPt). unfold targets_of. fold N.
  rewrite !count_label_app, !count_label_repeat. simpl.
  split; [lia|]. split; [lia|].
  intros i j Hj.
  assert (j < N * 2)%nat as Hjlt.
  { assert (j ∈ seq 0 (length caps * 2)) as Hin.
    { rewrite <- HP. eapply list_elem_of_lookup_2, Hj. }
    apply elem_of_seq in Hin. unfold N. lia. }
  destruct (gather_lookup _ _ _ _ _ Hgt Hj) as (Et & _).
  destruct (gather_lookup _ _ _ _ _ Hgc Hj) as (Ec & _).
  rewrite Et, Ec. simpl.
  rewrite (targets_of_lookup caps j) by (fold N; lia). fold N.
  split; [done|].
  destruct (Nat.ltb_spec j N) as [Hlt'|Hge].
  - by rewrite lookup_app_l by (fold N; lia).
  - by rewrite lookup_app_r by (fold N; lia).
Qed.

(** C5.  One permutation serves the four tensors: with a permutation of
    the 2N positions the indexing succeeds, and at every output position
    [i] the image, the caption, the length and the label are those the
    concatenated batch holds at one and the same position, [indices[i]]. *)
Theorem label_mixer_association imgs caps cap_lens fake_caps fake_cap_lens indices :
  same_batch_size imgs caps cap_lens fake_caps fake_cap_lens ->
  Permutation indices (seq 0 (length caps * 2)) ->
  let pre := concat_batches imgs caps cap_lens fake_caps fake_cap_lens in
  exists mx,
    permute indices pre = Some mx /\
    forall i, (i < length caps * 2)%nat ->
      exists j img cap len lab,
        indices !! i = Some j /\ (j < length caps * 2)%nat /\
        m_imgs pre !! j = Some img /\ m_imgs mx !! i = Some img /\
        m_inputs pre !! j = Some cap /\ m_inputs mx !! i = Some cap /\
        m_input_lens pre !! j = Some len /\ m_input_lens mx !! i = Some len /\
        m_targets pre !! j = Some lab /\ m_targets mx !! i = Some lab.
Proof.
  intros Hsz HP pre.
  destruct (permute_randperm _ _ _ _ _ _ Hsz HP) as (mx & Hmx & _).
  fold pre in Hmx. exists mx. split; [done|].
  apply permute_Some in Hmx as (Hgi & Hgc & Hgl & Hgt).
  intros i Hi.
  assert (length indices = (length caps * 2)%nat) as Hlen
    by (by rewrite (Permutation_length HP), length_seq).
  destruct (lookup_lt_is_Some_2 indices i) as [j Hj]; [lia|].
  assert (j < length caps * 2)%nat as Hjlt.
  { assert (j ∈ seq 0 (length caps * 2)) as Hin.
    { rewrite <- HP. eapply list_elem_of_lookup_2, Hj. }
    apply elem_of_seq in Hin. lia. }
  destruct (gather_lookup _ _ _ _ _ Hgi Hj) as (Ei & [img Himg]).
  destruct (gather_lookup _ _ _ _ _ Hgc Hj) as (Ec & [cap Hcap]).
  destruct (gather_lookup _ _ _ _ _ Hgl Hj) as (El & [len Hl]).
  destruct (gather_lookup _ _ _ _ _ Hgt Hj) as (Et & [lab Hlab]).
  exists j, img, cap, len, lab.
  rewrite Ei, Ec, El, Et. by repeat split.
Qed.

End LabelMixer.

(** ** Batch Sampler *)

Lemma fold_left_max_spec (r : list Z) (x : Z) :
  let m := fold_left Z.max r x in
  m ∈ x :: r /\ x <= m /\ Forall (fun y => y <= m) r.
Proof.
  revert x. induction r as [|y r IH]; intros x; simpl.
  - split; [left|]. split; [lia|constructor].
  - destruct (IH (Z.max x y)) as (Hin & Hle & Hall).
    split; [|split; [lia|constructor; [lia|done]]].
    apply elem_of_cons in Hin as [Heq|Hin].
    + rewrite Heq. destruct (Z.max_spec x y) as [[_ ->]|[_ ->]].
      * right. left.
      * left.
    + right. by right.
Qed.

Lemma tensor_max_spec (t : list Z) (m : Z) :
  tensor_max t = Some m -> m ∈ t /\ Forall (fun y => y <= m) t.
Proof.
  destruct t as [|x r]; simpl; [done|].
  intros [= <-]. destruct (fold_left_max_spec r x) as (Hin & Hle & Hall).
  split; [done|]. by constructor.
Qed.

Lemma tensor_max_is_Some (t : list Z) : t ≠ [] -> is_Some (tensor_max t).
Proof. destruct t; [done|]. simpl. eauto. Qed.

Lemma column0_is_Some (caps : list caption) :
  Forall (fun row => row ≠ []) caps -> is_Some (column0 caps).
Proof.
  intros H. unfold column0. apply mapM_is_Some.
  eapply Forall_impl; [exact H|]. intros [|w row] Hrow; [done|]. simpl. eauto.
Qed.

Section BatchSampler.
Context `{MD : Models}.

(** C6.  On a batch with at least one example whose caption rows are
    not empty, [sample_from_start] calls the generator once, with target
    length max(longest real caption, configured max-length) - 1, with the
    first token of each real caption as input word and with the images it
    was given; the padded output of that call is what it returns. *)
Theorem batch_sampler_call (imgs : list Image) (caps : list caption)
    (cap_lens : list Z) (generator : GenState) (word_index : gmap string Z)
    (args : Args) (s : gmap string file) :
  cap_lens ≠ [] ->
  Forall (fun row => row ≠ []) caps ->
  exists longest call,
    longest ∈ cap_lens /\ Forall (fun n => n <= longest) cap_lens /\
    trace (sample_from_start imgs caps cap_lens generator word_index args s)
      = [EvSample call] /\
    res (sample_from_start imgs caps cap_lens generator word_index args s)
      = Ok (pad_generated_captions (generator_sample generator call) word_index) /\
    cap_len call = Z.max longest (max_len args) - 1 /\
    Forall2 (fun row w => head row = Some w) caps (input_word call) /\
    length (input_word call) = length caps /\
    img_feats call = imgs /\
    call_sampling_method call = sampling_method args.
Proof.
  intros Hne Hrows.
  destruct (tensor_max_is_Some _ Hne) as [longest Hmax].
  destruct (column0_is_Some _ Hrows) as [ws Hws].
  destruct (tensor_max_spec _ _ Hmax) as (Hin & Hall).
  eexists longest, _. split; [done|]. split; [done|].
  unfold sample_from_start, sample_args, bind, or_raise.
  rewrite Hmax, Hws. simpl.
  split; [reflexivity|]. split; [reflexivity|]. split; [reflexivity|].
  pose proof (mapM_Some_1 _ _ _ Hws) as HF.
  split; [done|]. split; [|done].
  symmetry. eapply Forall2_length, HF.
Qed.

End BatchSampler.

(** ** Checkpoint Store: saving, then loading what was saved *)

Section CheckpointStore.
Context `{MD : Models}.

Lemma checkpoint_dict_keys (d : DisState) (o : OptState) :
  checkpoint_dict d o !! "dis_state_dict" = Some (ODis d) /\
  checkpoint_dict d o !! "optimizer_state_dict" = Some (OOpt o) /\
  checkpoint_dict d o !! "dis_optimizer_state_dict" = None.
Proof.
  unfold checkpoint_dict. split; [|split].
  - by rewrite lookup_insert_eq.
  - rewrite lookup_insert_ne by done. by rewrite lookup_insert_eq.
  - rewrite !lookup_insert_ne by done. apply lookup_empty.
Qed.

(** C1.  The checkpoint an epoch boundary writes cannot be read back by
    the start-up load.  Where the checkpoint file can be written (it is
    there already, or its directory exists) the save succeeds, the file
    holds the optimiser state under ['optimizer_state_dict'], the load
    asks for ['dis_optimizer_state_dict'] and stops with a [KeyError],
    whatever the saved states are.  Where it cannot be written the save
    itself raises and leaves the files as they were. *)
Theorem checkpoint_roundtrip_key_error (ev : env) (args : Args) (e : nat)
    (d d0 : DisState) (o o0 : OptState) (s : gmap string file) :
  let r := save_checkpoint ev args e d o s in
  let saved := fs r in
  let args' := with_dis_checkpoint args (saved_filename args e) in
  dis_checkpoint_path args' = save_path args e /\
  (can_write ev s (save_path args e) = false ->
   res r = Raise (SaveError (save_path args e)) /\ saved = s /\ trace r = []) /\
  (can_write ev s (save_path args e) = true ->
   res r = Ok tt /\
   (exists dict, saved !! save_path args e
                   = Some {| pickled := Some dict; appended := [] |} /\
                 dict !! "dis_state_dict" = Some (ODis d) /\
                 dict !! "optimizer_state_dict" = Some (OOpt o)) /\
   res (load_discriminator args' d0 o0 saved)
     = Raise (KeyError "dis_optimizer_state_dict")).
Proof.
  intros r saved args'.
  destruct (checkpoint_dict_keys d o) as (Kd & Ko & Kmiss).
  assert (dis_checkpoint_path args' = save_path args e) as Hpath by reflexivity.
  split; [done|]. split.
  { intros Hw. unfold saved, r, save_checkpoint, torch_save. by rewrite Hw. }
  intros Hw.
  assert (res r = Ok tt) as Hres
    by (unfold r, save_checkpoint, torch_save; by rewrite Hw).
  assert (saved !! save_path args e
          = Some {| pickled := Some (checkpoint_dict d o); appended := [] |})
    as Hfile by (unfold saved, r, save_checkpoint, torch_save; rewrite Hw; simpl;
                 apply lookup_insert_eq).
  split; [done|]. split; [eauto|].
  unfold load_discriminator. rewrite bind_isfile, Hpath, Hfile.
  rewrite bool_decide_eq_true_2 by eauto.
  rewrite (bind_torch_load _ _ _ _ _ Hfile eq_refl), res_after.
  rewrite (bind_getitem_Some _ _ _ _ _ Kd).
  unfold discriminator_load_state_dict. rewrite bind_ret.
  by rewrite (bind_getitem_None _ _ _ Kmiss).
Qed.

End CheckpointStore.

(** ** Metrics Recorder: the periodic report *)

Section Report.
Context `{MD : Models}.

Lemma report_off_interval ev epoch batch_id elapsed losses acc args s :
  print_freq args ≠ 0 ->
  Z.of_nat batch_id mod print_freq args ≠ 0 ->
  report ev epoch batch_id elapsed losses acc args s = ret tt s.
Proof.
  intros Hpf Hmod. unfold report.
  destruct (Z.eqb_spec (print_freq args) 0); [done|].
  by destruct (Z.eqb_spec (Z.of_nat batch_id mod print_freq args) 0).
Qed.

(** C3, as the script has it.  At a print interval the log line carries
    epoch, batch index, time for the batch, running then current loss,
    running then current accuracy.  With stats saving on and a metrics
    file that can be opened, the row appended to the CSV file has no
    time field: it starts with epoch, batch index, running loss, current
    loss and holds the log line's fields other than the time.  With
    stats saving on and no directory for the metrics file, the log line
    is written and the [open] raises [FileNotFoundError]; no row is
    written. *)
Theorem report_at_print_interval ev epoch batch_id elapsed losses acc args s :
  print_freq args ≠ 0 ->
  Z.of_nat batch_id mod print_freq args = 0 ->
  let r := report ev epoch batch_id elapsed losses acc args s in
  let log := [CInt (Z.of_nat epoch); CInt (Z.of_nat batch_id); CNum elapsed;
              CNum (AverageMeter.avg losses); CNum (AverageMeter.val losses);
              CNum (AverageMeter.avg acc); CNum (AverageMeter.val acc)] in
  if save_stats args then
    if can_write ev s (stats_path args) then
      res r = Ok tt /\
      exists row f,
        trace r = [EvInfo log; EvRow (stats_path args) row] /\
        take 4 row = [CInt (Z.of_nat epoch); CInt (Z.of_nat batch_id);
                      CNum (AverageMeter.avg losses);
                      CNum (AverageMeter.val losses)] /\
        Permutation row (take 2 log ++ drop 3 log) /\
        fs r !! stats_path args = Some f /\ last (appended f) = Some row
    else
      res r = Raise (FileNotFoundError (stats_path args)) /\
      trace r = [EvInfo log] /\ fs r = s
  else res r = Ok tt /\ trace r = [EvInfo log] /\ fs r = s.
Proof.
  intros Hpf Hmod r log. unfold r, report.
  destruct (Z.eqb_spec (print_freq args) 0); [done|].
  destruct (Z.eqb_spec (Z.of_nat batch_id mod print_freq args) 0); [|done].
  unfold bind, emit, append_row, ret. simpl.
  destruct (save_stats args); simpl; [|done].
  destruct (can_write ev s (stats_path args)); simpl; [|done].
  split; [done|].
  eexists _, _. split; [reflexivity|]. split; [reflexivity|].
  split; [|split; [apply lookup_insert_eq|]].
  - unfold stats_row. simpl. do 4 constructor. apply perm_swap.
  - destruct (s !! stats_path args) as [f|]; simpl; [|done].
    apply last_snoc.
Qed.

End Report.

(** ** What one batch and one report can do *)

Section Batch.
Context `{MD : Models}.

Lemma report_cases ev epoch batch_id elapsed losses acc args s :
  let r := report ev epoch batch_id elapsed losses acc args s in
  (res r = Raise ZeroDivisionError /\ trace r = [] /\ fs r = s /\
   print_freq args = 0) \/
  (res r = Ok tt /\ trace r = [] /\ fs r = s) \/
  (res r = Ok tt /\ save_stats args = false /\ fs r = s /\
   trace r = [EvInfo (info_fields epoch batch_id elapsed losses acc)]) \/
  (res r = Ok tt /\ save_stats args = true /\
   can_write ev s (stats_path args) = true /\
   trace r = [EvInfo (info_fields epoch batch_id elapsed losses acc);
              EvRow (stats_path args) (stats_row epoch batch_id losses acc)]) \/
  (res r = Raise (FileNotFoundError (stats_path args)) /\
   save_stats args = true /\ can_write ev s (stats_path args) = false /\
   fs r = s /\
   trace r = [EvInfo (info_fields epoch batch_id elapsed losses acc)]).
Proof.
  intros r. unfold r, report.
  destruct (Z.eqb_spec (print_freq args) 0); [by left|].
  destruct (Z.eqb_spec (Z.of_nat batch_id mod print_freq args) 0);
    [|by right; left].
  rewrite bind_emit. destruct (save_stats args).
  - unfold append_row.
    destruct (can_write ev s (stats_path args)) eqn:Hw.
    + right; right; right; left. by repeat split.
    + right; right; right; right. by repeat split.
  - right; right; left. by repeat split.
Qed.

Lemma sample_from_start_cases imgs caps cap_lens generator word_index args s :
  let r := sample_from_start imgs caps cap_lens generator word_index args s in
  fs r = s /\
  ((exists e, res r = Raise e /\ trace r = [] /\
              (e = EmptyTensorError \/ e = IndexError)) \/
   (exists call, res r = Ok (pad_generated_captions
                               (generator_sample generator call) word_index) /\
                 trace r = [EvSample call])).
Proof.
  intros r. unfold r, sample_from_start, sample_args.
  destruct (tensor_max cap_lens) as [longest|] eqn:Hmax.
  2:{ cbn [or_raise]. rewrite !bind_raise.
      split; [done|]. left. eexists. eauto. }
  cbn [or_raise]. rewrite bind_assoc, bind_ret.
  destruct (column0 caps) as [ws|] eqn:Hws.
  2:{ cbn [or_raise]. rewrite !bind_raise.
      split; [done|]. left. eexists. eauto. }
  cbn [or_raise]. rewrite bind_assoc, !bind_ret, bind_emit.
  split; [done|]. right. eexists. split; reflexivity.
Qed.

(** One pass through the loop body: it stops early on an exception,
    having produced at most the sampling event, or it samples, updates
    the meters and reports. *)
Lemma train_batch_cases ev epoch encoder generator word_index args batch_id b st s :
  let r := train_batch ev epoch encoder generator word_index args batch_id b st s in
  (exists e tr,
     res r = Raise e /\ trace r = tr /\ fs r = s /\
     (tr = [] \/ exists c, tr = [EvSample c]) /\
     ((e = TypeErrorNone /\ use_image_features args = false /\ encoder = None)
      \/ e = EmptyTensorError \/ e = IndexError)) \/
  (exists c loss accuracy d' o',
     let losses' := AverageMeter.update (losses st) loss in
     let acc' := AverageMeter.update (acc st) accuracy in
     let rep := report ev epoch batch_id (elapsed_of ev epoch batch_id)
                  losses' acc' args s in
     trace r = EvSample c :: EvUpdate loss accuracy :: trace rep /\
     fs r = fs rep /\
     res r = match res rep with
             | Ok _ => Ok {| discriminator := d'; dis_optimizer := o';
                             losses := losses'; acc := acc' |}
             | Raise e => Raise e
             end).
Proof.
  intros r. unfold r, train_batch.
  set (enc := if negb (use_image_features args) then _ else _).
  assert ((exists imgs, enc = ret imgs) \/
          (enc = raise TypeErrorNone /\ use_image_features args = false /\
           encoder = None)) as [[imgs ->]|(-> & Hu & He)].
  { unfold enc. destruct (use_image_features args); simpl; [eauto|].
    destruct encoder; eauto. }
  2:{ left. exists TypeErrorNone, []. rewrite bind_raise. simpl. eauto 10. }
  rewrite bind_ret, bind_unfold.
  destruct (sample_from_start_cases imgs (b_caps b) (b_cap_lens b)
              generator word_index args s)
    as (Hfs & [(e & Hres & Htr & He)|(c & Hres & Htr)]);
    rewrite Hres, Hfs, Htr.
  { left. exists e, []. simpl. eauto 10. }
  set (fake := pad_generated_captions _ _).
  destruct (permute _ _) as [mx|] eqn:Hperm.
  2:{ left. exists IndexError, [EvSample c]. simpl. eauto 10. }
  simpl or_raise. rewrite bind_ret, bind_emit, bind_unfold.
  set (rep := report _ _ _ _ _ _ _ s).
  destruct (res rep) as [[]|e] eqn:Hrep; right;
    [eexists c, _, _, _, _
    |eexists c, _, _, (discriminator st), (dis_optimizer st)];
    cbv zeta;
    (split; [simpl; rewrite ?app_nil_r; reflexivity|]);
    (split; [reflexivity|]); fold rep; rewrite Hrep; reflexivity.
Qed.

End Batch.

(** ** Observations on traces *)

Section TraceLemmas.
Context `{MD : Models}.

Lemma each_after_app P before a b :
  each_after P before (a ++ b) <->
  each_after P before a /\ each_after P (before ++ a) b.
Proof.
  revert before. induction a as [|ev a IH]; intros before; simpl.
  - rewrite app_nil_r. tauto.
  - rewrite IH, <- app_assoc. simpl. tauto.
Qed.

Lemma each_after_split P before tr a ev b :
  each_after P before tr -> tr = a ++ ev :: b -> P (before ++ a) ev.
Proof.
  intros H ->. apply each_after_app in H as [_ H]. simpl in H. tauto.
Qed.

Lemma each_after_Forall (Q : event -> Prop) P before tr :
  Forall Q tr -> (forall pre ev, Q ev -> P pre ev) -> each_after P before tr.
Proof.
  intros HF HQ. revert before.
  induction HF as [|ev tr Hev _ IH]; intros before; simpl; auto.
Qed.

Lemma same_checkpoints_refl s : same_checkpoints s s.
Proof. by intros p. Qed.

Lemma same_checkpoints_trans s1 s2 s3 :
  same_checkpoints s1 s2 -> same_checkpoints s2 s3 -> same_checkpoints s1 s3.
Proof. intros H12 H23 p. by rewrite H23, H12. Qed.

Lemma append_row_same_checkpoints ev p row s :
  same_checkpoints s (fs (append_row ev p row s)).
Proof.
  intros q. unfold checkpoint_at, append_row.
  destruct (can_write ev s p); simpl; [|done].
  destruct (decide (p = q)) as [->|Hne].
  - rewrite lookup_insert_eq. by destruct (s !! q).
  - by rewrite lookup_insert_ne.
Qed.

Lemma report_summary ev epoch batch_id elapsed losses acc args s :
  let r := report ev epoch batch_id elapsed losses acc args s in
  Forall batch_event (trace r) /\ same_checkpoints s (fs r) /\
  (forall e, res r = Raise e ->
     (e = ZeroDivisionError /\ print_freq args = 0) \/
     (e = FileNotFoundError (stats_path args) /\ save_stats args = true)).
Proof.
  intros r.
  destruct (report_cases ev epoch batch_id elapsed losses acc args s)
    as [(Hr & Ht & Hf & Hp)|[(Hr & Ht & Hf)|[(Hr & _ & Hf & Ht)
       |[(Hr & Hs & Hw & Ht)|(Hr & Hs & Hw & Hf & Ht)]]]];
    fold r in Hr, Ht; try fold r in Hf; rewrite Hr, Ht.
  - rewrite Hf. split; [constructor|]. split; [apply same_checkpoints_refl|].
    intros e [= <-]. by left.
  - rewrite Hf. split; [constructor|]. split; [apply same_checkpoints_refl|].
    done.
  - rewrite Hf. split; [by repeat constructor|].
    split; [apply same_checkpoints_refl|done].
  - split; [by repeat constructor|]. split; [|done].
    unfold r, report.
    destruct (Z.eqb_spec (print_freq args) 0); [apply same_checkpoints_refl|].
    destruct (Z.eqb_spec (Z.of_nat batch_id mod print_freq args) 0);
      [|apply same_checkpoints_refl].
    rewrite bind_emit, fs_after, Hs. apply append_row_same_checkpoints.
  - rewrite Hf. split; [by repeat constructor|].
    split; [apply same_checkpoints_refl|]. intros e [= <-]. by right.
Qed.

Lemma train_batch_summary ev epoch encoder generator word_index args batch_id b st s :
  let r := train_batch ev epoch encoder generator word_index args batch_id b st s in
  Forall batch_event (trace r) /\ same_checkpoints s (fs r) /\
  (forall e, res r = Raise e -> batch_exn args encoder e).
Proof.
  intros r.
  destruct (train_batch_cases ev epoch encoder generator word_index args
              batch_id b st s)
    as [(e & tr & Hr & Ht & Hf & Htr & He)
       |(c & loss & accuracy & d' & o' & Ht & Hf & Hr)];
    fold r in Hr, Ht, Hf.
  - rewrite Hr, Ht, Hf. split; [|split; [apply same_checkpoints_refl|]].
    + destruct Htr as [->|[c ->]]; by repeat constructor.
    + intros e' [= <-]. unfold batch_exn. tauto.
  - cbv zeta in *. rewrite Hr, Ht, Hf.
    match goal with |- context [trace ?rep] =>
      destruct (report_summary ev epoch batch_id (elapsed_of ev epoch batch_id)
                  (AverageMeter.update (losses st) loss)
                  (AverageMeter.update (acc st) accuracy) args s)
        as (HF & HS & HE) end.
    split; [by repeat constructor|]. split; [done|].
    intros e He. destruct (res (report _ _ _ _ _ _ _ s)) as [|e'] eqn:Hrep; [done|].
    injection He as <-. unfold batch_exn.
    destruct (HE e' eq_refl) as [(-> & Hp)|(-> & Hp)]; tauto.
Qed.

Lemma train_loop_summary ev epoch encoder generator word_index args bs :
  forall batch_id st s,
  let r := train_loop ev epoch encoder generator word_index args batch_id bs st s in
  Forall batch_event (trace r) /\ same_checkpoints s (fs r) /\
  (forall e, res r = Raise e -> batch_exn args encoder e).
Proof.
  induction bs as [|b bs IH]; intros batch_id st s; simpl.
  - split; [constructor|]. split; [apply same_checkpoints_refl|done].
  - rewrite trace_bind, fs_bind, res_bind.
    destruct (train_batch_summary ev epoch encoder generator word_index args
                batch_id b st s) as (HF & HS & HE).
    destruct (res (train_batch _ _ _ _ _ _ _ _ _ s)) as [st'|e] eqn:Hres.
    + destruct (IH (S batch_id) st'
                  (fs (train_batch ev epoch encoder generator word_index args
                         batch_id b st s))) as (HF' & HS' & HE').
      split; [by apply Forall_app|].
      split; [by eapply same_checkpoints_trans|done].
    + rewrite app_nil_r. split; [done|]. split; [done|].
      intros e' [= <-]. by apply HE.
Qed.

(** The exceptions a call of [train] can end with. *)
Lemma train_summary ev epoch encoder generator d o word_index args s :
  let r := train ev epoch encoder generator d o word_index args s in
  Forall batch_event (trace r) /\ same_checkpoints s (fs r) /\
  (forall e, res r = Raise e ->
     (e = AttributeErrorNone /\ use_image_features args = false /\
      encoder = None) \/ batch_exn args encoder e).
Proof.
  intros r. unfold r, train.
  set (guard := if negb (use_image_features args) then _ else _).
  assert (guard = ret tt \/
          (guard = raise AttributeErrorNone /\
           use_image_features args = false /\ encoder = None))
    as [->|(-> & Hu & He)].
  { unfold guard. destruct (use_image_features args); simpl; [eauto|].
    destruct encoder; eauto. }
  - rewrite bind_ret.
    destruct (train_loop_summary ev epoch encoder generator word_index args
                (batches_of ev epoch) 0%nat
                {| discriminator := d; dis_optimizer := o;
                   losses := AverageMeter.init; acc := AverageMeter.init |} s)
      as (HF & HS & HE).
    split; [done|]. split; [done|]. intros e He. right. by apply HE.
  - rewrite bind_raise. simpl. split; [constructor|].
    split; [apply same_checkpoints_refl|]. intros e [= <-]. by left.
Qed.

End TraceLemmas.

(** ** Start-up and the epoch loop *)

Section Epochs.
Context `{MD : Models}.

Lemma load_generator_absent args generator s :
  s !! gen_checkpoint_path args = None ->
  load_generator args generator s = ret generator s.
Proof.
  intros H. unfold load_generator. rewrite bind_isfile, H.
  rewrite bool_decide_eq_false_2; [done|]. by intros [? ?].
Qed.

Lemma load_discriminator_absent args d o s :
  s !! dis_checkpoint_path args = None ->
  load_discriminator args d o s = ret (d, o) s.
Proof.
  intros H. unfold load_discriminator. rewrite bind_isfile, H.
  rewrite bool_decide_eq_false_2; [done|]. by intros [? ?].
Qed.

Lemma torch_load_then {B} p (k : gmap string obj -> M B) s :
  (forall d s', fs (k d s') = s' /\ trace (k d s') = []) ->
  fs (bind (torch_load p) k s) = s /\ trace (bind (torch_load p) k s) = [EvLoad p].
Proof.
  intros Hk. rewrite fs_bind, trace_bind. unfold torch_load at 1 3 4 5. simpl.
  destruct (s !! p) as [f|]; [|done].
  destruct (pickled f) as [d|]; [|done].
  destruct (Hk d s) as (-> & ->). done.
Qed.

Lemma getitem_then {A B} (d : gmap string obj) key (f : obj -> M A)
    (k : A -> M B) s :
  (forall o s', fs (f o s') = s' /\ trace (f o s') = []) ->
  (forall a s', fs (k a s') = s' /\ trace (k a s') = []) ->
  fs (bind (getitem d key) (fun o => bind (f o) k) s) = s /\
  trace (bind (getitem d key) (fun o => bind (f o) k) s) = [].
Proof.
  intros Hf Hk. unfold getitem. destruct (d !! key) as [o|]; cbn [or_raise].
  - rewrite bind_ret, fs_bind, trace_bind.
    destruct (Hf o s) as (Hfs & ->). rewrite Hfs.
    destruct (res (f o s)) as [a|]; [|done]. apply Hk.
  - by rewrite bind_raise.
Qed.

Lemma load_generator_summary args generator s :
  let r := load_generator args generator s in
  fs r = s /\
  (trace r = [] \/
   (trace r = [EvLoad (gen_checkpoint_path args)] /\
    is_Some (s !! gen_checkpoint_path args))).
Proof.
  intros r. unfold r, load_generator. rewrite bind_isfile.
  case_bool_decide as Hfile; [|by split; [|left]].
  match goal with |- context [bind (torch_load ?p) ?k s] =>
    destruct (torch_load_then p k s) as (-> & ->) end.
  - intros d s'. unfold getitem.
    destruct (d !! "gen_state_dict") as [o|]; cbn [or_raise].
    + rewrite bind_ret. by destruct o.
    + by rewrite bind_raise.
  - split; [done|]. by right.
Qed.

Lemma load_discriminator_summary args d o s :
  let r := load_discriminator args d o s in
  fs r = s /\
  (trace r = [] \/
   (trace r = [EvLoad (dis_checkpoint_path args)] /\
    is_Some (s !! dis_checkpoint_path args))).
Proof.
  intros r. unfold r, load_discriminator. rewrite bind_isfile.
  case_bool_decide as Hfile; [|by split; [|left]].
  match goal with |- context [bind (torch_load ?p) ?k s] =>
    destruct (torch_load_then p k s) as (-> & ->) end.
  - intros dict s'. apply getitem_then.
    + intros od s''. by destruct od.
    + intros d' s''. apply (getitem_then dict "dis_optimizer_state_dict"
                               optimizer_load_state_dict
                               (fun o' => ret (d', o'))).
      * intros oo s3. by destruct oo.
      * done.
  - split; [done|]. by right.
Qed.

(** Start-up leaves the files as they are and loads each of the two
    checkpoints at most once, the generator's first, and only from a
    path where a file exists. *)
Lemma startup_summary ev args s :
  let r := startup ev args s in
  fs r = s /\
  trace r `sublist_of` [EvLoad (gen_checkpoint_path args);
                        EvLoad (dis_checkpoint_path args)] /\
  (forall p, EvLoad p ∈ trace r -> is_Some (s !! p)).
Proof.
  intros r. unfold r, startup.
  destruct (vocabulary ev) as [word_index|]; cbn [or_raise].
  2:{ rewrite bind_raise. simpl. split; [done|].
      split; [apply sublist_nil_l|]. intros p Hp. by apply elem_of_nil in Hp. }
  rewrite bind_ret. cbv zeta.
  rewrite fs_bind, trace_bind.
  destruct (load_generator_summary args (generator_init (size word_index)) s)
    as (Hfs & Htr).
  rewrite Hfs.
  destruct (res (load_generator _ _ s)) as [generator|e].
  2:{ rewrite app_nil_r. split; [done|].
      destruct Htr as [->|[-> Hex]].
      - split; [apply sublist_nil_l|]. intros p Hp. by apply elem_of_nil in Hp.
      - split; [by apply sublist_skip, sublist_nil_l|].
        intros p Hp. apply list_elem_of_singleton in Hp. by injection Hp as ->. }
  rewrite fs_bind, trace_bind.
  destruct (load_discriminator_summary args
              (discriminator_init (size word_index))
              (adam_init (discriminator_init (size word_index))) s)
    as (Hfs' & Htr').
  rewrite Hfs'.
  assert (forall tr, tr ++ match res (load_discriminator args
                                       (discriminator_init (size word_index))
                                       (adam_init (discriminator_init (size word_index))) s)
                           with
                           | Ok a => trace (ret (word_index, generator, a) s)
                           | Raise _ => []
                           end = tr) as Hnil.
  { intros tr. destruct (res (load_discriminator _ _ _ s)); simpl;
      by rewrite app_nil_r. }
  rewrite Hnil.
  split; [by destruct (res (load_discriminator _ _ _ s))|].
  destruct Htr as [->|[-> Hex]], Htr' as [->|[-> Hex']]; simpl.
  - split; [apply sublist_nil_l|]. intros p Hp. by apply elem_of_nil in Hp.
  - split; [by apply sublist_cons, sublist_skip, sublist_nil_l|].
    intros p Hp. apply list_elem_of_singleton in Hp. by injection Hp as ->.
  - split; [by apply sublist_skip, sublist_nil_l|].
    intros p Hp. apply list_elem_of_singleton in Hp. by injection Hp as ->.
  - split; [done|]. intros p Hp.
    apply elem_of_cons in Hp as [Hp|Hp]; [by injection Hp as ->|].
    apply list_elem_of_singleton in Hp. by injection Hp as ->.
Qed.

End Epochs.

Section EpochLoop.
Context `{MD : Models}.

(** One turn of the epoch loop: [train] fails and the run stops there,
    or it returns, the checkpoint is saved if asked for, and the epoch is
    logged as completed; or the checkpoint cannot be written and the run
    stops with the exception of [torch.save]. *)
Lemma run_epoch_cases ev encoder generator word_index args e dis s :
  let t := train ev e encoder generator dis.1 dis.2 word_index args s in
  let r := run_epoch ev encoder generator word_index args e dis s in
  (exists x, res t = Raise x /\ res r = Raise x /\ trace r = trace t /\
             fs r = fs t) \/
  (exists st, res t = Ok st /\
     res r = Ok (discriminator st, dis_optimizer st) /\
     ((save_model args = true /\
       trace r = trace t ++
         [EvSave (save_path args e)
            (checkpoint_dict (discriminator st) (dis_optimizer st));
          EvEpoch e] /\
       fs r = <[save_path args e :=
                  {| pickled := Some (checkpoint_dict (discriminator st)
                                        (dis_optimizer st));
                     appended := [] |}]> (fs t)) \/
      (save_model args = false /\ trace r = trace t ++ [EvEpoch e] /\
       fs r = fs t))) \/
  (exists st, res t = Ok st /\ save_model args = true /\
     can_write ev (fs t) (save_path args e) = false /\
     res r = Raise (SaveError (save_path args e)) /\ trace r = trace t /\
     fs r = fs t).
Proof.
  intros t r. subst t r. unfold run_epoch. rewrite bind_unfold.
  destruct (res (train _ _ _ _ _ _ _ _ s)) as [st|x] eqn:Ht.
  - destruct (save_model args) eqn:Hm.
    + unfold save_checkpoint, torch_save. rewrite bind_unfold.
      destruct (can_write ev _ (save_path args e)) eqn:Hw; simpl.
      * right; left. exists st. split; [done|]. split; [done|]. left.
        by repeat split.
      * right; right. exists st. rewrite app_nil_r. by repeat split.
    + right; left. exists st. split; [done|]. split; [done|]. right.
      by repeat split.
  - left. exists x. by repeat split.
Qed.

Lemma observe_batch_events tr :
  Forall batch_event tr ->
  loads tr = [] /\ saves tr = [] /\ epochs_done tr = [].
Proof.
  induction 1 as [|ev tr Hev _ (IH1 & IH2 & IH3)]; [done|].
  destruct ev; try done; simpl in *; by rewrite ?IH1, ?IH2, ?IH3.
Qed.

Lemma loads_app tr tr' : loads (tr ++ tr') = loads tr ++ loads tr'.
Proof. apply omap_app. Qed.
Lemma saves_app tr tr' : saves (tr ++ tr') = saves tr ++ saves tr'.
Proof. apply omap_app. Qed.
Lemma rows_app tr tr' : rows (tr ++ tr') = rows tr ++ rows tr'.
Proof. apply omap_app. Qed.
Lemma epochs_done_app tr tr' :
  epochs_done (tr ++ tr') = epochs_done tr ++ epochs_done tr'.
Proof. apply omap_app. Qed.
Lemma updates_loss_app tr tr' :
  updates_loss (tr ++ tr') = updates_loss tr ++ updates_loss tr'.
Proof. apply omap_app. Qed.
Lemma updates_acc_app tr tr' :
  updates_acc (tr ++ tr') = updates_acc tr ++ updates_acc tr'.
Proof. apply omap_app. Qed.

Lemma run_epoch_summary ev encoder generator word_index args e dis s :
  let r := run_epoch ev encoder generator word_index args e dis s in
  loads (trace r) = [] /\
  (save_model args = false -> same_checkpoints s (fs r)) /\
  ((exists x, res r = Raise x /\ epochs_done (trace r) = [] /\
              saves (trace r) = [] /\ epoch_exn args encoder x) \/
   (exists d, res r = Ok d /\ epochs_done (trace r) = [e] /\
              saves (trace r) = if save_model args
                                then [save_path args e] else [])).
Proof.
  intros r.
  destruct (train_summary ev e encoder generator dis.1 dis.2 word_index args s)
    as (HF & HS & HE).
  destruct (observe_batch_events _ HF) as (Hl & Hs & Hd).
  destruct (run_epoch_cases ev encoder generator word_index args e dis s)
    as [(x & Ht & Hr & Htr & Hfs)|[(st & Ht & Hr & Hsave)
       |(st & Ht & Hm & Hw & Hr & Htr & Hfs)]];
    cbv zeta in *; fold r in Hr |- *.
  - fold r in Htr, Hfs. rewrite Htr, Hfs. split; [done|]. split; [done|].
    left. exists x. repeat split; try done. unfold epoch_exn.
    destruct (HE x Ht); tauto.
  - destruct Hsave as [(Hm & Htr & Hfs)|(Hm & Htr & Hfs)];
      fold r in Htr, Hfs; rewrite Htr, Hfs, Hm,
        loads_app, epochs_done_app, saves_app, Hl, Hs, Hd; simpl.
    + split; [done|]. split; [done|]. right. eauto.
    + split; [done|]. split; [done|]. right. eauto.
  - fold r in Htr, Hfs. rewrite Htr, Hfs. split; [done|]. split; [done|].
    left. eexists. repeat split; try done. unfold epoch_exn. eauto 10.
Qed.

(** What any run of the epoch loop looks like, whether it ends
    normally or with an exception. *)
Lemma epoch_loop_summary ev encoder generator word_index args es :
  forall dis s,
  let r := epoch_loop ev encoder generator word_index args es dis s in
  loads (trace r) = [] /\
  epochs_done (trace r) `prefix_of` es /\
  (forall x, res r = Ok x -> epochs_done (trace r) = es) /\
  saves (trace r) = (if save_model args
                     then save_path args <$> epochs_done (trace r) else []) /\
  (save_model args = false -> same_checkpoints s (fs r)) /\
  (forall x, res r = Raise x -> epoch_exn args encoder x).
Proof.
  induction es as [|e es IH]; intros dis s; simpl.
  - split; [done|]. split; [done|]. split; [done|].
    split; [by destruct (save_model args)|].
    split; [intros _; apply same_checkpoints_refl|done].
  - rewrite trace_bind, res_bind, fs_bind.
    destruct (run_epoch_summary ev encoder generator word_index args e dis s)
      as (Hl & Hc & [(x & Hr & Hd & Hs & Hx)|(d & Hr & Hd & Hs)]);
      cbv zeta in *; rewrite Hr.
    + rewrite app_nil_r, Hl, Hd, Hs. split; [done|].
      split; [apply prefix_nil|]. split; [done|].
      split; [by destruct (save_model args)|].
      split; [done|]. by intros x' [= <-].
    + destruct (IH d (fs (run_epoch ev encoder generator word_index args
                            e dis s)))
        as (IHl & IHp & IHok & IHs & IHc & IHe).
      rewrite loads_app, epochs_done_app, saves_app, Hl, Hd, Hs, IHl, IHs.
      split; [done|]. split; [by apply prefix_cons|].
      split; [by intros x Hx; rewrite (IHok x Hx)|].
      split; [by destruct (save_model args)|].
      split; [|done]. intros Hm.
      eapply same_checkpoints_trans; [by apply Hc|by apply IHc].
Qed.

(** [main] is the start-up followed by the epoch loop. *)
Lemma main_unfold ev args s :
  let su := startup ev args s in
  main ev args s =
  match res su with
  | Ok su' =>
      after (trace su)
        (epoch_loop ev (build_encoder args) su'.1.2 su'.1.1 args
           (range (epochs args)) su'.2 s)
  | Raise x => {| res := Raise x; fs := s; trace := trace su |}
  end.
Proof.
  intros su. unfold main. rewrite bind_unfold. fold su.
  destruct (startup_summary ev args s) as (Hfs & _). fold su in Hfs.
  by rewrite Hfs.
Qed.

End EpochLoop.

(** ** Checkpoint file names *)

Lemma string_length_app (s t : string) :
  String.length (s +:+ t) = (String.length s + String.length t)%nat.
Proof. induction s as [|a s IH]; simpl; [done|]. by rewrite IH. Qed.

Lemma string_app_inv_tail (s1 s2 t : string) :
  s1 +:+ t = s2 +:+ t -> s1 = s2.
Proof.
  revert s2. induction s1 as [|a s1 IH]; intros [|b s2] H.
  - done.
  - apply (f_equal String.length) in H.
    rewrite !string_length_app in H. simpl in H. lia.
  - apply (f_equal String.length) in H.
    rewrite !string_length_app in H. simpl in H. lia.
  - simpl in H. injection H as -> H. f_equal. by apply IH.
Qed.

(** Two epochs of one configuration never share a checkpoint path. *)
Lemma save_path_inj (args : Args) : Inj (=) (=) (save_path args).
Proof.
  intros e1 e2 H. unfold save_path in H.
  repeat (apply String.app_inj in H).
  apply string_app_inv_tail in H.
  by apply (inj pretty) in H.
Qed.

Section CheckpointNames.
Context `{MD : Models}.

Lemma saves_split (pre post : list event) p d :
  saves (pre ++ EvSave p d :: post) = saves pre ++ p :: saves post.
Proof. unfold saves. by rewrite omap_app. Qed.

Lemma main_trace ev args s :
  exists tr,
    trace (main ev args s) = trace (startup ev args s) ++ tr /\
    loads tr = [] /\
    epochs_done tr `prefix_of` range (epochs args) /\
    saves tr = (if save_model args
                then save_path args <$> epochs_done tr else []).
Proof.
  rewrite main_unfold. cbv zeta.
  destruct (res (startup ev args s)) as [su|x]; simpl.
  - destruct (epoch_loop_summary ev (build_encoder args) su.1.2 su.1.1 args
                (range (epochs args)) su.2 s) as (Hl & Hp & _ & Hs & _).
    eauto.
  - exists []. rewrite app_nil_r. split; [done|]. split; [done|].
    split; [apply prefix_nil|]. by destruct (save_model args).
Qed.

Lemma startup_no_saves ev args s :
  saves (trace (startup ev args s)) = [] /\
  epochs_done (trace (startup ev args s)) = [] /\
  rows (trace (startup ev args s)) = [] /\
  updates_loss (trace (startup ev args s)) = [] /\
  updates_acc (trace (startup ev args s)) = [].
Proof.
  destruct (startup_summary ev args s) as (_ & Hsub & _).
  assert (Forall (fun e => exists p, e = EvLoad p) (trace (startup ev args s)))
    as HF.
  { apply Forall_forall. intros e He.
    pose proof (elem_of_sublist _ _ _ He Hsub) as Hin.
    apply elem_of_cons in Hin as [->|Hin]; [eauto|].
    apply list_elem_of_singleton in Hin as ->. eauto. }
  clear Hsub. induction HF as [|e tr [p ->] _ IH]; [done|]. exact IH.
Qed.

End CheckpointNames.

(** ** Exceptions of the start-up *)

Section StartupExceptions.
Context `{MD : Models}.

Lemma res_or_raise_bind {A B} (o : option A) x0 (k : A -> M B) s x :
  startup_exn x0 ->
  (forall a, res (k a s) = Raise x -> startup_exn x) ->
  res (bind (or_raise o x0) k s) = Raise x -> startup_exn x.
Proof.
  intros H0 Hk. destruct o as [a|]; cbn [or_raise].
  - rewrite bind_ret. apply Hk.
  - rewrite bind_raise. by intros [= <-].
Qed.

Lemma res_torch_load_bind {B} p (k : gmap string obj -> M B) s x :
  (forall d, res (k d s) = Raise x -> startup_exn x) ->
  res (bind (torch_load p) k s) = Raise x -> startup_exn x.
Proof.
  intros Hk. rewrite res_bind. unfold torch_load at 1 2. simpl.
  destruct (s !! p) as [f|]; [|by intros [= <-]].
  destruct (pickled f) as [d|]; [|by intros [= <-]].
  apply Hk.
Qed.

Lemma load_generator_exn args generator s x :
  res (load_generator args generator s) = Raise x -> startup_exn x.
Proof.
  unfold load_generator. rewrite bind_isfile.
  case_bool_decide; [|done].
  apply res_torch_load_bind. intros d. unfold getitem.
  apply res_or_raise_bind; [done|]. intros o.
  destruct o; simpl; by intros [= <-].
Qed.

Lemma load_discriminator_exn args d o s x :
  res (load_discriminator args d o s) = Raise x -> startup_exn x.
Proof.
  unfold load_discriminator. rewrite bind_isfile.
  case_bool_decide; [|done].
  apply res_torch_load_bind. intros dict. unfold getitem.
  apply res_or_raise_bind; [done|]. intros od.
  destruct od as [g|d'|o']; cbn [discriminator_load_state_dict];
    rewrite ?bind_raise; try (by intros [= <-]).
  rewrite bind_ret.
  apply res_or_raise_bind; [done|]. intros oo.
  destruct oo as [g|d''|o']; cbn [optimizer_load_state_dict];
    rewrite ?bind_raise, ?bind_ret; by intros [= <-].
Qed.

Lemma startup_exn_only ev args s x :
  res (startup ev args s) = Raise x -> startup_exn x.
Proof.
  unfold startup. apply res_or_raise_bind; [done|]. intros word_index.
  cbv zeta. rewrite res_bind.
  destruct (load_generator_summary args (generator_init (size word_index)) s)
    as (Hfs & _).
  destruct (res (load_generator _ _ s)) as [generator|x'] eqn:Hg.
  2:{ intros [= <-]. by eapply load_generator_exn. }
  rewrite Hfs, res_bind.
  destruct (res (load_discriminator _ _ _ s)) as [dis|x'] eqn:Hd.
  - done.
  - intros [= <-]. by eapply load_discriminator_exn.
Qed.

End StartupExceptions.

(** ** The run as a whole *)

Section Run.
Context `{MD : Models}.

Lemma omap_sublist_of {A B} (f : A -> option B) (l1 l2 : list A) :
  l1 `sublist_of` l2 -> omap f l1 `sublist_of` omap f l2.
Proof.
  induction 1 as [|x l1 l2 _ IH|x l1 l2 _ IH]; simpl.
  - constructor.
  - destruct (f x); [by apply sublist_skip|done].
  - destruct (f x); [by apply sublist_cons|done].
Qed.

Lemma elem_of_loads tr p : EvLoad p ∈ tr -> p ∈ loads tr.
Proof.
  intros H. unfold loads. apply list_elem_of_omap. by exists (EvLoad p).
Qed.

Lemma range_lt (n : Z) (e : nat) : e ∈ range n -> Z.of_nat e < n.
Proof. unfold range. intros H%elem_of_seq. lia. Qed.

(** C7, as the script has it.  Every checkpoint save goes to the path
    [<storage>/ckpts/<dataset>/dis/pretrain_dis_<e>_<sampling method>_<backbone>.pth]
    of an epoch [e] of the run, the i-th save to the path of the i-th
    completed epoch, and no earlier save of the same run wrote to that
    path. *)
Theorem saves_are_epoch_tagged ev args s pre p d post :
  trace (main ev args s) = pre ++ EvSave p d :: post ->
  (exists e : nat,
     Z.of_nat e < epochs args /\
     p = storage args +:+ "/ckpts/" +:+ dataset args +:+ "/dis/pretrain_dis_"
           +:+ pretty e +:+ "_" +:+ sampling_method args +:+ "_"
           +:+ cnn_architecture args +:+ ".pth") /\
  saves (trace (main ev args s))
    = save_path args <$> epochs_done (trace (main ev args s)) /\
  p ∉ saves pre.
Proof.
  intros Htr.
  destruct (main_trace ev args s) as (tr & Hmain & _ & Hpre & Hsaves).
  destruct (startup_no_saves ev args s) as (Hs0 & Hd0 & _).
  assert (saves (trace (main ev args s)) = saves tr) as Hs
    by (by rewrite Hmain, saves_app, Hs0).
  assert (epochs_done (trace (main ev args s)) = epochs_done tr) as Hd
    by (by rewrite Hmain, epochs_done_app, Hd0).
  assert (p ∈ saves tr) as Hin.
  { rewrite <- Hs, Htr, saves_split. set_solver. }
  destruct (save_model args); [|by rewrite Hsaves in Hin; apply elem_of_nil in Hin].
  assert (NoDup (saves tr)) as Hnd.
  { rewrite Hsaves.
    apply (@NoDup_fmap_2 _ _ (save_path args) (save_path_inj args)).
    destruct Hpre as [k Hk]. apply (NoDup_app (epochs_done tr) k).
    rewrite <- Hk. apply NoDup_seq. }
  split; [|split].
  - rewrite Hsaves in Hin. apply list_elem_of_fmap in Hin as (e & -> & He).
    exists e. split; [|reflexivity].
    apply range_lt. destruct Hpre as [k ->]. set_solver.
  - by rewrite Hs, Hd.
  - rewrite <- Hs, Htr, saves_split in Hnd.
    apply NoDup_app in Hnd as (_ & Hnot & _). intros Hp.
    apply (Hnot p Hp). left.
Qed.

(** C8.  Checkpoints are loaded during start-up only, each of the two
    at most once and only from a path where a file exists; where there
    is no file the load does nothing and the freshly built model, and
    optimiser, are what training starts from. *)
Theorem checkpoints_loaded_only_at_startup ev args s :
  let r := main ev args s in
  (exists tr, trace r = trace (startup ev args s) ++ tr /\ loads tr = []) /\
  loads (trace r) `sublist_of` [gen_checkpoint_path args;
                               dis_checkpoint_path args] /\
  (forall p, EvLoad p ∈ trace r -> is_Some (s !! p)) /\
  (s !! gen_checkpoint_path args = None ->
   forall generator, load_generator args generator s = ret generator s) /\
  (s !! dis_checkpoint_path args = None ->
   forall d o, load_discriminator args d o s = ret (d, o) s) /\
  (s !! gen_checkpoint_path args = None ->
   s !! dis_checkpoint_path args = None ->
   forall word_index, vocabulary ev = Some word_index ->
     startup ev args s =
     ret (word_index, generator_init (size word_index),
          (discriminator_init (size word_index),
           adam_init (discriminator_init (size word_index)))) s).
Proof.
  intros r.
  destruct (main_trace ev args s) as (tr & Hmain & Hl & _).
  destruct (startup_summary ev args s) as (_ & Hsub & Hex).
  fold r in Hmain.
  assert (loads (trace r) = loads (trace (startup ev args s))) as Hloads
    by (by rewrite Hmain, loads_app, Hl, app_nil_r).
  split; [eauto|]. split; [|split; [|split; [|split]]].
  - rewrite Hloads.
    change [gen_checkpoint_path args; dis_checkpoint_path args]
      with (loads [EvLoad (gen_checkpoint_path args);
                   EvLoad (dis_checkpoint_path args)]).
    unfold loads. by apply omap_sublist_of.
  - intros p Hp. apply Hex. rewrite Hmain in Hp.
    apply elem_of_app in Hp as [Hp|Hp]; [done|].
    apply elem_of_loads in Hp. rewrite Hl in Hp. by apply elem_of_nil in Hp.
  - intros Hg generator. by apply load_generator_absent.
  - intros Hd d o. by apply load_discriminator_absent.
  - intros Hg Hd word_index Hv. unfold startup. rewrite Hv.
    cbn [or_raise]. rewrite bind_ret. cbv zeta.
    rewrite bind_unfold, load_generator_absent by done. simpl.
    rewrite after_nil, bind_unfold, load_discriminator_absent by done.
    simpl. by rewrite after_nil.
Qed.

(** C10.  With precomputed image features the encoder handed to [train]
    is [None]; otherwise it is built.  In both configurations neither a
    call of [train] nor the whole run ends with the exception of calling
    [eval] on, or applying, a [None] encoder. *)
Theorem encoder_none_never_dereferenced ev args s :
  (use_image_features args = true -> build_encoder args = None) /\
  (use_image_features args = false ->
   build_encoder args = Some (encoder_new (cnn_architecture args))) /\
  (forall epoch generator d o word_index,
     res (train ev epoch (build_encoder args) generator d o word_index args s)
       ≠ Raise AttributeErrorNone /\
     res (train ev epoch (build_encoder args) generator d o word_index args s)
       ≠ Raise TypeErrorNone) /\
  res (main ev args s) ≠ Raise AttributeErrorNone /\
  res (main ev args s) ≠ Raise TypeErrorNone.
Proof.
  assert (forall x, epoch_exn args (build_encoder args) x ->
            x ≠ AttributeErrorNone /\ x ≠ TypeErrorNone) as Hsafe.
  { unfold epoch_exn, batch_exn, build_encoder.
    intros x [(_ & Hu & He)|[[(_ & Hu & He)|[->|[->|[[-> _]|[-> _]]]]]
                            |(_ & e & ->)]]; try done;
      by rewrite Hu in He. }
  split; [by unfold build_encoder; intros ->|].
  split; [by unfold build_encoder; intros ->|].
  split.
  - intros epoch generator d o word_index.
    destruct (train_summary ev epoch (build_encoder args) generator d o
                word_index args s) as (_ & _ & HE).
    destruct (res (train _ _ _ _ _ _ _ _ s)) as [st|x]; [done|].
    assert (epoch_exn args (build_encoder args) x) as Hx
      by (unfold epoch_exn; destruct (HE x eq_refl); tauto).
    destruct (Hsafe x Hx) as (H1 & H2).
    split; congruence.
  - rewrite main_unfold. cbv zeta.
    destruct (res (startup ev args s)) as [su|x] eqn:Hsu; simpl.
    + destruct (epoch_loop_summary ev (build_encoder args) su.1.2 su.1.1 args
                  (range (epochs args)) su.2 s) as (_ & _ & _ & _ & _ & HE).
      destruct (res (epoch_loop _ _ _ _ _ _ _ s)) as [dis|x]; [done|].
      destruct (Hsafe x (HE x eq_refl)) as (H1 & H2).
      split; congruence.
    + apply startup_exn_only in Hsu. split; intros [= ->]; done.
Qed.

End Run.

(** ** Runs that end normally *)

Section NormalRuns.
Context `{MD : Models}.

Lemma sample_from_start_ok imgs caps cap_lens generator word_index args s :
  cap_lens ≠ [] -> Forall (fun row => row ≠ []) caps ->
  exists call,
    length (input_word call) = length caps /\
    sample_from_start imgs caps cap_lens generator word_index args s =
    after [EvSample call]
      (ret (pad_generated_captions (generator_sample generator call) word_index) s).
Proof.
  intros Hne Hrows.
  destruct (tensor_max_is_Some _ Hne) as [longest Hmax].
  destruct (column0_is_Some _ Hrows) as [ws Hws].
  unfold sample_from_start, sample_args.
  rewrite Hmax, Hws. cbn [or_raise].
  rewrite bind_assoc, bind_ret. cbn beta.
  rewrite bind_assoc, !bind_ret, bind_emit.
  eexists. split; [|reflexivity]. simpl.
  symmetry. eapply Forall2_length, mapM_Some_1, Hws.
Qed.

Lemma can_write_dir ev s p : dir_exists ev p = true -> can_write ev s p = true.
Proof. unfold can_write. intros ->. apply orb_true_r. Qed.

Lemma report_ok ev epoch batch_id elapsed losses acc args s :
  print_freq args ≠ 0 ->
  (save_stats args = true -> dir_exists ev (stats_path args) = true) ->
  res (report ev epoch batch_id elapsed losses acc args s) = Ok tt.
Proof.
  intros Hpf Hdir.
  destruct (report_cases ev epoch batch_id elapsed losses acc args s)
    as [(_ & _ & _ & Hp)|[(Hr & _)|[(Hr & _)|[(Hr & _)|(_ & Hs & Hw & _)]]]];
    try done.
  by rewrite (can_write_dir ev s _ (Hdir Hs)) in Hw.
Qed.

Lemma train_batch_ok ev epoch encoder generator word_index args batch_id b st s :
  loop_conditions ev args -> batch_ok b ->
  (use_image_features args = false -> is_Some encoder) ->
  exists st',
    res (train_batch ev epoch encoder generator word_index args batch_id b st s)
      = Ok st'.
Proof.
  intros (Hpf & _ & Hperm & (Hdir & _) & Henc & Hgen) (Hne & Hrows & Hli & Hll)
    Hsome.
  unfold train_batch.
  set (enc := if negb (use_image_features args) then _ else _).
  assert (exists imgs, enc = ret imgs /\ length imgs = length (b_caps b))
    as (imgs & -> & Himgs).
  { unfold enc. destruct (use_image_features args); simpl; [eauto|].
    destruct (Hsome eq_refl) as [e ->]. eexists. split; [done|].
    by rewrite Henc. }
  rewrite bind_ret, bind_unfold.
  destruct (sample_from_start_ok imgs (b_caps b) (b_cap_lens b) generator
              word_index args s Hne Hrows) as (call & Hcall & ->).
  rewrite res_after, fs_after, trace_after. cbn [ret res fs trace].
  set (fake := pad_generated_captions _ _).
  destruct (Hgen generator call word_index) as (Hf1 & Hf2). fold fake in Hf1, Hf2.
  destruct (permute_randperm imgs (b_caps b) (b_cap_lens b) fake.1 fake.2
              (randperm_of ev epoch batch_id (length (b_caps b) * 2)))
    as (mx & -> & _).
  { unfold same_batch_size. rewrite Hf1, Hf2. by repeat split. }
  { apply Hperm. }
  cbn [or_raise]. rewrite res_after, bind_ret, bind_emit, res_after, res_bind.
  rewrite report_ok by done. eauto.
Qed.

Lemma train_loop_ok ev epoch encoder generator word_index args bs :
  loop_conditions ev args -> Forall batch_ok bs ->
  (use_image_features args = false -> is_Some encoder) ->
  forall batch_id st s,
  exists st',
    res (train_loop ev epoch encoder generator word_index args batch_id bs st s)
      = Ok st'.
Proof.
  intros Hcond Hbs Hsome.
  induction Hbs as [|b bs Hb _ IH]; intros batch_id st s; [by eexists|].
  cbn [train_loop]. rewrite res_bind.
  destruct (train_batch_ok ev epoch encoder generator word_index args
              batch_id b st s Hcond Hb Hsome) as (st' & ->).
  apply IH.
Qed.

Lemma epoch_loop_ok ev generator word_index args es :
  loop_conditions ev args ->
  forall dis s,
  exists dis',
    res (epoch_loop ev (build_encoder args) generator word_index args es dis s)
      = Ok dis'.
Proof.
  intros Hcond. induction es as [|e es IH]; intros dis s; [by eexists|].
  cbn [epoch_loop]. rewrite res_bind.
  assert (exists dis', res (run_epoch ev (build_encoder args) generator
                              word_index args e dis s) = Ok dis')
    as (dis' & ->); [|apply IH].
  destruct (run_epoch_cases ev (build_encoder args) generator word_index args
              e dis s) as [(x & Ht & _)|[(st & _ & Hr & _)
                          |(st & _ & Hm & Hw & _)]]; [|eauto|].
  2:{ destruct Hcond as (_ & _ & _ & (_ & Hdir) & _).
      by rewrite (can_write_dir ev _ _ (Hdir Hm e)) in Hw. }
  exfalso. revert Ht. unfold train.
  assert (use_image_features args = false -> is_Some (build_encoder args))
    as Hsome by (unfold build_encoder; intros ->; eauto).
  set (guard := if negb (use_image_features args) then _ else _).
  assert (guard = ret tt) as ->.
  { unfold guard. destruct (use_image_features args); simpl; [done|].
    by destruct (Hsome eq_refl) as [enc ->]. }
  rewrite bind_ret.
  destruct Hcond as (Hpf & Hbs & Hrest).
  destruct (train_loop_ok ev e (build_encoder args) generator word_index args
              (batches_of ev e) (conj Hpf (conj Hbs Hrest)) (Hbs e) Hsome 0%nat
              {| discriminator := dis.1; dis_optimizer := dis.2;
                 losses := AverageMeter.init; acc := AverageMeter.init |} s)
    as (st' & ->).
  done.
Qed.

(** Once the start-up has gone through, a run on well-formed batches
    ends normally. *)
Lemma main_ok ev args s su :
  res (startup ev args s) = Ok su -> loop_conditions ev args ->
  exists dis, res (main ev args s) = Ok dis.
Proof.
  intros Hsu Hcond. rewrite main_unfold. cbv zeta. rewrite Hsu, res_after.
  by apply epoch_loop_ok.
Qed.

End NormalRuns.

(** ** The report at a print interval *)

Section Rows.
Context `{MD : Models}.

Lemma report_on_interval ev epoch batch_id elapsed losses acc args s :
  print_freq args ≠ 0 ->
  Z.of_nat batch_id mod print_freq args = 0 ->
  report ev epoch batch_id elapsed losses acc args s =
  after [EvInfo (info_fields epoch batch_id elapsed losses acc)]
    (if save_stats args
     then append_row ev (stats_path args) (stats_row epoch batch_id losses acc) s
     else ret tt s).
Proof.
  intros Hpf Hmod. unfold report.
  destruct (Z.eqb_spec (print_freq args) 0); [done|].
  destruct (Z.eqb_spec (Z.of_nat batch_id mod print_freq args) 0); [|done].
  rewrite bind_emit. by destruct (save_stats args).
Qed.

End Rows.

(** ** Running averages *)

Lemma total_snoc (vs : list Q) (v : Q) : total (vs ++ [v]) = (total vs + v)%Q.
Proof. unfold total. by rewrite fold_left_app. Qed.

Lemma feed_snoc (m : AverageMeter.t) (vs : list Q) (v : Q) :
  AverageMeter.feed m (vs ++ [v]) = AverageMeter.update (AverageMeter.feed m vs) v.
Proof. unfold AverageMeter.feed. by rewrite fold_left_app. Qed.

Lemma feed_sum_count (vs : list Q) :
  AverageMeter.sum (AverageMeter.feed AverageMeter.init vs) = total vs /\
  AverageMeter.count (AverageMeter.feed AverageMeter.init vs)
    = Z.of_nat (length vs).
Proof.
  induction vs as [|v vs (IHs & IHc)] using rev_ind; [done|].
  rewrite feed_snoc, total_snoc, length_app. simpl.
  rewrite IHs, IHc. split; [done|]. lia.
Qed.

(** After an update the running average of a fresh meter is the mean of
    all the values it was fed. *)
Lemma feed_avg (vs : list Q) (v : Q) :
  AverageMeter.avg (AverageMeter.update
                      (AverageMeter.feed AverageMeter.init vs) v)
    = mean (vs ++ [v]).
Proof.
  destruct (feed_sum_count vs) as (Hs & Hc).
  unfold mean. rewrite total_snoc, length_app. simpl.
  rewrite Hs, Hc. do 2 f_equal. lia.
Qed.

Section RunningAverage.
Context `{MD : Models}.

Lemma current_epoch_snoc pre ev :
  current_epoch (pre ++ [ev]) =
  match ev with
  | EvEpoch _ => []
  | _ => current_epoch pre ++ [ev]
  end.
Proof. unfold current_epoch. by rewrite fold_left_app. Qed.

Lemma current_epoch_batch_events pre tr :
  Forall batch_event tr -> current_epoch (pre ++ tr) = current_epoch pre ++ tr.
Proof.
  intros HF. revert pre.
  induction HF as [|ev tr Hev _ IH]; intros pre.
  - by rewrite !app_nil_r.
  - change (ev :: tr) with ([ev] ++ tr).
    rewrite app_assoc, IH, current_epoch_snoc.
    destruct ev; try done; by rewrite <- app_assoc.
Qed.

Lemma train_batch_reports ev epoch encoder generator word_index args batch_id b st s pre :
  meters_match pre st ->
  let r := train_batch ev epoch encoder generator word_index args batch_id b st s in
  each_after reports_epoch_mean pre (trace r) /\
  (forall st', res r = Ok st' -> meters_match (pre ++ trace r) st').
Proof.
  intros (Hl & Ha) r.
  destruct (train_batch_summary ev epoch encoder generator word_index args
              batch_id b st s) as (HF & _ & _). fold r in HF.
  destruct (train_batch_cases ev epoch encoder generator word_index args
              batch_id b st s)
    as [(e & tr & Hr & Ht & _ & Htr & _)
       |(c & loss & accuracy & d' & o' & Ht & _ & Hr)];
    fold r in Hr, Ht.
  - rewrite Hr, Ht. split; [|done].
    by destruct Htr as [->|[c ->]].
  - cbv zeta in Ht, Hr.
    set (losses' := AverageMeter.update (losses st) loss) in *.
    set (acc' := AverageMeter.update (acc st) accuracy) in *.
    set (rep := report ev epoch batch_id (elapsed_of ev epoch batch_id)
                  losses' acc' args s) in *.
    assert (updates_loss (trace r) = [loss] /\ updates_acc (trace r) = [accuracy])
      as (Hul & Hua).
    { rewrite Ht.
      destruct (report_cases ev epoch batch_id (elapsed_of ev epoch batch_id)
                  losses' acc' args s)
        as [(_ & Hrep & _)|[(_ & Hrep & _)|[(_ & _ & _ & Hrep)
           |[(_ & _ & _ & Hrep)|(_ & _ & _ & _ & Hrep)]]]];
        fold rep in Hrep; by rewrite Hrep. }
    assert (AverageMeter.avg losses'
            = mean (updates_loss (current_epoch
                                    (pre ++ [EvSample c; EvUpdate loss accuracy])))
            /\
            AverageMeter.avg acc'
            = mean (updates_acc (current_epoch
                                   (pre ++ [EvSample c; EvUpdate loss accuracy]))))
      as (Havl & Hava).
    { rewrite current_epoch_batch_events by (by repeat constructor).
      rewrite updates_loss_app, updates_acc_app. simpl.
      unfold losses', acc'. rewrite Hl, Ha. split; apply feed_avg. }
    split.
    + rewrite Ht. simpl. split; [done|]. split; [done|].
      rewrite <- app_assoc. simpl.
      destruct (report_cases ev epoch batch_id (elapsed_of ev epoch batch_id)
                  losses' acc' args s)
        as [(_ & Hrep & _)|[(_ & Hrep & _)|[(_ & _ & _ & Hrep)
           |[(_ & _ & _ & Hrep)|(_ & _ & _ & _ & Hrep)]]]];
        fold rep in Hrep; rewrite Hrep; simpl; try done.
      all: rewrite <- Havl, <- Hava; done.
    + intros st' Hst'. rewrite Hr in Hst'.
      destruct (res rep); [|done]. injection Hst' as <-.
      unfold meters_match. simpl.
      rewrite current_epoch_batch_events by done.
      rewrite updates_loss_app, updates_acc_app, Hul, Hua, !feed_snoc.
      fold losses' acc'. unfold losses', acc'. by rewrite Hl, Ha.
Qed.

Lemma train_loop_reports ev epoch encoder generator word_index args bs :
  forall batch_id st s pre,
  meters_match pre st ->
  each_after reports_epoch_mean pre
    (trace (train_loop ev epoch encoder generator word_index args batch_id bs st s)).
Proof.
  induction bs as [|b bs IH]; intros batch_id st s pre Hm; [done|].
  cbn [train_loop]. rewrite trace_bind. apply each_after_app.
  destruct (train_batch_reports ev epoch encoder generator word_index args
              batch_id b st s pre Hm) as (Hb & Hpost).
  split; [done|].
  destruct (res (train_batch _ _ _ _ _ _ _ _ _ s)) as [st'|x]; [|done].
  apply IH. by apply Hpost.
Qed.

Lemma train_reports ev epoch encoder generator d o word_index args s pre :
  nothing_metered pre ->
  each_after reports_epoch_mean pre
    (trace (train ev epoch encoder generator d o word_index args s)).
Proof.
  intros (Hl & Ha). unfold train.
  set (guard := if negb (use_image_features args) then _ else _).
  assert (guard = ret tt \/ guard = raise AttributeErrorNone) as [->| ->].
  { unfold guard. destruct (use_image_features args); simpl; [eauto|].
    destruct encoder; eauto. }
  - rewrite bind_ret. apply train_loop_reports.
    unfold meters_match. simpl. by rewrite Hl, Ha.
  - by rewrite bind_raise.
Qed.

Lemma run_epoch_reports ev encoder generator word_index args e dis s pre :
  nothing_metered pre ->
  let r := run_epoch ev encoder generator word_index args e dis s in
  each_after reports_epoch_mean pre (trace r) /\
  (forall dis', res r = Ok dis' -> nothing_metered (pre ++ trace r)).
Proof.
  intros Hfresh r.
  pose proof (train_reports ev e encoder generator dis.1 dis.2 word_index
                args s pre Hfresh) as Htrain.
  destruct (run_epoch_cases ev encoder generator word_index args e dis s)
    as [(x & _ & Hr & Htr & _)
       |[(st & _ & Hr & [(_ & Htr & _)|(_ & Htr & _)])
        |(st & _ & _ & _ & Hr & Htr & _)]];
    fold r in Hr, Htr; rewrite Hr, Htr.
  - done.
  - split.
    + apply each_after_app. split; [done|]. simpl. tauto.
    + intros _ _. unfold nothing_metered.
      rewrite (cons_middle (EvSave _ _)), !app_assoc, current_epoch_snoc.
      done.
  - split.
    + apply each_after_app. split; [done|]. simpl. tauto.
    + intros _ _. unfold nothing_metered.
      by rewrite !app_assoc, current_epoch_snoc.
  - done.
Qed.

Lemma epoch_loop_reports ev encoder generator word_index args es :
  forall dis s pre,
  nothing_metered pre ->
  each_after reports_epoch_mean pre
    (trace (epoch_loop ev encoder generator word_index args es dis s)).
Proof.
  induction es as [|e es IH]; intros dis s pre Hfresh; [done|].
  cbn [epoch_loop]. rewrite trace_bind. apply each_after_app.
  destruct (run_epoch_reports ev encoder generator word_index args e dis s
              pre Hfresh) as (He & Hpost).
  split; [done|].
  destruct (res (run_epoch _ _ _ _ _ e dis s)) as [dis'|x] eqn:Hr; [|done].
  apply IH. by eapply Hpost.
Qed.

Lemma current_epoch_loads pre tr :
  Forall (fun e => exists p, e = EvLoad p) tr ->
  updates_loss (current_epoch (pre ++ tr)) = updates_loss (current_epoch pre) /\
  updates_acc (current_epoch (pre ++ tr)) = updates_acc (current_epoch pre).
Proof.
  intros HF. revert pre.
  induction HF as [|e tr [p ->] _ IH]; intros pre.
  - by rewrite app_nil_r.
  - change (EvLoad p :: tr) with ([EvLoad p] ++ tr).
    rewrite app_assoc. destruct (IH (pre ++ [EvLoad p])) as (-> & ->).
    rewrite current_epoch_snoc, updates_loss_app, updates_acc_app. simpl.
    by rewrite !app_nil_r.
Qed.

Lemma startup_reports ev args s :
  each_after reports_epoch_mean [] (trace (startup ev args s)) /\
  nothing_metered (trace (startup ev args s)).
Proof.
  destruct (startup_summary ev args s) as (_ & Hsub & _).
  assert (Forall (fun e => exists p, e = EvLoad p) (trace (startup ev args s)))
    as HF.
  { apply Forall_forall. intros e He.
    pose proof (elem_of_sublist _ _ _ He Hsub) as Hin.
    apply elem_of_cons in Hin as [->|Hin]; [eauto|].
    apply list_elem_of_singleton in Hin as ->. eauto. }
  clear Hsub. split.
  - eapply each_after_Forall; [exact HF|]. by intros pre e [p ->].
  - exact (current_epoch_loads [] _ HF).
Qed.

(** C2, as the script has it.  Every log line of a run reports, as
    running loss and running accuracy, the mean of the values metered
    since the last completed epoch, the current batch included: the
    meters start afresh with every epoch. *)
Theorem running_average_is_per_epoch ev args s pre fields post :
  trace (main ev args s) = pre ++ EvInfo fields :: post ->
  fields !! 3%nat = Some (CNum (mean (updates_loss (current_epoch pre)))) /\
  fields !! 5%nat = Some (CNum (mean (updates_acc (current_epoch pre)))).
Proof.
  intros Htr.
  assert (each_after reports_epoch_mean [] (trace (main ev args s))) as Hall.
  { rewrite main_unfold. cbv zeta.
    destruct (startup_reports ev args s) as (Hsu & Hfresh).
    destruct (res (startup ev args s)) as [su|x]; [|done].
    rewrite trace_after. apply each_after_app. split; [done|].
    by apply epoch_loop_reports. }
  apply (each_after_split _ _ _ _ _ _ Hall Htr).
Qed.

End RunningAverage.

(** ** The events of the start-up *)

Section StartupEvents.
Context `{MD : Models}.

Lemma startup_only_loads ev args s :
  Forall (fun e => exists p, e = EvLoad p) (trace (startup ev args s)).
Proof.
  destruct (startup_summary ev args s) as (_ & Hsub & _).
  apply Forall_forall. intros e He.
  pose proof (elem_of_sublist _ _ _ He Hsub) as Hin.
  apply elem_of_cons in Hin as [->|Hin]; [eauto|].
  apply list_elem_of_singleton in Hin as ->. eauto.
Qed.

Lemma only_loads_observations (tr : list event) :
  Forall (fun e => exists p, e = EvLoad p) tr ->
  samples tr = [] /\ infos tr = [] /\ saved_dicts tr = [] /\
  row_paths tr = [] /\ rows tr = [] /\ updates_loss tr = [] /\ saves tr = [].
Proof. induction 1 as [|e tr [p ->] _ IH]; [done|]. exact IH. Qed.

End StartupEvents.

(** ** Label Mixer: no example is lost or repeated *)

Section MixerExamples.
Context `{MD : Models}.

Lemma gather_zip {A B} (a : list A) (b : list B) indices ga gb :
  gather a indices = Some ga -> gather b indices = Some gb ->
  gather (zip a b) indices = Some (zip ga gb).
Proof.
  unfold gather. intros Ha Hb.
  apply mapM_Some_1 in Ha. apply mapM_Some_1 in Hb. apply mapM_Some_2.
  revert gb Hb. induction Ha as [|i x idx ga' Hx _ IH]; intros gb Hb.
  - inversion Hb. constructor.
  - inversion Hb as [|? y ? gb' Hy Hb']; subst. simpl. constructor.
    + rewrite lookup_zip_with, Hx. simpl. by rewrite Hy.
    + by apply IH.
Qed.

Lemma examples_length (m : mixed) n :
  length (m_imgs m) = n -> length (m_inputs m) = n ->
  length (m_input_lens m) = n -> length (m_targets m) = n ->
  length (examples m) = n.
Proof.
  intros H1 H2 H3 H4. unfold examples.
  rewrite !length_zip_with. lia.
Qed.

(** The mixed batch holds every example of the concatenated batch (image,
    caption, length and label together) exactly once: the tuples after
    the permutation are a rearrangement of the tuples before it. *)
Theorem label_mixer_keeps_examples imgs caps cap_lens fake_caps fake_cap_lens indices :
  same_batch_size imgs caps cap_lens fake_caps fake_cap_lens ->
  Permutation indices (seq 0 (length caps * 2)) ->
  exists mx,
    permute indices (concat_batches imgs caps cap_lens fake_caps fake_cap_lens)
      = Some mx /\
    length (examples mx) = (length caps * 2)%nat /\
    Permutation (examples mx)
      (examples (concat_batches imgs caps cap_lens fake_caps fake_cap_lens)).
Proof.
  intros Hsz HP.
  destruct (permute_randperm _ _ _ _ _ _ Hsz HP) as (mx & Hmx & _).
  destruct (concat_batches_lengths _ _ _ _ _ Hsz) as (Li & Lc & Ll & Lt).
  set (pre := concat_batches imgs caps cap_lens fake_caps fake_cap_lens) in *.
  exists mx. split; [done|].
  apply permute_Some in Hmx as (Hgi & Hgc & Hgl & Hgt).
  assert (gather (examples pre) indices = Some (examples mx)) as Hg.
  { unfold examples. by repeat apply gather_zip. }
  assert (length (examples pre) = (length caps * 2)%nat) as Lpre
    by (by apply examples_length).
  split.
  - rewrite (gather_length _ _ _ Hg), (Permutation_length HP). apply length_seq.
  - destruct (gather_randperm (examples pre) indices) as (g & Hg' & HPg);
      [by rewrite Lpre|].
    rewrite Hg in Hg'. by injection Hg' as <-.
Qed.

End MixerExamples.

(** ** Batch Sampler: when the generator is called *)

Section SamplerEdges.
Context `{MD : Models}.

Lemma column0_None (caps : list caption) :
  column0 caps = None <-> Exists (fun row => row = []) caps.
Proof.
  unfold column0. rewrite mapM_None, !Exists_exists.
  split; intros (row & Hin & Hrow); exists row; (split; [done|]);
    by destruct row.
Qed.

(** [sample_from_start] calls the generator exactly when the batch has
    an example and no caption row is empty.  On a batch with no example it
    stops at [torch.max], on an empty caption row at [caps[:, 0]]; in both
    cases before the generator is called, and the files stay as they are. *)
Theorem sampler_calls_generator_iff imgs caps cap_lens generator word_index args s :
  let r := sample_from_start imgs caps cap_lens generator word_index args s in
  fs r = s /\
  (cap_lens = [] -> res r = Raise EmptyTensorError /\ trace r = []) /\
  (cap_lens ≠ [] -> Exists (fun row => row = []) caps ->
   res r = Raise IndexError /\ trace r = []) /\
  ((exists call, trace r = [EvSample call]) <->
   cap_lens ≠ [] /\ Forall (fun row => row ≠ []) caps).
Proof.
  intros r.
  destruct (sample_from_start_cases imgs caps cap_lens generator word_index
              args s) as (Hfs & _). fold r in Hfs.
  split; [done|].
  assert (cap_lens = [] -> res r = Raise EmptyTensorError /\ trace r = [])
    as Hempty.
  { intros ->. unfold r, sample_from_start, sample_args. simpl tensor_max.
    cbn [or_raise]. by rewrite !bind_raise. }
  assert (cap_lens ≠ [] -> Exists (fun row => row = []) caps ->
          res r = Raise IndexError /\ trace r = []) as Hrow.
  { intros Hne Hex. apply column0_None in Hex.
    destruct (tensor_max_is_Some _ Hne) as [longest Hmax].
    unfold r, sample_from_start, sample_args. rewrite Hmax, Hex.
    cbn [or_raise]. rewrite bind_assoc, bind_ret. cbn beta.
    by rewrite !bind_raise. }
  split; [done|]. split; [done|]. split.
  - intros [call Hcall].
    destruct cap_lens as [|l ls].
    { destruct (Hempty eq_refl) as (_ & Htr). by rewrite Htr in Hcall. }
    split; [done|].
    apply Forall_forall. intros row Hin ->.
    destruct (Hrow ltac:(done)) as (_ & Htr).
    { apply Exists_exists. eauto. }
    by rewrite Htr in Hcall.
  - intros (Hne & Hrows).
    destruct (sample_from_start_ok imgs caps cap_lens generator word_index
                args s Hne Hrows) as (call & _ & Heq).
    exists call. unfold r. by rewrite Heq.
Qed.

End SamplerEdges.

(** ** Checkpoint Store: what the start-up loads restore *)

Section Loads.
Context `{MD : Models}.

(** The generator load reads the key ['gen_state_dict'] of the
    checkpoint file: it restores the generator state stored there, stops
    with a [KeyError] when the key is missing and with a state-dict error
    when another kind of state is stored under it.  The file is read once
    and nothing is written. *)
Theorem generator_load_restores args generator s f dict :
  s !! gen_checkpoint_path args = Some f -> pickled f = Some dict ->
  let r := load_generator args generator s in
  fs r = s /\ trace r = [EvLoad (gen_checkpoint_path args)] /\
  res r = match dict !! "gen_state_dict" with
          | Some (OGen g) => Ok g
          | Some _ => Raise (StateDictError "generator")
          | None => Raise (KeyError "gen_state_dict")
          end.
Proof.
  intros Hf Hd r. unfold r, load_generator.
  rewrite bind_isfile, Hf, bool_decide_eq_true_2 by eauto.
  rewrite (bind_torch_load _ _ _ _ _ Hf Hd).
  rewrite fs_after, trace_after, res_after.
  unfold getitem. destruct (dict !! "gen_state_dict") as [o|]; cbn [or_raise].
  - rewrite bind_ret. by destruct o.
  - by rewrite bind_raise.
Qed.

(** The discriminator load reads ['dis_state_dict'] and then
    ['dis_optimizer_state_dict']: from a dictionary that holds a
    discriminator state and an optimiser state under these two keys it
    restores both, whatever the freshly built states were; a missing key
    is a [KeyError] naming it, the first of the two if both are missing. *)
Theorem discriminator_load_restores args d0 o0 s f dict :
  s !! dis_checkpoint_path args = Some f -> pickled f = Some dict ->
  let r := load_discriminator args d0 o0 s in
  fs r = s /\ trace r = [EvLoad (dis_checkpoint_path args)] /\
  res r = match dict !! "dis_state_dict" with
          | Some (ODis d) =>
              match dict !! "dis_optimizer_state_dict" with
              | Some (OOpt o) => Ok (d, o)
              | Some _ => Raise (StateDictError "optimizer")
              | None => Raise (KeyError "dis_optimizer_state_dict")
              end
          | Some _ => Raise (StateDictError "discriminator")
          | None => Raise (KeyError "dis_state_dict")
          end.
Proof.
  intros Hf Hd r. unfold r, load_discriminator.
  rewrite bind_isfile, Hf, bool_decide_eq_true_2 by eauto.
  rewrite (bind_torch_load _ _ _ _ _ Hf Hd).
  rewrite fs_after, trace_after, res_after.
  unfold getitem.
  destruct (dict !! "dis_state_dict") as [od|]; cbn [or_raise].
  2:{ by rewrite bind_raise. }
  rewrite bind_ret.
  destruct od as [g|d|o]; cbn [discriminator_load_state_dict];
    rewrite ?bind_raise; try done.
  rewrite bind_ret.
  destruct (dict !! "dis_optimizer_state_dict") as [oo|]; cbn [or_raise].
  2:{ by rewrite bind_raise. }
  rewrite bind_ret.
  destruct oo as [g|d'|o]; cbn [optimizer_load_state_dict];
    rewrite ?bind_raise, ?bind_ret; done.
Qed.

(** A start-up that fails is the whole run: the exception is the run's,
    nothing is trained, saved or logged and the files stay as they are.
    A missing vocabulary file stops the run before any checkpoint is read;
    a generator checkpoint without ['gen_state_dict'] stops it before the
    discriminator checkpoint is read. *)
Theorem failed_startup_ends_run ev args s x :
  res (startup ev args s) = Raise x ->
  let r := main ev args s in
  res r = Raise x /\ fs r = s /\ trace r = trace (startup ev args s) /\
  updates_loss (trace r) = [] /\ saves (trace r) = [] /\ rows (trace r) = [] /\
  (vocabulary ev = None -> trace r = []) /\
  (forall f dict,
     s !! gen_checkpoint_path args = Some f -> pickled f = Some dict ->
     dict !! "gen_state_dict" = None ->
     loads (trace r) `prefix_of` [gen_checkpoint_path args]).
Proof.
  intros Hsu r. unfold r. rewrite main_unfold. cbv zeta. rewrite Hsu.
  cbn [res fs trace].
  destruct (startup_no_saves ev args s) as (Hs0 & _ & Hr0 & Hu0 & _).
  split; [done|]. split; [done|]. split; [done|].
  split; [done|]. split; [done|]. split; [done|]. split.
  - intros Hv. unfold startup. rewrite Hv. cbn [or_raise].
    by rewrite bind_raise.
  - intros f dict Hf Hd Hkey. unfold startup.
    destruct (vocabulary ev) as [word_index|]; cbn [or_raise].
    2:{ rewrite bind_raise. apply prefix_nil. }
    rewrite bind_ret. cbv zeta. rewrite trace_bind.
    assert (load_generator args (generator_init (size word_index)) s
            = after [EvLoad (gen_checkpoint_path args)]
                (raise (KeyError "gen_state_dict") s)) as ->.
    { unfold load_generator.
      rewrite bind_isfile, Hf, bool_decide_eq_true_2 by eauto.
      rewrite (bind_torch_load _ _ _ _ _ Hf Hd).
      by rewrite (bind_getitem_None _ _ _ Hkey). }
    done.
Qed.

End Loads.

(** ** One epoch: steps, generator calls and log lines *)

Section EpochCounts.
Context `{MD : Models}.

Lemma samples_app tr tr' : samples (tr ++ tr') = samples tr ++ samples tr'.
Proof. apply omap_app. Qed.
Lemma infos_app tr tr' : infos (tr ++ tr') = infos tr ++ infos tr'.
Proof. apply omap_app. Qed.
Lemma logged_batches_app tr tr' :
  logged_batches (tr ++ tr') = logged_batches tr ++ logged_batches tr'.
Proof. apply omap_app. Qed.

Lemma print_intervals_from pf (b n : nat) :
  List.filter (fun b => b mod pf =? 0) (Z.of_nat <$> seq b (S n)) =
  (if Z.of_nat b mod pf =? 0 then [Z.of_nat b] else [])
    ++ List.filter (fun b => b mod pf =? 0) (Z.of_nat <$> seq (S b) n).
Proof. simpl. by destruct (Z.of_nat b mod pf =? 0). Qed.

(** A batch that is processed without exception: one generator call,
    one update of the meters, and a log line (with its row, when stats
    are saved) exactly at a print interval. *)
Lemma train_batch_Ok_counts ev epoch encoder generator word_index args batch_id b st s st' :
  res (train_batch ev epoch encoder generator word_index args batch_id b st s)
    = Ok st' ->
  let tr := trace (train_batch ev epoch encoder generator word_index args
                     batch_id b st s) in
  print_freq args ≠ 0 /\
  length (updates_loss tr) = 1%nat /\ length (samples tr) = 1%nat /\
  logged_batches tr
    = (if Z.of_nat batch_id mod print_freq args =? 0
       then [Z.of_nat batch_id] else []) /\
  length (infos tr) = length (logged_batches tr) /\
  length (rows tr)
    = (if save_stats args then length (logged_batches tr) else O).
Proof.
  intros Hok tr. unfold tr.
  destruct (train_batch_cases ev epoch encoder generator word_index args
              batch_id b st s)
    as [(e & tr0 & Hr & _)|(c & loss & accuracy & d' & o' & Ht & _ & Hr)].
  { by rewrite Hr in Hok. }
  cbv zeta in Ht, Hr. rewrite Ht. rewrite Hr in Hok.
  destruct (Z.eq_dec (print_freq args) 0) as [Hpf|Hpf].
  { exfalso. revert Hok. unfold report.
    destruct (Z.eqb_spec (print_freq args) 0); done. }
  split; [done|].
  destruct (Z.eqb_spec (Z.of_nat batch_id mod print_freq args) 0) as [Hm|Hm].
  - revert Hok. rewrite report_on_interval by done.
    rewrite trace_after, res_after.
    destruct (save_stats args); simpl; [|done].
    unfold append_row. by destruct (can_write ev s (stats_path args)).
  - rewrite report_off_interval by done. simpl.
    by destruct (save_stats args).
Qed.

Lemma train_loop_Ok_counts ev epoch encoder generator word_index args bs :
  forall batch_id st s st',
  res (train_loop ev epoch encoder generator word_index args batch_id bs st s)
    = Ok st' ->
  let tr := trace (train_loop ev epoch encoder generator word_index args
                     batch_id bs st s) in
  (bs ≠ [] -> print_freq args ≠ 0) /\
  length (updates_loss tr) = length bs /\ length (samples tr) = length bs /\
  logged_batches tr
    = List.filter (fun b => b mod print_freq args =? 0)
        (Z.of_nat <$> seq batch_id (length bs)) /\
  length (infos tr) = length (logged_batches tr) /\
  length (rows tr)
    = (if save_stats args then length (logged_batches tr) else O).
Proof.
  induction bs as [|b bs IH]; intros batch_id st s st' Hok.
  { simpl. by destruct (save_stats args). }
  cbn [train_loop] in *. rewrite res_bind in Hok. rewrite trace_bind.
  destruct (res (train_batch ev epoch encoder generator word_index args
                   batch_id b st s)) as [st1|x] eqn:Hb; [|done].
  destruct (train_batch_Ok_counts _ _ _ _ _ _ _ _ _ _ _ Hb)
    as (Hpf & Hu & Hs & Hl & Hi & Hr).
  destruct (IH _ _ _ _ Hok) as (_ & IHu & IHs & IHl & IHi & IHr).
  cbv zeta in *.
  rewrite updates_loss_app, samples_app, logged_batches_app, infos_app,
    rows_app, !length_app.
  rewrite Hu, Hs, IHu, IHs, Hi, IHi, Hr, IHr, Hl, IHl.
  cbn [length]. rewrite print_intervals_from.
  split; [done|]. split; [done|]. split; [done|]. split; [done|].
  split; [done|]. by destruct (save_stats args).
Qed.

(** [train] is its guard on the encoder followed by the loop. *)
Lemma train_Ok_loop ev epoch encoder generator d o word_index args s st :
  res (train ev epoch encoder generator d o word_index args s) = Ok st ->
  train ev epoch encoder generator d o word_index args s
  = train_loop ev epoch encoder generator word_index args 0
      (batches_of ev epoch)
      {| discriminator := d; dis_optimizer := o;
         losses := AverageMeter.init; acc := AverageMeter.init |} s.
Proof.
  unfold train.
  set (guard := if negb (use_image_features args) then _ else _).
  assert (guard = ret tt \/ guard = raise AttributeErrorNone) as [->| ->].
  { unfold guard. destruct (use_image_features args); simpl; [eauto|].
    destruct encoder; eauto. }
  - by rewrite bind_ret.
  - by rewrite bind_raise.
Qed.

Lemma train_epoch_counts_aux ev epoch encoder generator d o word_index args s st :
  res (train ev epoch encoder generator d o word_index args s) = Ok st ->
  let tr := trace (train ev epoch encoder generator d o word_index args s) in
  let n := length (batches_of ev epoch) in
  (n ≠ O -> print_freq args ≠ 0) /\
  length (updates_loss tr) = n /\ length (samples tr) = n /\
  logged_batches tr = print_intervals (print_freq args) n /\
  length (infos tr) = length (print_intervals (print_freq args) n) /\
  length (rows tr)
    = (if save_stats args
       then length (print_intervals (print_freq args) n) else O).
Proof.
  intros Hok. pose proof Hok as Heq. apply train_Ok_loop in Heq.
  rewrite Heq in Hok |- *.
  destruct (train_loop_Ok_counts _ _ _ _ _ _ _ _ _ _ _ Hok)
    as (Hpf & Hu & Hs & Hl & Hi & Hr).
  cbv zeta in *. unfold print_intervals. rewrite <- Hl.
  split; [|done]. intros Hn. apply Hpf. by destruct (batches_of ev epoch).
Qed.

(** A batch that is processed without exception went through the
    forward pass on its mixed batch: the loss and the accuracy metered
    are those of the discriminator before the step, and the state it
    leaves is that of the optimiser step. *)
Lemma train_batch_Ok_step ev epoch encoder generator word_index args batch_id b st s st' :
  res (train_batch ev epoch encoder generator word_index args batch_id b st s)
    = Ok st' ->
  let tr := trace (train_batch ev epoch encoder generator word_index args
                     batch_id b st s) in
  exists mx,
    mixed_batch ev epoch encoder generator word_index args batch_id b = Some mx /\
    (discriminator st', dis_optimizer st')
      = optimizer_step (discriminator st, dis_optimizer st) mx /\
    updates_loss tr = [(metered_on (discriminator st) mx).1] /\
    updates_acc tr = [(metered_on (discriminator st) mx).2] /\
    losses st' = AverageMeter.update (losses st)
                   (metered_on (discriminator st) mx).1 /\
    acc st' = AverageMeter.update (acc st)
                (metered_on (discriminator st) mx).2.
Proof.
  unfold train_batch, mixed_batch.
  set (enc := if negb (use_image_features args) then _ else _).
  set (oimgs := if use_image_features args then _ else _).
  assert ((exists imgs, enc = ret imgs /\ oimgs = Some imgs) \/
          enc = raise TypeErrorNone) as [(imgs & -> & ->)| ->].
  { unfold enc, oimgs. destruct (use_image_features args); simpl; [eauto|].
    destruct encoder; simpl; eauto. }
  2:{ by rewrite bind_raise. }
  rewrite bind_ret. unfold sample_from_start, sample_args.
  destruct (tensor_max (b_cap_lens b)) as [longest|];
    [|by cbn [or_raise]; rewrite !bind_raise].
  cbn [or_raise]. rewrite !bind_assoc, bind_ret. cbn beta.
  destruct (column0 (b_caps b)) as [ws|];
    [|by cbn [or_raise]; rewrite !bind_assoc, !bind_raise].
  cbn [or_raise]. rewrite !bind_assoc, !bind_ret. cbn beta.
  rewrite !bind_assoc, bind_emit, bind_ret. cbn [mbind option_bind].
  set (call := {| cap_len := _ |}).
  set (fake := pad_generated_captions _ _).
  destruct (permute _ _) as [mx|]; [|by cbn [or_raise]; rewrite bind_raise].
  cbn [or_raise]. rewrite res_after, !trace_after, bind_ret, bind_emit.
  rewrite res_after, !trace_after, res_bind, trace_bind.
  set (rep := report _ _ _ _ _ _ _ _).
  assert (updates_loss (trace rep) = [] /\ updates_acc (trace rep) = [])
    as (Hul & Hua).
  { unfold rep.
    match goal with |- context [report ?a ?b ?c ?d ?l ?m ?f ?g] =>
      destruct (report_cases a b c d l m f g)
        as [(_ & Hrep & _)|[(_ & Hrep & _)|[(_ & _ & _ & Hrep)
           |[(_ & _ & _ & Hrep)|(_ & _ & _ & _ & Hrep)]]]]
    end; by rewrite Hrep. }
  destruct (res rep) as [[]|x] eqn:Hrep; [|done].
  intros [= <-]. exists mx. split; [done|]. simpl.
  split; [unfold optimizer_step; simpl; by destruct (adam_step _ _ _ _ _ _)|].
  rewrite !app_nil_r, Hul, Hua. done.
Qed.

Lemma train_loop_Ok_steps ev epoch encoder generator word_index args bs :
  forall batch_id st s st',
  res (train_loop ev epoch encoder generator word_index args batch_id bs st s)
    = Ok st' ->
  let tr := trace (train_loop ev epoch encoder generator word_index args
                     batch_id bs st s) in
  let ms := metered ev epoch encoder generator word_index args batch_id bs
              (discriminator st, dis_optimizer st) in
  steps ev epoch encoder generator word_index args batch_id bs
    (discriminator st, dis_optimizer st)
    = Some (discriminator st', dis_optimizer st') /\
  updates_loss tr = ms.*1 /\ updates_acc tr = ms.*2 /\
  losses st' = AverageMeter.feed (losses st) (updates_loss tr) /\
  acc st' = AverageMeter.feed (acc st) (updates_acc tr).
Proof.
  induction bs as [|b bs IH]; intros batch_id st s st' Hok.
  { simpl in *. by injection Hok as <-. }
  cbn [train_loop steps metered] in *. rewrite res_bind in Hok.
  rewrite trace_bind.
  destruct (res (train_batch ev epoch encoder generator word_index args
                   batch_id b st s)) as [st1|x] eqn:Hb; [|done].
  destruct (train_batch_Ok_step _ _ _ _ _ _ _ _ _ _ _ Hb)
    as (mx & Hmx & Hstep & Hul & Hua & Hl & Ha).
  destruct (IH _ _ _ _ Hok) as (IHs & IHul & IHua & IHl & IHa).
  cbv zeta in *. rewrite Hmx. simpl. rewrite <- Hstep.
  rewrite updates_loss_app, updates_acc_app, Hul, Hua, IHul, IHua.
  split; [done|]. split; [done|]. split; [done|].
  rewrite IHl, IHa, IHul, IHua, Hl, Ha. done.
Qed.

(** An epoch that [train] completes has made one optimiser step per batch
    of the loader, each on the mixed batch built from that batch and
    from the state the step before left: the discriminator and the
    optimiser it returns are those after these steps, the losses and
    accuracies metered are those of the forward passes before each step,
    and the meters hold exactly them.  It made one generator call per
    batch, wrote its log lines exactly at the batch indices divisible by
    the print frequency, in order, and one CSV row per log line when
    stats saving is on (none otherwise). *)
Theorem train_epoch_counts ev epoch encoder generator d o word_index args s st :
  res (train ev epoch encoder generator d o word_index args s) = Ok st ->
  let tr := trace (train ev epoch encoder generator d o word_index args s) in
  let n := length (batches_of ev epoch) in
  let ms := metered ev epoch encoder generator word_index args 0
              (batches_of ev epoch) (d, o) in
  steps ev epoch encoder generator word_index args 0 (batches_of ev epoch) (d, o)
    = Some (discriminator st, dis_optimizer st) /\
  updates_loss tr = ms.*1 /\ updates_acc tr = ms.*2 /\
  losses st = AverageMeter.feed AverageMeter.init (updates_loss tr) /\
  acc st = AverageMeter.feed AverageMeter.init (updates_acc tr) /\
  length (updates_loss tr) = n /\ length (samples tr) = n /\
  logged_batches tr = print_intervals (print_freq args) n /\
  length (infos tr) = length (print_intervals (print_freq args) n) /\
  length (rows tr)
    = (if save_stats args
       then length (print_intervals (print_freq args) n) else O).
Proof.
  intros Hok. pose proof Hok as Heq. apply train_Ok_loop in Heq.
  rewrite Heq in Hok |- *.
  destruct (train_loop_Ok_counts _ _ _ _ _ _ _ _ _ _ _ Hok)
    as (_ & Hu & Hs & Hl & Hi & Hr).
  destruct (train_loop_Ok_steps _ _ _ _ _ _ _ _ _ _ _ Hok)
    as (Hst & Hul & Hua & Hlo & Hac).
  cbv zeta in *. unfold print_intervals. rewrite <- Hl.
  simpl in Hst, Hul, Hua, Hlo, Hac. done.
Qed.

End EpochCounts.

(** ** The whole run: steps, generator calls, a zero print frequency *)

Section RunCounts.
Context `{MD : Models}.

Lemma run_epoch_Ok_train ev encoder generator word_index args e dis s dis' :
  res (run_epoch ev encoder generator word_index args e dis s) = Ok dis' ->
  exists st extra,
    res (train ev e encoder generator dis.1 dis.2 word_index args s) = Ok st /\
    dis' = (discriminator st, dis_optimizer st) /\
    trace (run_epoch ev encoder generator word_index args e dis s)
      = trace (train ev e encoder generator dis.1 dis.2 word_index args s)
          ++ extra /\
    updates_loss extra = [] /\ samples extra = [] /\ infos extra = [] /\
    rows extra = [] /\
    length (saves extra) = (if save_model args then 1%nat else O).
Proof.
  intros Hok.
  destruct (run_epoch_cases ev encoder generator word_index args e dis s)
    as [(x & _ & Hr & _)|[(st & Ht & Hr & Hsave)|(st & _ & _ & _ & Hr & _)]];
    cbv zeta in *.
  { by rewrite Hr in Hok. }
  2:{ by rewrite Hr in Hok. }
  rewrite Hr in Hok. injection Hok as <-.
  exists st. destruct Hsave as [(Hm & -> & _)|(Hm & -> & _)]; rewrite Hm;
    eexists; repeat split; done.
Qed.

Lemma epoch_loop_Ok_counts ev encoder generator word_index args es :
  forall dis s dis',
  res (epoch_loop ev encoder generator word_index args es dis s) = Ok dis' ->
  let tr := trace (epoch_loop ev encoder generator word_index args es dis s) in
  let intervals :=
    sum_list ((fun e => length (print_intervals (print_freq args)
                                  (length (batches_of ev e)))) <$> es) in
  epoch_steps ev encoder generator word_index args es dis = Some dis' /\
  length (updates_loss tr)
    = sum_list ((fun e => length (batches_of ev e)) <$> es) /\
  length (samples tr)
    = sum_list ((fun e => length (batches_of ev e)) <$> es) /\
  length (infos tr) = intervals /\
  length (rows tr) = (if save_stats args then intervals else O) /\
  length (saves tr) = (if save_model args then length es else O).
Proof.
  induction es as [|e es IH]; intros dis s dis' Hok.
  { simpl in *. injection Hok as <-.
    by destruct (save_model args), (save_stats args). }
  cbn [epoch_loop epoch_steps] in *. rewrite res_bind in Hok. rewrite trace_bind.
  destruct (res (run_epoch ev encoder generator word_index args e dis s))
    as [dis1|x] eqn:He; [|done].
  destruct (run_epoch_Ok_train _ _ _ _ _ _ _ _ _ He)
    as (st & extra & Ht & Hd1 & Htr & Hu & Hs & Hi & Hro & Hsv).
  destruct (train_summary ev e encoder generator dis.1 dis.2 word_index args s)
    as (HF & _ & _).
  destruct (observe_batch_events _ HF) as (_ & Hsv0 & _).
  destruct (train_epoch_counts_aux ev e encoder generator dis.1 dis.2
              word_index args s st Ht) as (_ & Tu & Ts & _ & Ti & Tr).
  pose proof Ht as Hloop. rewrite (train_Ok_loop _ _ _ _ _ _ _ _ _ _ Ht) in Hloop.
  destruct (train_loop_Ok_steps _ _ _ _ _ _ _ _ _ _ _ Hloop) as (Hst & _).
  simpl in Hst. rewrite <- surjective_pairing in Hst.
  destruct (IH _ _ _ Hok) as (IHst & IHu & IHs & IHi & IHr & IHsv).
  cbv zeta in *.
  rewrite Hst. simpl. rewrite <- Hd1.
  rewrite Htr, !updates_loss_app, !samples_app, !infos_app, !rows_app,
    !saves_app, !length_app.
  rewrite Hu, Hs, Hi, Hro, Hsv0, Hsv, Tu, Ts, Ti, Tr, IHu, IHs, IHi, IHr, IHsv.
  cbn [fmap list_fmap sum_list sum_list_with length].
  unfold id, fmap. split; [done|]. repeat split; try lia.
  - destruct (save_stats args); simpl; lia.
  - destruct (save_model args); simpl; lia.
Qed.

(** A run that ends normally went through the start-up and then made,
    epoch after epoch and batch after batch, one optimiser step on the
    mixed batch of every batch of the loader: the states it ends with
    are those after these steps, starting from the states of the
    start-up.  It made one generator call per batch, wrote its log lines
    at the print intervals of every epoch (and as many CSV rows when
    stats saving is on, none otherwise), and saved one checkpoint per
    epoch when checkpoint saving is on (none otherwise). *)
Theorem normal_run_counts ev args s x :
  res (main ev args s) = Ok x ->
  let tr := trace (main ev args s) in
  let per_epoch := (fun e => length (batches_of ev e)) <$> range (epochs args) in
  (exists su,
     res (startup ev args s) = Ok su /\
     epoch_steps ev (build_encoder args) su.1.2 su.1.1 args
       (range (epochs args)) su.2 = Some x) /\
  length (updates_loss tr) = sum_list per_epoch /\
  length (samples tr) = sum_list per_epoch /\
  length (infos tr)
    = sum_list ((fun n => length (print_intervals (print_freq args) n))
                  <$> per_epoch) /\
  length (rows tr) = (if save_stats args then run_print_intervals ev args else O) /\
  length (saves tr)
    = (if save_model args then Z.to_nat (epochs args) else O).
Proof.
  intros Hok. rewrite main_unfold in *. cbv zeta in *.
  destruct (only_loads_observations _ (startup_only_loads ev args s))
    as (Hsm0 & Hi0 & _ & _ & Hr0 & Hu0 & Hs0).
  destruct (res (startup ev args s)) as [su|y]; [|done].
  rewrite res_after in Hok. rewrite trace_after.
  destruct (epoch_loop_Ok_counts _ _ _ _ _ _ _ _ _ Hok)
    as (Hst & Hu & Hs & Hi & Hr & Hsv).
  cbv zeta in *. split; [eauto|].
  rewrite updates_loss_app, samples_app, infos_app, rows_app, saves_app,
    !length_app.
  rewrite Hu0, Hsm0, Hi0, Hr0, Hs0, Hu, Hs, Hi, Hr, Hsv. cbn [length].
  rewrite <- list_fmap_compose.
  assert (length (range (epochs args)) = Z.to_nat (epochs args)) as ->
    by apply length_seq.
  done.
Qed.

(** *** Print frequency 0 *)

Lemma train_batch_zero_print_freq ev epoch encoder generator word_index args batch_id b st s :
  print_freq args = 0 ->
  let r := train_batch ev epoch encoder generator word_index args batch_id b st s in
  (exists x, res r = Raise x) /\ infos (trace r) = [] /\ rows (trace r) = [] /\
  saves (trace r) = [] /\
  (length (updates_loss (trace r)) <= 1)%nat /\
  (updates_loss (trace r) ≠ [] -> res r = Raise ZeroDivisionError).
Proof.
  intros Hpf r.
  destruct (train_batch_cases ev epoch encoder generator word_index args
              batch_id b st s)
    as [(e & tr & Hr & Ht & _ & Htr & _)
       |(c & loss & accuracy & d' & o' & Ht & _ & Hr)];
    fold r in Hr, Ht.
  - rewrite Hr, Ht. split; [eauto|].
    destruct Htr as [->|[c ->]]; simpl; repeat split; try done; lia.
  - cbv zeta in *.
    assert (forall l a, report ev epoch batch_id (elapsed_of ev epoch batch_id)
                          l a args s = raise ZeroDivisionError s) as Hrep.
    { intros l a. unfold report.
      destruct (Z.eqb_spec (print_freq args) 0); done. }
    rewrite Hrep in Hr, Ht. rewrite Hr, Ht. simpl.
    split; [eauto|]. repeat split; try done.
Qed.

Lemma train_zero_print_freq ev epoch encoder generator d o word_index args s :
  print_freq args = 0 ->
  let r := train ev epoch encoder generator d o word_index args s in
  infos (trace r) = [] /\ rows (trace r) = [] /\ saves (trace r) = [] /\
  (length (updates_loss (trace r)) <= 1)%nat /\
  (updates_loss (trace r) ≠ [] -> res r = Raise ZeroDivisionError) /\
  (forall st, res r = Ok st -> updates_loss (trace r) = []).
Proof.
  intros Hpf r. unfold r, train.
  set (guard := if negb (use_image_features args) then _ else _).
  assert (guard = ret tt \/ guard = raise AttributeErrorNone) as [->| ->].
  { unfold guard. destruct (use_image_features args); simpl; [eauto|].
    destruct encoder; eauto. }
  2:{ rewrite bind_raise. simpl. repeat split; try done; lia. }
  rewrite bind_ret.
  destruct (batches_of ev epoch) as [|b bs].
  { simpl. repeat split; try done; lia. }
  cbn [train_loop]. rewrite trace_bind, res_bind.
  destruct (train_batch_zero_print_freq ev epoch encoder generator word_index
              args 0 b
              {| discriminator := d; dis_optimizer := o;
                 losses := AverageMeter.init; acc := AverageMeter.init |} s Hpf)
    as ((x & Hx) & Hi & Hr & Hs & Hu & Hz).
  cbv zeta in *. rewrite Hx in *. rewrite app_nil_r.
  repeat split; done.
Qed.

Lemma epoch_loop_zero_print_freq ev encoder generator word_index args es :
  print_freq args = 0 ->
  forall dis s,
  let r := epoch_loop ev encoder generator word_index args es dis s in
  infos (trace r) = [] /\ rows (trace r) = [] /\
  (length (updates_loss (trace r)) <= 1)%nat /\
  (updates_loss (trace r) ≠ [] -> res r = Raise ZeroDivisionError).
Proof.
  intros Hpf. induction es as [|e es IH]; intros dis s.
  { simpl. repeat split; try done; lia. }
  cbn [epoch_loop]. rewrite trace_bind, res_bind.
  destruct (train_zero_print_freq ev e encoder generator dis.1 dis.2
              word_index args s Hpf) as (Ti & Tr & Ts & Tu & Tz & Tok).
  cbv zeta in *.
  destruct (run_epoch_cases ev encoder generator word_index args e dis s)
    as [(x & Ht & Hr & Htr & _)|[(st & Ht & Hr & Hsave)
       |(st & Ht & _ & _ & Hr & Htr & _)]]; cbv zeta in *.
  - rewrite Hr, Htr, app_nil_r. repeat split; try done.
    intros Hne. specialize (Tz Hne). congruence.
  - rewrite Hr.
    assert (infos (trace (run_epoch ev encoder generator word_index args e dis s)) = [] /\
            rows (trace (run_epoch ev encoder generator word_index args e dis s)) = [] /\
            updates_loss (trace (run_epoch ev encoder generator word_index args e dis s)) = [])
      as (Hi & Hro & Hu).
    { destruct Hsave as [(_ & -> & _)|(_ & -> & _)];
        rewrite infos_app, rows_app, updates_loss_app, Ti, Tr, (Tok st Ht);
        done. }
    destruct (IH (discriminator st, dis_optimizer st)
                (fs (run_epoch ev encoder generator word_index args e dis s)))
      as (IHi & IHr & IHu & IHz).
    rewrite infos_app, rows_app, updates_loss_app, Hi, Hro, Hu, IHi, IHr.
    simpl. done.
  - rewrite Hr, Htr, app_nil_r. repeat split; try done.
    intros Hne. by rewrite (Tok st Ht) in Hne.
Qed.

(** With a print frequency of 0 the report's [batch_id % print_freq]
    divides by zero: no log line and no metric row is ever written, the
    whole run makes at most one optimiser step, and a run that made one
    ended with [ZeroDivisionError]. *)
Theorem zero_print_freq_aborts ev args s :
  print_freq args = 0 ->
  let r := main ev args s in
  infos (trace r) = [] /\ rows (trace r) = [] /\
  (length (updates_loss (trace r)) <= 1)%nat /\
  (updates_loss (trace r) ≠ [] -> res r = Raise ZeroDivisionError).
Proof.
  intros Hpf r. unfold r. rewrite main_unfold. cbv zeta.
  destruct (only_loads_observations _ (startup_only_loads ev args s))
    as (_ & Hi0 & _ & _ & Hr0 & Hu0 & _).
  destruct (res (startup ev args s)) as [su|x].
  - rewrite trace_after, res_after, infos_app, rows_app, updates_loss_app.
    rewrite Hi0, Hr0, Hu0. simpl.
    by apply epoch_loop_zero_print_freq.
  - simpl. rewrite Hi0, Hr0, Hu0. simpl. repeat split; try done; lia.
Qed.

End RunCounts.

(** ** Every generator call of a run *)

Section GeneratorCalls.
Context `{MD : Models}.

Lemma sample_from_start_configured imgs caps cap_lens generator word_index args s :
  Forall (call_as_configured args)
    (samples (trace (sample_from_start imgs caps cap_lens generator
                       word_index args s))).
Proof.
  unfold sample_from_start, sample_args.
  destruct (tensor_max cap_lens) as [longest|]; cbn [or_raise].
  2:{ rewrite !bind_raise. constructor. }
  rewrite bind_assoc, bind_ret. cbn beta.
  destruct (column0 caps) as [ws|]; cbn [or_raise].
  2:{ rewrite !bind_raise. constructor. }
  rewrite bind_assoc, !bind_ret, bind_emit. simpl.
  constructor; [|constructor]. unfold call_as_configured. simpl.
  repeat split; lia.
Qed.

Lemma report_no_samples ev epoch batch_id elapsed losses acc args s :
  samples (trace (report ev epoch batch_id elapsed losses acc args s)) = [].
Proof.
  destruct (report_cases ev epoch batch_id elapsed losses acc args s)
    as [(_ & -> & _)|[(_ & -> & _)|[(_ & _ & _ & ->)
       |[(_ & _ & _ & ->)|(_ & _ & _ & _ & ->)]]]]; done.
Qed.

Lemma train_batch_configured ev epoch encoder generator word_index args batch_id b st s :
  Forall (call_as_configured args)
    (samples (trace (train_batch ev epoch encoder generator word_index args
                       batch_id b st s))).
Proof.
  unfold train_batch.
  set (enc := if negb (use_image_features args) then _ else _).
  assert ((exists imgs, enc = ret imgs) \/ enc = raise TypeErrorNone)
    as [[imgs ->]| ->].
  { unfold enc. destruct (use_image_features args); simpl; [eauto|].
    destruct encoder; eauto. }
  2:{ rewrite bind_raise. constructor. }
  rewrite bind_ret, trace_bind, samples_app. apply Forall_app. split.
  { apply sample_from_start_configured. }
  destruct (res (sample_from_start _ _ _ _ _ _ s)) as [fake|x]; [|constructor].
  destruct (permute _ _) as [mx|]; cbn [or_raise].
  2:{ rewrite bind_raise. constructor. }
  rewrite bind_ret, bind_emit, trace_after, trace_bind. simpl.
  rewrite samples_app, report_no_samples. simpl.
  destruct (res (report _ _ _ _ _ _ _ _)); constructor.
Qed.

Lemma train_configured ev epoch encoder generator d o word_index args s :
  Forall (call_as_configured args)
    (samples (trace (train ev epoch encoder generator d o word_index args s))).
Proof.
  unfold train.
  set (guard := if negb (use_image_features args) then _ else _).
  assert (guard = ret tt \/ guard = raise AttributeErrorNone) as [->| ->].
  { unfold guard. destruct (use_image_features args); simpl; [eauto|].
    destruct encoder; eauto. }
  2:{ rewrite bind_raise. constructor. }
  rewrite bind_ret.
  generalize 0%nat.
  generalize {| discriminator := d; dis_optimizer := o;
                losses := AverageMeter.init; acc := AverageMeter.init |}.
  generalize s.
  induction (batches_of ev epoch) as [|b bs IH]; intros s0 st batch_id;
    [constructor|].
  cbn [train_loop]. rewrite trace_bind, samples_app. apply Forall_app. split.
  - apply train_batch_configured.
  - destruct (res (train_batch _ _ _ _ _ _ _ _ _ _)); [apply IH|constructor].
Qed.

(** Every generator call of a run, in whatever epoch and batch, asks for
    the configured sampling method, passes no initial hidden state, and
    has a target length of at least the configured max-length minus 1. *)
Theorem generator_calls_as_configured ev args s :
  Forall (call_as_configured args) (samples (trace (main ev args s))).
Proof.
  rewrite main_unfold. cbv zeta.
  destruct (only_loads_observations _ (startup_only_loads ev args s))
    as (Hsm0 & _).
  destruct (res (startup ev args s)) as [su|x]; simpl;
    [|rewrite Hsm0; constructor].
  rewrite samples_app, Hsm0. simpl.
  generalize (su.2). generalize s.
  induction (range (epochs args)) as [|e es IH]; intros s0 dis; [constructor|].
  cbn [epoch_loop]. rewrite trace_bind, samples_app. apply Forall_app. split.
  - destruct (run_epoch_cases ev (build_encoder args) su.1.2 su.1.1 args e
                dis s0)
      as [(x & _ & _ & -> & _)|[(st & _ & _ & [(_ & -> & _)|(_ & -> & _)])
         |(st & _ & _ & _ & _ & -> & _)]];
      rewrite ?samples_app; simpl; rewrite ?app_nil_r;
      apply train_configured.
  - destruct (res (run_epoch _ _ _ _ _ _ _ _)); [apply IH|constructor].
Qed.

End GeneratorCalls.

(** ** Files: the metrics record and the checkpoints *)

Lemma stats_path_not_save_path (args : Args) (e : nat) :
  stats_path args ≠ save_path args e.
Proof.
  unfold stats_path, save_path. intros H.
  apply String.app_inj in H. simpl in H. discriminate.
Qed.

Section Files.
Context `{MD : Models}.

Lemma row_paths_app tr tr' : row_paths (tr ++ tr') = row_paths tr ++ row_paths tr'.
Proof. apply omap_app. Qed.
Lemma saved_dicts_app tr tr' :
  saved_dicts (tr ++ tr') = saved_dicts tr ++ saved_dicts tr'.
Proof. apply omap_app. Qed.

Lemma stats_step_refl args s : stats_step args s [] s.
Proof. unfold stats_step. simpl. rewrite app_nil_r. by repeat split. Qed.

Lemma stats_step_trans args s1 tr1 s2 tr2 s3 :
  stats_step args s1 tr1 s2 -> stats_step args s2 tr2 s3 ->
  stats_step args s1 (tr1 ++ tr2) s3.
Proof.
  intros (HF1 & HR1 & HN1) (HF2 & HR2 & HN2). unfold stats_step.
  rewrite row_paths_app, rows_app. split; [by apply Forall_app|].
  split; [by rewrite HR2, HR1, app_assoc|].
  intros Hoff. destruct (HN1 Hoff) as (-> & <-).
  destruct (HN2 Hoff) as (-> & <-). done.
Qed.

Lemma stats_step_batch_events args s tr :
  Forall batch_event tr -> rows tr = [] -> stats_step args s tr s.
Proof.
  intros HF Hrows. unfold stats_step. rewrite Hrows, app_nil_r.
  split; [|done].
  induction HF as [|ev tr Hev _ IH]; [constructor|].
  destruct ev; try done; simpl in *; auto.
Qed.

Lemma report_stats_step ev epoch batch_id elapsed losses acc args s :
  stats_step args s (trace (report ev epoch batch_id elapsed losses acc args s))
    (fs (report ev epoch batch_id elapsed losses acc args s)).
Proof.
  unfold report.
  destruct (Z.eqb_spec (print_freq args) 0); [apply stats_step_refl|].
  destruct (Z.eqb_spec (Z.of_nat batch_id mod print_freq args) 0);
    [|apply stats_step_refl].
  rewrite bind_emit, trace_after, fs_after.
  destruct (save_stats args) eqn:Hstats.
  - unfold stats_step, append_row, rows_at.
    destruct (can_write ev s (stats_path args)); simpl.
    + rewrite lookup_insert_eq.
      split; [by repeat constructor|]. split; [|intros; congruence].
      by destruct (s !! stats_path args).
    + rewrite app_nil_r. split; [constructor|]. split; [done|].
      intros; congruence.
  - unfold stats_step. simpl. rewrite app_nil_r. by repeat split.
Qed.

Lemma train_batch_stats_step ev epoch encoder generator word_index args batch_id b st s :
  let r := train_batch ev epoch encoder generator word_index args batch_id b st s in
  stats_step args s (trace r) (fs r).
Proof.
  intros r.
  destruct (train_batch_cases ev epoch encoder generator word_index args
              batch_id b st s)
    as [(e & tr & _ & Ht & Hf & Htr & _)
       |(c & loss & accuracy & d' & o' & Ht & Hf & _)];
    fold r in Ht, Hf; cbv zeta in *; rewrite Ht, Hf.
  - apply stats_step_batch_events; by destruct Htr as [->|[c ->]];
      repeat constructor.
  - apply (stats_step_trans args s [EvSample c; EvUpdate loss accuracy] s).
    + apply stats_step_batch_events; by repeat constructor.
    + apply report_stats_step.
Qed.

Lemma train_stats_step ev epoch encoder generator d o word_index args s :
  let r := train ev epoch encoder generator d o word_index args s in
  stats_step args s (trace r) (fs r).
Proof.
  intros r. unfold r, train.
  set (guard := if negb (use_image_features args) then _ else _).
  assert (guard = ret tt \/ guard = raise AttributeErrorNone) as [->| ->].
  { unfold guard. destruct (use_image_features args); simpl; [eauto|].
    destruct encoder; eauto. }
  2:{ rewrite bind_raise. apply stats_step_refl. }
  rewrite bind_ret. generalize 0%nat.
  generalize {| discriminator := d; dis_optimizer := o;
                losses := AverageMeter.init; acc := AverageMeter.init |}.
  generalize s.
  induction (batches_of ev epoch) as [|b bs IH]; intros s0 st batch_id;
    [apply stats_step_refl|].
  cbn [train_loop]. rewrite trace_bind, fs_bind.
  pose proof (train_batch_stats_step ev epoch encoder generator word_index
                args batch_id b st s0) as Hb. cbv zeta in Hb.
  destruct (res (train_batch _ _ _ _ _ _ _ _ _ _)).
  - eapply stats_step_trans; [exact Hb|apply IH].
  - by rewrite app_nil_r.
Qed.

Lemma run_epoch_stats_step ev encoder generator word_index args e dis s :
  let r := run_epoch ev encoder generator word_index args e dis s in
  stats_step args s (trace r) (fs r).
Proof.
  intros r.
  pose proof (train_stats_step ev e encoder generator dis.1 dis.2 word_index
                args s) as Ht. cbv zeta in Ht.
  destruct (run_epoch_cases ev encoder generator word_index args e dis s)
    as [(x & _ & _ & Htr & Hfs)
       |[(st & _ & _ & [(_ & Htr & Hfs)|(_ & Htr & Hfs)])
        |(st & _ & _ & _ & _ & Htr & Hfs)]];
    fold r in Htr, Hfs; rewrite Htr, Hfs.
  - done.
  - eapply stats_step_trans; [exact Ht|].
    unfold stats_step, rows_at. simpl.
    rewrite lookup_insert_ne by (symmetry; apply stats_path_not_save_path).
    rewrite app_nil_r. by repeat split.
  - eapply stats_step_trans; [exact Ht|].
    unfold stats_step. simpl. rewrite app_nil_r. by repeat split.
  - done.
Qed.

(** The metrics record is append-only: every row of a run is written to
    [<storage>/stats/<dataset>/dis/pretrain_dis_<method>_<backbone>.csv],
    the rows that file held before the run are kept and the rows of the
    run follow them in the order they were written, also when the run
    ends with an exception.  With stats saving off no row is written and
    the file is left as it was. *)
Theorem stats_record_append_only ev args s :
  let r := main ev args s in
  Forall (fun p => p = stats_path args) (row_paths (trace r)) /\
  rows_at (fs r) (stats_path args)
    = rows_at s (stats_path args) ++ rows (trace r) /\
  (save_stats args = false ->
   rows (trace r) = [] /\ fs r !! stats_path args = s !! stats_path args).
Proof.
  intros r. change (stats_step args s (trace r) (fs r)).
  unfold r. rewrite main_unfold. cbv zeta.
  destruct (only_loads_observations _ (startup_only_loads ev args s))
    as (_ & _ & _ & Hp0 & Hr0 & _).
  assert (stats_step args s (trace (startup ev args s)) s) as Hsu.
  { unfold stats_step. rewrite Hp0, Hr0, app_nil_r. by repeat split. }
  destruct (res (startup ev args s)) as [su|x]; [|done].
  rewrite trace_after, fs_after.
  eapply stats_step_trans; [exact Hsu|].
  generalize (su.2). generalize s.
  induction (range (epochs args)) as [|e es IH]; intros s0 dis;
    [apply stats_step_refl|].
  cbn [epoch_loop]. rewrite trace_bind, fs_bind.
  pose proof (run_epoch_stats_step ev (build_encoder args) su.1.2 su.1.1 args
                e dis s0) as He. cbv zeta in He.
  destruct (res (run_epoch _ _ _ _ _ _ _ _)).
  - eapply stats_step_trans; [exact He|apply IH].
  - by rewrite app_nil_r.
Qed.

(** *** Checkpoints *)

Lemma checkpoint_at_insert_ne (s : gmap string file) p q f :
  p ≠ q -> checkpoint_at (<[q := f]> s) p = checkpoint_at s p.
Proof. intros Hne. unfold checkpoint_at. by rewrite lookup_insert_ne. Qed.

Lemma run_epoch_checkpoints ev encoder generator word_index args e dis s :
  let r := run_epoch ev encoder generator word_index args e dis s in
  (forall p, p ≠ save_path args e -> checkpoint_at (fs r) p = checkpoint_at s p) /\
  (forall p d, (p, d) ∈ saved_dicts (trace r) ->
     p = save_path args e /\ checkpoint_at (fs r) p = Some d) /\
  (forall dis', res r = Ok dis' -> save_model args = true ->
     checkpoint_at (fs r) (save_path args e)
       = Some (checkpoint_dict dis'.1 dis'.2)).
Proof.
  intros r.
  destruct (train_summary ev e encoder generator dis.1 dis.2 word_index args s)
    as (HF & HS & _).
  assert (saved_dicts (trace (train ev e encoder generator dis.1 dis.2
                                word_index args s)) = []) as Hsd.
  { clear HS. induction HF as [|ev0 tr Hev _ IH]; [done|].
    destruct ev0; try done; exact IH. }
  destruct (run_epoch_cases ev encoder generator word_index args e dis s)
    as [(x & _ & Hr & Htr & Hfs)
       |[(st & _ & Hr & [(Hm & Htr & Hfs)|(Hm & Htr & Hfs)])
        |(st & _ & _ & _ & Hr & Htr & Hfs)]];
    fold r in Hr, Htr, Hfs; rewrite Hr, Htr, Hfs.
  4:{ split; [intros p _; apply HS|]. rewrite Hsd.
      split; [by intros p d Hin%elem_of_nil|done]. }
  - split; [intros p _; apply HS|]. rewrite Hsd.
    split; [by intros p d Hin%elem_of_nil|done].
  - split; [|split].
    + intros p Hne. rewrite checkpoint_at_insert_ne by done. apply HS.
    + intros p d. rewrite saved_dicts_app, Hsd. simpl.
      intros Hin%list_elem_of_singleton. injection Hin as -> ->.
      split; [done|]. unfold checkpoint_at. by rewrite lookup_insert_eq.
    + intros dis' [= <-] _. unfold checkpoint_at.
      by rewrite lookup_insert_eq.
  - split; [intros p _; apply HS|]. rewrite saved_dicts_app, Hsd. simpl.
    split; [by intros p d Hin%elem_of_nil|]. by rewrite Hm.
Qed.

Lemma epoch_loop_checkpoints ev encoder generator word_index args es :
  NoDup es ->
  forall dis s,
  let r := epoch_loop ev encoder generator word_index args es dis s in
  (forall p, (forall e, e ∈ es -> p ≠ save_path args e) ->
     checkpoint_at (fs r) p = checkpoint_at s p) /\
  (forall p d, (p, d) ∈ saved_dicts (trace r) ->
     checkpoint_at (fs r) p = Some d) /\
  (forall dis' e, res r = Ok dis' -> save_model args = true ->
     last es = Some e ->
     checkpoint_at (fs r) (save_path args e)
       = Some (checkpoint_dict dis'.1 dis'.2)).
Proof.
  induction 1 as [|e es Hnotin Hnd IH]; intros dis s.
  { simpl. split; [done|]. split; [by intros p d Hin%elem_of_nil|done]. }
  cbn [epoch_loop]. rewrite trace_bind, fs_bind, res_bind.
  destruct (run_epoch_checkpoints ev encoder generator word_index args e dis s)
    as (Hframe & Hsaved & Hfinal). cbv zeta in *.
  destruct (res (run_epoch ev encoder generator word_index args e dis s))
    as [dis1|x] eqn:He.
  2:{ rewrite app_nil_r. split; [|split; [|done]].
      - intros p Hp. apply Hframe, Hp. left.
      - intros p d Hin. by apply Hsaved. }
  destruct (IH dis1 (fs (run_epoch ev encoder generator word_index args e dis s)))
    as (IHframe & IHsaved & IHfinal).
  split; [|split].
  - intros p Hp. rewrite IHframe by (intros e' He'; apply Hp; by right).
    apply Hframe, Hp. left.
  - intros p d. rewrite saved_dicts_app. intros [Hin|Hin]%elem_of_app.
    + destruct (Hsaved p d Hin) as (-> & Hat).
      rewrite IHframe; [done|].
      intros e' He' Heq. apply (save_path_inj args) in Heq. by subst.
    + by apply IHsaved.
  - intros dis' e' Hok Hm Hlast. destruct es as [|e2 es'].
    + simpl in Hlast. injection Hlast as <-. simpl in Hok. injection Hok as <-.
      simpl. by apply Hfinal.
    + by apply (IHfinal dis' e' Hok Hm).
Qed.

(** Every checkpoint a run saves is still at its path, with the content
    that was saved, when the run ends, whether normally or with an
    exception: neither a later save nor a metric row replaces it. *)
Theorem saved_checkpoints_persist ev args s pre p d post :
  trace (main ev args s) = pre ++ EvSave p d :: post ->
  checkpoint_at (fs (main ev args s)) p = Some d.
Proof.
  intros Htr.
  assert ((p, d) ∈ saved_dicts (trace (main ev args s))) as Hin.
  { rewrite Htr, saved_dicts_app. simpl. set_solver. }
  revert Hin. rewrite main_unfold. cbv zeta.
  destruct (only_loads_observations _ (startup_only_loads ev args s))
    as (_ & _ & Hsd0 & _).
  destruct (res (startup ev args s)) as [su|x]; simpl.
  2:{ rewrite Hsd0. by intros Hin%elem_of_nil. }
  rewrite saved_dicts_app, Hsd0. simpl.
  destruct (epoch_loop_checkpoints ev (build_encoder args) su.1.2 su.1.1 args
              (range (epochs args)) (NoDup_seq _ _) su.2 s)
    as (_ & Hsaved & _).
  apply Hsaved.
Qed.

(** After a run that ends normally with checkpoint saving on and at
    least one epoch, the checkpoint of the last epoch holds the
    discriminator and optimiser states the run ended with, under
    ['dis_state_dict'] and ['optimizer_state_dict']. *)
Theorem last_checkpoint_holds_final_state ev args s d o :
  save_model args = true -> 0 < epochs args ->
  res (main ev args s) = Ok (d, o) ->
  checkpoint_at (fs (main ev args s))
    (save_path args (Z.to_nat (epochs args) - 1))
    = Some (checkpoint_dict d o).
Proof.
  intros Hm Hpos. rewrite main_unfold. cbv zeta.
  destruct (res (startup ev args s)) as [su|x]; [|done].
  rewrite res_after, fs_after. intros Hok.
  destruct (epoch_loop_checkpoints ev (build_encoder args) su.1.2 su.1.1 args
              (range (epochs args)) (NoDup_seq _ _) su.2 s)
    as (_ & _ & Hfinal).
  apply (Hfinal (d, o) _ Hok Hm).
  unfold range.
  replace (Z.to_nat (epochs args)) with (S (Z.to_nat (epochs args) - 1)) at 1
    by lia.
  rewrite seq_S. apply last_snoc.
Qed.

End Files.

(** ** An epoch over an empty loader *)

Section EmptyEpoch.
Context `{MD : Models}.

(** An epoch in which the loader yields no batch makes no optimiser
    step and writes no log line, whatever the print frequency (0
    included); it leaves the discriminator and the optimiser as they
    were.  With checkpoint saving off it is logged as completed and the
    files are left as they are; with checkpoint saving on and a
    checkpoint file that can be written it saves their checkpoint (the
    only change to the files) and is logged as completed; with
    checkpoint saving on and no directory for the checkpoint,
    [torch.save] raises: nothing is written and the epoch is not logged
    as completed. *)
Theorem empty_epoch_completes ev generator word_index args e dis s :
  batches_of ev e = [] ->
  let r := run_epoch ev (build_encoder args) generator word_index args e dis s in
  updates_loss (trace r) = [] /\ infos (trace r) = [] /\ rows (trace r) = [] /\
  if save_model args then
    if can_write ev s (save_path args e) then
      res r = Ok dis /\
      trace r = [EvSave (save_path args e) (checkpoint_dict dis.1 dis.2);
                 EvEpoch e] /\
      fs r = <[save_path args e :=
                 {| pickled := Some (checkpoint_dict dis.1 dis.2);
                    appended := [] |}]> s
    else
      res r = Raise (SaveError (save_path args e)) /\ trace r = [] /\ fs r = s
  else res r = Ok dis /\ trace r = [EvEpoch e] /\ fs r = s.
Proof.
  intros Hempty r.
  assert (train ev e (build_encoder args) generator dis.1 dis.2 word_index
            args s
          = ret {| discriminator := dis.1; dis_optimizer := dis.2;
                   losses := AverageMeter.init; acc := AverageMeter.init |} s)
    as Htrain.
  { unfold train. rewrite Hempty.
    set (guard := if negb (use_image_features args) then _ else _).
    assert (guard = ret tt) as ->.
    { unfold guard, build_encoder. by destruct (use_image_features args). }
    by rewrite bind_ret. }
  unfold r, run_epoch. rewrite bind_unfold, Htrain. simpl.
  destruct (save_model args); simpl; [|by destruct dis].
  unfold save_checkpoint, torch_save. rewrite bind_unfold.
  destruct (can_write ev s (save_path args e)); simpl; [|done].
  by destruct dis.
Qed.

End EmptyEpoch.

(** ** The epochs of a run and its metric rows *)

Section TrainingLoop.
Context `{MD : Models}.

Lemma print_intervals_first pf (n : nat) :
  pf ≠ 0 -> n ≠ O -> print_intervals pf n ≠ [].
Proof.
  intros Hpf Hn. destruct n as [|n]; [done|].
  unfold print_intervals. rewrite print_intervals_from.
  change (Z.of_nat 0) with 0. by rewrite Z.mod_0_l.
Qed.

Lemma can_write_false ev s p :
  can_write ev s p = false <-> s !! p = None /\ dir_exists ev p = false.
Proof.
  unfold can_write. rewrite orb_false_iff, bool_decide_eq_false.
  by rewrite <- eq_None_not_Some.
Qed.

(** Without a directory for the metrics file the first batch of an
    epoch, whose index 0 is a print interval, cannot write its row. *)
Lemma train_no_stats_directory ev epoch encoder generator d o word_index args s :
  save_stats args = true -> print_freq args ≠ 0 ->
  can_write ev s (stats_path args) = false ->
  let r := train ev epoch encoder generator d o word_index args s in
  rows (trace r) = [] /\ (length (updates_loss (trace r)) <= 1)%nat /\
  (updates_loss (trace r) ≠ [] ->
   res r = Raise (FileNotFoundError (stats_path args))) /\
  (forall st, res r = Ok st -> updates_loss (trace r) = [] /\ fs r = s).
Proof.
  intros Hstats Hpf Hw r. unfold r, train.
  set (guard := if negb (use_image_features args) then _ else _).
  assert (guard = ret tt \/ guard = raise AttributeErrorNone) as [->| ->].
  { unfold guard. destruct (use_image_features args); simpl; [eauto|].
    destruct encoder; eauto. }
  2:{ rewrite bind_raise. simpl. repeat split; try done; lia. }
  rewrite bind_ret.
  destruct (batches_of ev epoch) as [|b bs].
  { simpl. repeat split; try done; lia. }
  cbn [train_loop]. rewrite trace_bind, res_bind, fs_bind.
  destruct (train_batch_cases ev epoch encoder generator word_index args 0 b
              {| discriminator := d; dis_optimizer := o;
                 losses := AverageMeter.init; acc := AverageMeter.init |} s)
    as [(e & tr & Hr & Ht & _ & Htr & _)
       |(c & loss & accuracy & d' & o' & Ht & _ & Hr)].
  - rewrite Hr, Ht, app_nil_r.
    destruct Htr as [->|[c ->]]; simpl; repeat split; try done; lia.
  - cbv zeta in Ht, Hr. revert Ht Hr.
    rewrite report_on_interval by (by rewrite ?Z.mod_0_l).
    rewrite Hstats. unfold append_row. rewrite Hw. simpl.
    intros Ht Hr. rewrite Hr, Ht. simpl. repeat split; try done.
Qed.

Lemma epoch_loop_no_stats_directory ev encoder generator word_index args es :
  save_stats args = true -> print_freq args ≠ 0 ->
  dir_exists ev (stats_path args) = false ->
  forall dis s, s !! stats_path args = None ->
  let r := epoch_loop ev encoder generator word_index args es dis s in
  rows (trace r) = [] /\ (length (updates_loss (trace r)) <= 1)%nat /\
  (updates_loss (trace r) ≠ [] ->
   res r = Raise (FileNotFoundError (stats_path args))).
Proof.
  intros Hstats Hpf Hdir. induction es as [|e es IH]; intros dis s Hnone.
  { simpl. repeat split; try done; lia. }
  cbn [epoch_loop]. rewrite trace_bind, res_bind.
  assert (can_write ev s (stats_path args) = false) as Hw
    by (by apply can_write_false).
  destruct (train_no_stats_directory ev e encoder generator dis.1 dis.2
              word_index args s Hstats Hpf Hw) as (Tr & Tu & Tz & Tok).
  cbv zeta in *.
  destruct (run_epoch_cases ev encoder generator word_index args e dis s)
    as [(x & Ht & Hr & Htr & _)|[(st & Ht & Hr & Hsave)
       |(st & Ht & _ & _ & Hr & Htr & _)]]; cbv zeta in *.
  - rewrite Hr, Htr, app_nil_r. repeat split; try done.
    intros Hne. specialize (Tz Hne). congruence.
  - rewrite Hr. destruct (Tok st Ht) as (Hu0 & Hfs0).
    assert (rows (trace (run_epoch ev encoder generator word_index args e dis s)) = [] /\
            updates_loss (trace (run_epoch ev encoder generator word_index args e dis s)) = [] /\
            fs (run_epoch ev encoder generator word_index args e dis s)
              !! stats_path args = None)
      as (Hro & Hu & Hnone').
    { destruct Hsave as [(_ & -> & ->)|(_ & -> & ->)];
        rewrite rows_app, updates_loss_app, Tr, Hu0, Hfs0;
        [|done].
      rewrite lookup_insert_ne by (symmetry; apply stats_path_not_save_path).
      done. }
    destruct (IH (discriminator st, dis_optimizer st)
                (fs (run_epoch ev encoder generator word_index args e dis s))
                Hnone')
      as (IHr & IHu & IHz).
    rewrite rows_app, updates_loss_app, Hro, Hu, IHr. simpl. done.
  - rewrite Hr, Htr, app_nil_r. repeat split; try done.
    intros Hne. by rewrite (proj1 (Tok st Ht)) in Hne.
Qed.

(** C9.  The epoch loop completes the epochs 0, 1, ... in order and a
    run that ends normally has completed exactly [epochs] of them; once
    the start-up has gone through, a run on well-formed batches, with
    the directories it writes into in place, does end normally.  With an
    epoch count of 0 (or less) nothing is trained: no checkpoint is
    saved, no metric row written and the files are left as they are.
    With checkpoint saving off no checkpoint is saved and the checkpoint
    content of every file is left as it is; metric rows do not depend on
    that switch: such a run writes one row per print interval of every
    epoch when stats saving is on (none otherwise), hence at least one
    as soon as epoch 0 has a batch.  The script creates no directory:
    with stats saving on and neither a metrics file nor a directory for
    it, no row is written and the run stops with [FileNotFoundError]
    right after its first optimiser step. *)
Theorem training_loop_epochs ev args s :
  let r := main ev args s in
  epochs_done (trace r) `prefix_of` range (epochs args) /\
  (forall x, res r = Ok x -> epochs_done (trace r) = range (epochs args)) /\
  (forall su, res (startup ev args s) = Ok su -> loop_conditions ev args ->
   exists x, res r = Ok x /\ epochs_done (trace r) = range (epochs args)) /\
  (epochs args <= 0 ->
   saves (trace r) = [] /\ rows (trace r) = [] /\ updates_loss (trace r) = [] /\
   epochs_done (trace r) = [] /\ fs r = s) /\
  (save_model args = false ->
   saves (trace r) = [] /\ same_checkpoints s (fs r)) /\
  (forall su, res (startup ev args s) = Ok su -> loop_conditions ev args ->
   length (rows (trace r))
     = (if save_stats args then run_print_intervals ev args else O) /\
   (save_stats args = true -> 0 < epochs args -> batches_of ev 0%nat ≠ [] ->
    rows (trace r) ≠ [])) /\
  (save_stats args = true -> print_freq args ≠ 0 ->
   can_write ev s (stats_path args) = false ->
   rows (trace r) = [] /\ (length (updates_loss (trace r)) <= 1)%nat /\
   (updates_loss (trace r) ≠ [] ->
    res r = Raise (FileNotFoundError (stats_path args)))).
Proof.
  intros r.
  assert (epochs_done (trace r) `prefix_of` range (epochs args) /\
          (forall x, res r = Ok x -> epochs_done (trace r) = range (epochs args)) /\
          (epochs args <= 0 ->
           saves (trace r) = [] /\ rows (trace r) = [] /\
           updates_loss (trace r) = [] /\ epochs_done (trace r) = [] /\
           fs r = s) /\
          (save_model args = false ->
           saves (trace r) = [] /\ same_checkpoints s (fs r)) /\
          (forall x, res r = Ok x ->
           length (rows (trace r))
             = (if save_stats args then run_print_intervals ev args else O)) /\
          (save_stats args = true -> print_freq args ≠ 0 ->
           can_write ev s (stats_path args) = false ->
           rows (trace r) = [] /\ (length (updates_loss (trace r)) <= 1)%nat /\
           (updates_loss (trace r) ≠ [] ->
            res r = Raise (FileNotFoundError (stats_path args)))))
    as (Hprefix & Hok & Hzero & Hnosave & Hcount & Hnodir).
  { unfold r. rewrite main_unfold. cbv zeta.
    destruct (startup_no_saves ev args s) as (Hs0 & Hd0 & Hr0 & Hu0 & _).
    destruct (res (startup ev args s)) as [su|x] eqn:Hsu.
    - destruct (epoch_loop_summary ev (build_encoder args) su.1.2 su.1.1 args
                  (range (epochs args)) su.2 s)
        as (_ & Hp & Hok & Hs & Hc & _).
      rewrite trace_after, res_after, fs_after.
      rewrite epochs_done_app, saves_app, rows_app, updates_loss_app.
      rewrite Hs0, Hd0, Hr0, Hu0. simpl.
      split; [done|]. split; [done|]. split; [|split; [|split]].
      + intros Hle. unfold range.
        replace (Z.to_nat (epochs args)) with O by lia. done.
      + intros Hm. rewrite Hs, Hm. split; [done|]. by apply Hc.
      + intros x Hx.
        by destruct (epoch_loop_Ok_counts _ _ _ _ _ _ _ _ _ Hx)
          as (_ & _ & _ & _ & -> & _).
      + intros Hstats Hpf Hw. apply can_write_false in Hw as (Hnone & Hdir).
        by apply epoch_loop_no_stats_directory.
    - simpl. rewrite Hs0, Hd0, Hr0, Hu0.
      split; [apply prefix_nil|]. split; [done|]. split; [done|].
      split; [intros _; split; [done|]; apply same_checkpoints_refl|].
      split; [done|]. intros _ _ _. simpl. repeat split; try done; lia. }
  split; [done|]. split; [done|]. split; [|split; [done|split; [done|split]]];
    [| |done].
  - intros su Hsu Hcond.
    destruct (main_ok ev args s su Hsu Hcond) as (x & Hx).
    exists x. split; [done|]. by apply (Hok x).
  - intros su Hsu Hcond.
    destruct (main_ok ev args s su Hsu Hcond) as (x & Hx).
    pose proof (Hcount x Hx) as Hlen. split; [done|].
    intros Hstats Hpos Hb Hrows. rewrite Hrows, Hstats in Hlen.
    destruct Hcond as (Hpf & _).
    revert Hlen. unfold run_print_intervals, range.
    replace (Z.to_nat (epochs args)) with (S (Z.to_nat (epochs args) - 1))
      by lia.
    simpl.
    pose proof (print_intervals_first (print_freq args)
                  (length (batches_of ev 0%nat)) Hpf) as Hfirst.
    destruct (print_intervals (print_freq args) (length (batches_of ev 0%nat)));
      [|done].
    exfalso. apply Hfirst; [|done]. by destruct (batches_of ev 0%nat).
Qed.

End TrainingLoop.

(** ** The claims on explicit inputs *)

Module Runs.
Import Toy RunInputs.

(** C4 on [batch0], its sampled captions and the reversing permutation:
  the real captions come first, and output position 0, which reads
  position 3, holds a sampled caption with label 0. *)
Lemma label_mixer_counts_witness :
m_inputs (concat_batches (b_imgs batch0) (b_caps batch0) (b_cap_lens batch0)
            fake0 [3; 3]) = b_caps batch0 ++ fake0 /\
exists mx,
  permute [3; 2; 1; 0]%nat
    (concat_batches (b_imgs batch0) (b_caps batch0) (b_cap_lens batch0)
       fake0 [3; 3]) = Some mx /\
  count_label 1 (m_targets mx) = 2%nat /\
  count_label 0 (m_targets mx) = 2%nat /\
  m_targets mx !! 0%nat = Some 0%Q /\ m_inputs mx !! 0%nat = fake0 !! 1%nat.
Proof.
destruct (label_mixer_counts (b_imgs batch0) (b_caps batch0)
            (b_cap_lens batch0) fake0 [3; 3] [3; 2; 1; 0]%nat)
  as (Hin & _ & _ & _ & _ & _ & _ & mx & Hmx & _ & _ & _ & H1 & H0 & Hlab).
- repeat split; reflexivity.
- apply Permutation_sym, (Permutation_rev [0; 1; 2; 3]%nat).
- split; [exact Hin|]. exists mx.
  destruct (Hlab 0%nat 3%nat eq_refl) as (Ht & Hc).
  repeat split; assumption.
Defined.

(** C5 on the same batch, at output position 0. *)
Lemma label_mixer_association_witness :
exists mx,
  permute [3; 2; 1; 0]%nat
    (concat_batches (b_imgs batch0) (b_caps batch0) (b_cap_lens batch0)
       fake0 [3; 3]) = Some mx /\
  exists img cap len lab,
    m_imgs mx !! 0%nat = Some img /\ m_inputs mx !! 0%nat = Some cap /\
    m_input_lens mx !! 0%nat = Some len /\ m_targets mx !! 0%nat = Some lab.
Proof.
destruct (label_mixer_association (b_imgs batch0) (b_caps batch0)
            (b_cap_lens batch0) fake0 [3; 3] [3; 2; 1; 0]%nat)
  as (mx & Hmx & Hpos).
- repeat split; reflexivity.
- apply Permutation_sym, (Permutation_rev [0; 1; 2; 3]%nat).
- exists mx. split; [assumption|].
  destruct (Hpos 0%nat) as (j & img & cap & len & lab & _ & _ & _ & Hi & _
                             & Hc & _ & Hl & _ & Ht).
  + simpl. lia.
  + exists img, cap, len, lab. repeat split; assumption.
Defined.

(** C6 on [batch0] with the configured max-length 20. *)
Lemma batch_sampler_call_witness :
exists call,
  trace (sample_from_start (MD := models) (b_imgs batch0) (b_caps batch0)
           (b_cap_lens batch0) 0 ∅ args0 ∅) = [EvSample call] /\
  exists longest, cap_len call = Z.max longest 20 - 1.
Proof.
destruct (batch_sampler_call (MD := models) (b_imgs batch0) (b_caps batch0)
            (b_cap_lens batch0) 0 ∅ args0 ∅)
  as (longest & call & _ & _ & Htr & _ & Hlen & _).
- discriminate.
- repeat constructor; discriminate.
- exists call. split; [assumption|]. exists longest. exact Hlen.
Defined.

(** C3 at batch 1 with print frequency 1: on a storage with its
  directories the row is written, without them the [open] raises. *)
Lemma report_at_print_interval_witness :
res (report env0 0 1 (1 # 4)
       (AverageMeter.feed AverageMeter.init [1; 2]%Q)
       (AverageMeter.feed AverageMeter.init [1 # 8; 2 # 8]%Q) args0 ∅) = Ok tt /\
res (report env_no_dirs 0 1 (1 # 4)
       (AverageMeter.feed AverageMeter.init [1; 2]%Q)
       (AverageMeter.feed AverageMeter.init [1 # 8; 2 # 8]%Q) args0 ∅)
  = Raise (FileNotFoundError (stats_path args0)).
Proof.
split.
- assert (print_freq args0 ≠ 0) as Hpf by (simpl; lia).
  pose proof (report_at_print_interval env0 0 1 (1 # 4)
                (AverageMeter.feed AverageMeter.init [1; 2]%Q)
                (AverageMeter.feed AverageMeter.init [1 # 8; 2 # 8]%Q) args0 ∅
                Hpf eq_refl) as H.
  exact (proj1 H).
- assert (print_freq args0 ≠ 0) as Hpf by (simpl; lia).
  pose proof (report_at_print_interval env_no_dirs 0 1 (1 # 4)
                (AverageMeter.feed AverageMeter.init [1; 2]%Q)
                (AverageMeter.feed AverageMeter.init [1 # 8; 2 # 8]%Q) args0 ∅
                Hpf eq_refl) as H.
  exact (proj1 H).
Defined.

(** C7 at the save of epoch 1 in the first run. *)
Lemma saves_are_epoch_tagged_witness :
save_path args0 1 ∉ saves (take 10 (trace first_run)).
Proof.
apply (saves_are_epoch_tagged env0 args0 ∅ (take 10 (trace first_run))
         (save_path args0 1) (checkpoint_dict (MD := models) 3 2)
         (drop 11 (trace first_run))).
vm_compute. reflexivity.
Defined.

(** C2 at the log line of epoch 1 in the first run. *)
Lemma running_average_is_per_epoch_witness :
exists fields,
  trace first_run !! 8%nat = Some (EvInfo fields) /\
  fields !! 3%nat
    = Some (CNum (mean (updates_loss (current_epoch (take 8 (trace first_run)))))).
Proof.
eexists. split; [vm_compute; reflexivity|].
apply (running_average_is_per_epoch env0 args0 ∅ (take 8 (trace first_run)) _
         (drop 9 (trace first_run))).
vm_compute. reflexivity.
Defined.

(** C8 on a file system with no checkpoint: the start-up does nothing. *)
Lemma checkpoints_loaded_only_at_startup_witness :
startup env0 args0 ∅ =
ret (MD := models) (∅, 0, (1, 0)) ∅.
Proof.
destruct (checkpoints_loaded_only_at_startup env0 args0 ∅)
  as (_ & _ & _ & _ & _ & Hnone).
apply (Hnone eq_refl eq_refl ∅ eq_refl).
Defined.

(** The toy collaborators and inputs meet the conditions of a normal run. *)
Lemma toy_loop_conditions : loop_conditions env0 args0.
Proof.
split; [discriminate|]. split; [|split; [|split; [|split]]].
- intros e. repeat constructor; discriminate.
- intros e b n. apply Permutation_sym, Permutation_rev.
- done.
- done.
- intros g call wi. simpl. by rewrite !length_map.
Defined.

(** C9 on the first run: it ends normally after epochs 0 and 1 and has
  written the two rows of its two print intervals.  The same run on a
  storage without directories writes no row and stops with
  [FileNotFoundError]. *)
Lemma training_loop_epochs_witness :
(exists x, res first_run = Ok x /\ epochs_done (trace first_run) = [0; 1]%nat) /\
length (rows (trace first_run)) = run_print_intervals env0 args0 /\
rows (trace first_run) ≠ [] /\
rows (trace run_no_dirs) = [] /\
res run_no_dirs = Raise (FileNotFoundError (stats_path args0)).
Proof.
destruct (training_loop_epochs env0 args0 ∅) as (_ & _ & Hrun & _ & _ & Hrows & _).
destruct (Hrows (∅, 0, (1, 0)) eq_refl toy_loop_conditions) as (Hlen & Hne).
destruct (training_loop_epochs env_no_dirs args0 ∅)
  as (_ & _ & _ & _ & _ & _ & Hnodir).
destruct Hnodir as (Hnone & _ & Hraise).
{ reflexivity. }
{ simpl. lia. }
{ vm_compute. reflexivity. }
split; [apply (Hrun (∅, 0, (1, 0)) eq_refl toy_loop_conditions)|].
split; [exact Hlen|]. split.
- apply Hne.
  + reflexivity.
  + simpl. lia.
  + vm_compute. discriminate.
- split; [exact Hnone|]. apply Hraise. vm_compute. discriminate.
Defined.

(** C10 on the first run, which uses precomputed features. *)
Lemma encoder_none_never_dereferenced_witness :
build_encoder args0 = None /\ res first_run ≠ Raise TypeErrorNone.
Proof.
destruct (encoder_none_never_dereferenced env0 args0 ∅)
  as (Hnone & _ & _ & _ & Hrun).
split; [apply Hnone; reflexivity|exact Hrun].
Defined.

(** C1 at the save of epoch 1: the states 3 and 2 are in the file, and
  the load that names the file stops with the [KeyError]. *)
Lemma checkpoint_roundtrip_key_error_witness :
res (save_checkpoint (MD := models) env0 args0 1 3 2 ∅) = Ok tt /\
res (load_discriminator (MD := models)
       (with_dis_checkpoint args0 (saved_filename args0 1)) 1 0
       (fs (save_checkpoint (MD := models) env0 args0 1 3 2 ∅)))
  = Raise (KeyError "dis_optimizer_state_dict").
Proof.
destruct (checkpoint_roundtrip_key_error (MD := models) env0 args0 1 3 1 2 0 ∅)
  as (_ & _ & Hsaved).
destruct (Hsaved eq_refl) as (Hres & _ & Hload).
split; assumption.
Defined.

(** C1 on the first run: the checkpoint it left for epoch 1 makes the
  start-up of a run that names it stop with the [KeyError]. *)
Lemma resume_from_saved_checkpoint_fails :
res (main env0
       (with_dis_checkpoint args0 "pretrain_dis_1_multinomial_resnet152.pth")
       (fs first_run))
  = Raise (KeyError "dis_optimizer_state_dict").
Proof. vm_compute. reflexivity. Qed.

(** C2 as stated fails.  In the first run the log line of epoch 1 comes
  after the losses 1 (epoch 0) and 2 (epoch 1); it reports the running
  loss 2, not their mean 3/2. *)
Lemma running_average_counterexample :
exists pre fields post,
  trace first_run = pre ++ EvInfo fields :: post /\
  fields !! 0%nat = Some (CInt 1) /\
  updates_loss pre = [1; 2]%Q /\
  fields !! 3%nat = Some (CNum 2) /\
  ~ (2 == mean (updates_loss pre))%Q /\
  ~ reports_mean_since_start (trace first_run).
Proof.
exists (take 8 (trace first_run)), [CInt 1; CInt 0; CNum (1 # 4); CNum 2; CNum 2;
                                    CNum (2 # 8); CNum (2 # 8)],
       (drop 9 (trace first_run)).
assert (trace first_run
        = take 8 (trace first_run)
            ++ EvInfo [CInt 1; CInt 0; CNum (1 # 4); CNum 2; CNum 2;
                       CNum (2 # 8); CNum (2 # 8)]
            :: drop 9 (trace first_run)) as Hsplit
  by (vm_compute; reflexivity).
assert (~ (2 == mean (updates_loss (take 8 (trace first_run))))%Q) as Hne
  by (vm_compute; discriminate).
split; [exact Hsplit|]. split; [reflexivity|].
split; [vm_compute; reflexivity|]. split; [reflexivity|].
split; [exact Hne|].
intros Hclaim. apply Hne.
apply (Hclaim _ _ _ 2%Q Hsplit). reflexivity.
Qed.

(** C3 as stated fails.  After the losses 1, 2 and the accuracies 1/8,
  2/8, the line logged for batch 1 has the running loss 3/2 where the
  current loss 2 is claimed, and the CSV row has six fields where the
  log line has seven. *)
Lemma report_fields_counterexample :
let losses := AverageMeter.feed AverageMeter.init [1; 2]%Q in
let acc := AverageMeter.feed AverageMeter.init [1 # 8; 2 # 8]%Q in
exists fields row,
  trace (report env0 0 1 (1 # 4) losses acc args0 ∅)
    = [EvInfo fields; EvRow (stats_path args0) row] /\
  fields ≠ fields_current_then_running 0 1 (1 # 4) losses acc /\
  fields !! 3%nat = Some (CNum (3 # 2)) /\
  ~ (3 # 2 == AverageMeter.val losses)%Q /\
  row ≠ fields /\ length row = 6%nat /\ length fields = 7%nat.
Proof.
intros losses acc. eexists _, _.
split; [vm_compute; reflexivity|].
split; [vm_compute; discriminate|].
split; [reflexivity|].
split; [vm_compute; discriminate|].
split; [vm_compute; discriminate|].
split; reflexivity.
Qed.

(** C7 as stated fails.  The second run saves its epoch-0 checkpoint to
  the path where the first run left one, and replaces its content. *)
Lemma save_overwrites_counterexample :
let p := save_path args0 0 in
is_Some (fs first_run !! p) /\
saves (trace second_run) = [p; save_path args0 1] /\
checkpoint_at (fs first_run) p ≫= (fun d => d !! "dis_state_dict")
  = Some (ODis (MD := models) 2) /\
checkpoint_at (fs second_run) p ≫= (fun d => d !! "dis_state_dict")
  = Some (ODis (MD := models) 3) /\
~ writes_new_files (fs first_run) (trace second_run).
Proof.
intros p.
assert (is_Some (fs first_run !! p)) as Hthere
  by (vm_compute; eauto).
split; [exact Hthere|]. split; [vm_compute; reflexivity|].
split; [vm_compute; reflexivity|]. split; [vm_compute; reflexivity|].
intros Hclaim.
destruct (Hclaim (take 8 (trace second_run)) p
            (checkpoint_dict (MD := models) 3 2)
            (drop 9 (trace second_run))) as (Hnone & _).
- vm_compute. reflexivity.
- rewrite Hnone in Hthere. exact (is_Some_None Hthere).
Qed.

End Runs.

(** ** The further properties on explicit inputs *)

Module ExtraRuns.
Import Toy RunInputs ExtraInputs.

Lemma label_mixer_keeps_examples_witness :
exists mx,
  permute [3; 2; 1; 0]%nat
    (concat_batches (b_imgs batch0) (b_caps batch0) (b_cap_lens batch0)
       fake0 [3; 3]) = Some mx /\
  length (examples mx) = 4%nat.
Proof.
destruct (label_mixer_keeps_examples (b_imgs batch0) (b_caps batch0)
            (b_cap_lens batch0) fake0 [3; 3] [3; 2; 1; 0]%nat)
  as (mx & Hmx & Hlen & _).
- repeat split; reflexivity.
- apply Permutation_sym, (Permutation_rev [0; 1; 2; 3]%nat).
- exists mx. split; assumption.
Defined.

Lemma generator_load_restores_witness :
res (load_generator (MD := models) args_resume 0 files_with_checkpoints) = Ok 5.
Proof.
destruct (generator_load_restores (MD := models) args_resume 0
            files_with_checkpoints gen_checkpoint_file
            (<["gen_state_dict" := OGen (MD := models) 5]> ∅))
  as (_ & _ & Hres).
- vm_compute. reflexivity.
- reflexivity.
- exact Hres.
Defined.

Lemma discriminator_load_restores_witness :
res (load_discriminator (MD := models) args_resume 1 0 files_with_checkpoints)
  = Ok (7, 8).
Proof.
destruct (discriminator_load_restores (MD := models) args_resume 1 0
            files_with_checkpoints dis_checkpoint_file
            (<["dis_state_dict" := ODis (MD := models) 7]>
               (<["dis_optimizer_state_dict" := OOpt (MD := models) 8]> ∅)))
  as (_ & _ & Hres).
- vm_compute. reflexivity.
- reflexivity.
- exact Hres.
Defined.

Lemma failed_startup_ends_run_witness :
res (main env_no_vocabulary args0 ∅)
  = Raise (FileNotFoundError "./processed_data/flickr8k/word_index.json") /\
trace (main env_no_vocabulary args0 ∅) = [].
Proof.
destruct (failed_startup_ends_run env_no_vocabulary args0 ∅
            (FileNotFoundError "./processed_data/flickr8k/word_index.json"))
  as (Hres & _ & _ & _ & _ & _ & Hnone & _).
- reflexivity.
- split; [exact Hres|]. apply Hnone. reflexivity.
Defined.

Lemma train_epoch_counts_witness :
steps (MD := models) env1 0 None 0 ∅ args0 0 (batches_of env1 0%nat) (1, 0)
  = Some (3, 2) /\
logged_batches (trace (train (MD := models) env1 0 None 0 1 0 ∅ args0 ∅))
  = print_intervals 1 2.
Proof.
destruct (train_epoch_counts (MD := models) env1 0 None 0 1 0 ∅ args0 ∅
            state_after_two)
  as (Hst & _ & _ & _ & _ & _ & _ & Hlog & _).
- vm_compute. reflexivity.
- split; [exact Hst|exact Hlog].
Defined.

Lemma normal_run_counts_witness :
(exists su,
   res (startup env0 args0 ∅) = Ok su /\
   epoch_steps env0 (build_encoder args0) su.1.2 su.1.1 args0
     (range (epochs args0)) su.2 = Some (3, 2)) /\
length (updates_loss (trace first_run)) = 2%nat.
Proof.
destruct (normal_run_counts env0 args0 ∅ (3, 2)) as (Hst & Hu & _).
- vm_compute. reflexivity.
- split; [exact Hst|exact Hu].
Defined.

Lemma zero_print_freq_aborts_witness :
res (main env0 args_print_freq_0 ∅) = Raise ZeroDivisionError.
Proof.
destruct (zero_print_freq_aborts env0 args_print_freq_0 ∅)
  as (_ & _ & _ & Hraise).
- reflexivity.
- apply Hraise. vm_compute. discriminate.
Defined.

Lemma saved_checkpoints_persist_witness :
checkpoint_at (fs first_run) (save_path args0 0)
  = Some (checkpoint_dict (MD := models) 2 1).
Proof.
apply (saved_checkpoints_persist env0 args0 ∅ (take 4 (trace first_run))
         (save_path args0 0) (checkpoint_dict (MD := models) 2 1)
         (drop 5 (trace first_run))).
vm_compute. reflexivity.
Defined.

Lemma last_checkpoint_holds_final_state_witness :
checkpoint_at (fs first_run) (save_path args0 1)
  = Some (checkpoint_dict (MD := models) 3 2).
Proof.
apply (last_checkpoint_holds_final_state env0 args0 ∅ 3 2).
- reflexivity.
- reflexivity.
- vm_compute. reflexivity.
Defined.

Lemma empty_epoch_completes_witness :
res (run_epoch (MD := models) env_empty (build_encoder args_print_freq_0) 0 ∅
       args_print_freq_0 0 (1, 0) ∅) = Ok (1, 0) /\
res (run_epoch (MD := models) env_empty_no_dirs
       (build_encoder args_print_freq_0) 0 ∅ args_print_freq_0 0 (1, 0) ∅)
  = Raise (SaveError (save_path args_print_freq_0 0)).
Proof.
split.
- destruct (empty_epoch_completes (MD := models) env_empty 0 ∅
              args_print_freq_0 0 (1, 0) ∅ eq_refl) as (_ & _ & _ & H).
  exact (proj1 H).
- destruct (empty_epoch_completes (MD := models) env_empty_no_dirs 0 ∅
              args_print_freq_0 0 (1, 0) ∅ eq_refl) as (_ & _ & _ & H).
  exact (proj1 H).
Defined.

End ExtraRuns.
